(** * mp3codec~ : the frame-synchronous transcode and ring-buffer pipeline

    A shallow embedding of [mp3codec~.c] (a Max/MSP signal external built on
    LAME) and the properties of its pipeline.

    Conventions of the embedding.
    - The object [t_mp3codec *x] is passed and returned as a value; the
      receiver is an existing object (the handlers' [if (!x) return;] guard
      on a NULL receiver is outside the model).
    - A pointer to a buffer or to a codec handle is an [option]: [None] is
      NULL.  [sysmem_newptrclear] is taken to succeed (the source never
      checks its result) and returns zero-filled storage.
    - C [int] and [long] values are integers in [Z].  Signed overflow is
      undefined in C; fills, cursors and counts are bounded by the buffer
      sizes, and the encoder delay that the engine reports is taken to leave
      the latency sum within [int].
    - [double] and [float] values are IEEE-754 binary64 / binary32 numbers,
      as [spec_float] with the operations of [SpecFloat].
    - An array is a [list]; [a[i] = v] is stdpp's [<[i:=v]>] and a read is a
      lookup with a default.  Out-of-range accesses are undefined in C; in
      the model such a write does nothing and such a read gives the default.
    - Everything the external does to the outside world (console lines,
      LAME calls, outlet messages, sleeps) is appended to a [history], newest
      first.  The answers of LAME are given by an [Engine], which may depend
      on the whole history so far: the engine is stateful and opaque.
    - [post]/[error] record the format string; the values substituted into it
      are not recorded. *)

From Stdlib Require Import ZArith String Lia.
From Stdlib Require Import Floats.SpecFloat.
From Stdlib Require Import Init.Byte.
From stdpp Require Import base list.

Local Open Scope Z_scope.

(** ** Sample arithmetic *)

Module Sample.

Definition double : Type := spec_float.
Definition float : Type := spec_float.
Definition short : Type := Z.

(** Round a value to the format with [prec] bits of precision. *)
Definition round_to (prec emax : Z) (v : spec_float) : spec_float :=
  match v with
  | S754_finite s m e => binary_normalize prec emax (cond_Zopp s (Zpos m)) e s
  | _ => v
  end.

Definition double_of_float : float -> double := round_to 53 1024.
Definition float_of_double : double -> float := round_to 24 128.
Definition float_of_int (n : Z) : float := binary_normalize 24 128 n 0 false.
Definition double_of_long (n : Z) : double := binary_normalize 53 1024 n 0 false.

Definition dmul : double -> double -> double := SFmul 53 1024.
Definition ddiv : double -> double -> double := SFdiv 53 1024.
Definition fmul : float -> float -> float := SFmul 24 128.
Definition fdiv : float -> float -> float := SFdiv 24 128.

(** [a < b] on doubles (false when either is a NaN). *)
Definition dlt : double -> double -> bool := SFltb.

Definition dzero : double := S754_zero false.
Definition fzero : float := S754_zero false.

Definition INT_MAX : Z := 2147483647.
Definition INT_MIN : Z := -2147483648.
Definition LONG_MAX : Z := 9223372036854775807.
Definition LONG_MIN : Z := -9223372036854775808.

(** Conversion of a floating-point value to a signed integer type with range
    [lo..hi]: truncation towards zero.  C leaves the conversion undefined
    when the truncated value does not fit; the model saturates and sends NaN
    to 0, as the AArch64 conversion instructions do. *)
Definition truncate (lo hi : Z) (f : spec_float) : Z :=
  match f with
  | S754_zero _ => 0
  | S754_infinity s => if s then lo else hi
  | S754_nan => 0
  | S754_finite s m e =>
      let t := cond_Zopp s (Z.shiftl (Zpos m) e) in
      if t >? hi then hi else if t <? lo then lo else t
  end.

Definition int_of_float : float -> Z := truncate INT_MIN INT_MAX.
Definition long_of_double : double -> Z := truncate LONG_MIN LONG_MAX.

(** [static inline short float_to_short(float sample)] *)
Definition float_to_short (sample : float) : short :=
  let value := int_of_float (fmul sample (float_of_int 32767)) in
  let value := if value >? 32767 then 32767 else value in
  let value := if value <? -32768 then -32768 else value in
  value.

(** [static inline float short_to_float(short sample)] *)
Definition short_to_float (sample : short) : float :=
  fdiv (float_of_int sample) (float_of_int 32767).

End Sample.
Export Sample.

(** ** Constants *)

Definition MP3_FRAME_SIZE : Z := 1152.
Definition MP3_BUFFER_SIZE : Z := 8192.
Definition PCM_BUFFER_SIZE : Z := MP3_FRAME_SIZE * 4.
Definition DECODE_BUFFER_SIZE : Z := 16384.

(** [static const int QUALITY_BITRATES[10]] *)
Definition QUALITY_BITRATES_table : list Z :=
  [320; 256; 192; 160; 128; 112; 96; 64; 40; 32].

Definition QUALITY_BITRATES (q : Z) : Z :=
  nth (Z.to_nat q) QUALITY_BITRATES_table 0.

(** The Max SDK's [CLAMP(a, lo, hi)] macro. *)
Definition CLAMP (a lo hi : Z) : Z :=
  if a >? lo then (if a <? hi then a else hi) else lo.

(** The same macro at type [double]. *)
Definition CLAMP_double (a lo hi : double) : double :=
  if dlt lo a then (if dlt a hi then a else hi) else lo.

(** Enumerators of [lame.h] used by the source. *)
Definition vbr_off : Z := 0.
Definition STEREO : Z := 0.
Definition JOINT_STEREO : Z := 1.
Definition MONO : Z := 3.

(** ** The LAME objects and the outside world *)

(** The settings the source can apply to an encoder. *)
Inductive lame_param : Type :=
  | num_channels | in_samplerate | out_samplerate | VBR | brate
  | lame_quality | mode | force_ms | ATHonly | ATHshort | no_short_blocks
  | emphasis | experimentalX | experimentalY | lowpassfreq | highpassfreq
  | disable_reservoir.

(** What [lame_global_flags *gfp] points to: the [lame_set_*] calls applied to
    the encoder since [lame_init], oldest first. *)
Definition lame_global_flags : Type := list (lame_param * Z).

(** [lame_set_<p>(gfp, v)] *)
Definition lame_set (p : lame_param) (v : Z) (g : lame_global_flags)
  : lame_global_flags := g ++ [(p, v)].

(** What [hip_t] points to; the decoder has no setting of its own. *)
Inductive hip_t : Type := hip_decoder.

(** A Max outlet. *)
Inductive outlet : Type := outlet_analysis | outlet_status.

(** A Max atom, as far as the source builds and reads them. *)
Inductive t_atom : Type :=
  | A_FLOAT (f : double)
  | A_LONG (n : Z).

(** [atom_getfloat] and [atom_getlong] convert between the two kinds. *)
Definition atom_getfloat (a : t_atom) : double :=
  match a with
  | A_FLOAT f => f
  | A_LONG n => double_of_long n
  end.
Definition atom_getlong (a : t_atom) : Z :=
  match a with
  | A_FLOAT f => long_of_double f
  | A_LONG n => n
  end.

Inductive event : Type :=
  | Ev_post (fmt : string)
  | Ev_error (fmt : string)
  | Ev_systhread_sleep (ms : Z)
  | Ev_outlet_list (o : outlet) (argv : list t_atom)
  | Ev_lame_init (ok : bool)
  | Ev_lame_init_params (g : lame_global_flags) (rc : Z)
  | Ev_lame_close
  | Ev_hip_decode_init (ok : bool)
  | Ev_hip_decode_exit
  | Ev_lame_encode_buffer (pcm_l pcm_r : list short) (nsamples : Z) (rc : Z)
  | Ev_hip_decode (mp3buf : list byte) (len : Z) (rc : Z).

Definition history : Type := list event.

Definition post (fmt : string) (h : history) : history := Ev_post fmt :: h.
Definition error (fmt : string) (h : history) : history := Ev_error fmt :: h.
Definition post_if (c : bool) (fmt : string) (h : history) : history :=
  if c then post fmt h else h.

(** The codec engine: what LAME answers to each call, given everything that
    happened before. *)
Class Engine : Type := {
  (** whether [lame_init()] returns an encoder *)
  lame_init : history -> bool;
  (** the return code of [lame_init_params(gfp)] *)
  lame_init_params : history -> lame_global_flags -> Z;
  (** [lame_get_encoder_delay(gfp)] *)
  lame_get_encoder_delay : history -> lame_global_flags -> Z;
  (** whether [hip_decode_init()] returns a decoder *)
  hip_decode_init : history -> bool;
  (** [lame_encode_buffer(gfp, l, r, n, mp3buf, size)]: the return code and
      the contents of [mp3buf] afterwards *)
  lame_encode_buffer :
    history -> lame_global_flags -> list short -> list short -> Z -> Z ->
    Z * list byte;
  (** [hip_decode(hip, mp3buf, len, pcm_l, pcm_r)]: the return code and the
      contents of [pcm_l] and [pcm_r] afterwards *)
  hip_decode :
    history -> list byte -> Z -> list short -> list short ->
    Z * list short * list short
}.

(** ** The object *)

Record t_mp3codec : Type := mk_mp3codec {
  gfp : option lame_global_flags;
  hip : option hip_t;
  quality : Z;
  input_gain : double;
  output_gain : double;
  bypass : Z;
  enable_lowpass : Z;
  enable_highpass : Z;
  enable_ms_stereo : Z;
  enable_ath_only : Z;
  enable_experimental : Z;
  enable_emphasis : Z;
  sample_rate : Z;
  channels : Z;
  initialized : Z;
  encode_buffer_left : option (list float);
  encode_buffer_right : option (list float);
  encode_buffer_fill : Z;
  mp3_accumulator : option (list byte);
  mp3_accumulator_fill : Z;
  decode_pcm_left : option (list short);
  decode_pcm_right : option (list short);
  output_ring_left : option (list float);
  output_ring_right : option (list float);
  ring_write_pos : Z;
  ring_read_pos : Z;
  ring_size : Z;
  total_latency_samples : Z;
  total_latency_ms : double;
  lame_encoder_delay : Z;
  lame_decoder_delay : Z;
  buffer_latency_samples : Z;
  decode_delay_compensation : Z;
  analysis_outlet : option outlet;
  status_outlet : option outlet
}.

Definition set_gfp (v : option lame_global_flags) (x : t_mp3codec) : t_mp3codec :=
  mk_mp3codec v (hip x) (quality x) (input_gain x) (output_gain x) (bypass
    x) (enable_lowpass x) (enable_highpass x) (enable_ms_stereo x)
    (enable_ath_only x) (enable_experimental x) (enable_emphasis x)
    (sample_rate x) (channels x) (initialized x) (encode_buffer_left x)
    (encode_buffer_right x) (encode_buffer_fill x) (mp3_accumulator x)
    (mp3_accumulator_fill x) (decode_pcm_left x) (decode_pcm_right x)
    (output_ring_left x) (output_ring_right x) (ring_write_pos x)
    (ring_read_pos x) (ring_size x) (total_latency_samples x)
    (total_latency_ms x) (lame_encoder_delay x) (lame_decoder_delay x)
    (buffer_latency_samples x) (decode_delay_compensation x)
    (analysis_outlet x) (status_outlet x).

Definition set_hip (v : option hip_t) (x : t_mp3codec) : t_mp3codec :=
  mk_mp3codec (gfp x) v (quality x) (input_gain x) (output_gain x) (bypass
    x) (enable_lowpass x) (enable_highpass x) (enable_ms_stereo x)
    (enable_ath_only x) (enable_experimental x) (enable_emphasis x)
    (sample_rate x) (channels x) (initialized x) (encode_buffer_left x)
    (encode_buffer_right x) (encode_buffer_fill x) (mp3_accumulator x)
    (mp3_accumulator_fill x) (decode_pcm_left x) (decode_pcm_right x)
    (output_ring_left x) (output_ring_right x) (ring_write_pos x)
    (ring_read_pos x) (ring_size x) (total_latency_samples x)
    (total_latency_ms x) (lame_encoder_delay x) (lame_decoder_delay x)
    (buffer_latency_samples x) (decode_delay_compensation x)
    (analysis_outlet x) (status_outlet x).

Definition set_quality (v : Z) (x : t_mp3codec) : t_mp3codec :=
  mk_mp3codec (gfp x) (hip x) v (input_gain x) (output_gain x) (bypass x)
    (enable_lowpass x) (enable_highpass x) (enable_ms_stereo x)
    (enable_ath_only x) (enable_experimental x) (enable_emphasis x)
    (sample_rate x) (channels x) (initialized x) (encode_buffer_left x)
    (encode_buffer_right x) (encode_buffer_fill x) (mp3_accumulator x)
    (mp3_accumulator_fill x) (decode_pcm_left x) (decode_pcm_right x)
    (output_ring_left x) (output_ring_right x) (ring_write_pos x)
    (ring_read_pos x) (ring_size x) (total_latency_samples x)
    (total_latency_ms x) (lame_encoder_delay x) (lame_decoder_delay x)
    (buffer_latency_samples x) (decode_delay_compensation x)
    (analysis_outlet x) (status_outlet x).

Definition set_input_gain (v : double) (x : t_mp3codec) : t_mp3codec :=
  mk_mp3codec (gfp x) (hip x) (quality x) v (output_gain x) (bypass x)
    (enable_lowpass x) (enable_highpass x) (enable_ms_stereo x)
    (enable_ath_only x) (enable_experimental x) (enable_emphasis x)
    (sample_rate x) (channels x) (initialized x) (encode_buffer_left x)
    (encode_buffer_right x) (encode_buffer_fill x) (mp3_accumulator x)
    (mp3_accumulator_fill x) (decode_pcm_left x) (decode_pcm_right x)
    (output_ring_left x) (output_ring_right x) (ring_write_pos x)
    (ring_read_pos x) (ring_size x) (total_latency_samples x)
    (total_latency_ms x) (lame_encoder_delay x) (lame_decoder_delay x)
    (buffer_latency_samples x) (decode_delay_compensation x)
    (analysis_outlet x) (status_outlet x).

Definition set_output_gain (v : double) (x : t_mp3codec) : t_mp3codec :=
  mk_mp3codec (gfp x) (hip x) (quality x) (input_gain x) v (bypass x)
    (enable_lowpass x) (enable_highpass x) (enable_ms_stereo x)
    (enable_ath_only x) (enable_experimental x) (enable_emphasis x)
    (sample_rate x) (channels x) (initialized x) (encode_buffer_left x)
    (encode_buffer_right x) (encode_buffer_fill x) (mp3_accumulator x)
    (mp3_accumulator_fill x) (decode_pcm_left x) (decode_pcm_right x)
    (output_ring_left x) (output_ring_right x) (ring_write_pos x)
    (ring_read_pos x) (ring_size x) (total_latency_samples x)
    (total_latency_ms x) (lame_encoder_delay x) (lame_decoder_delay x)
    (buffer_latency_samples x) (decode_delay_compensation x)
    (analysis_outlet x) (status_outlet x).

Definition set_bypass (v : Z) (x : t_mp3codec) : t_mp3codec :=
  mk_mp3codec (gfp x) (hip x) (quality x) (input_gain x) (output_gain x) v
    (enable_lowpass x) (enable_highpass x) (enable_ms_stereo x)
    (enable_ath_only x) (enable_experimental x) (enable_emphasis x)
    (sample_rate x) (channels x) (initialized x) (encode_buffer_left x)
    (encode_buffer_right x) (encode_buffer_fill x) (mp3_accumulator x)
    (mp3_accumulator_fill x) (decode_pcm_left x) (decode_pcm_right x)
    (output_ring_left x) (output_ring_right x) (ring_write_pos x)
    (ring_read_pos x) (ring_size x) (total_latency_samples x)
    (total_latency_ms x) (lame_encoder_delay x) (lame_decoder_delay x)
    (buffer_latency_samples x) (decode_delay_compensation x)
    (analysis_outlet x) (status_outlet x).

Definition set_enable_lowpass (v : Z) (x : t_mp3codec) : t_mp3codec :=
  mk_mp3codec (gfp x) (hip x) (quality x) (input_gain x) (output_gain x)
    (bypass x) v (enable_highpass x) (enable_ms_stereo x) (enable_ath_only
    x) (enable_experimental x) (enable_emphasis x) (sample_rate x) (channels
    x) (initialized x) (encode_buffer_left x) (encode_buffer_right x)
    (encode_buffer_fill x) (mp3_accumulator x) (mp3_accumulator_fill x)
    (decode_pcm_left x) (decode_pcm_right x) (output_ring_left x)
    (output_ring_right x) (ring_write_pos x) (ring_read_pos x) (ring_size x)
    (total_latency_samples x) (total_latency_ms x) (lame_encoder_delay x)
    (lame_decoder_delay x) (buffer_latency_samples x)
    (decode_delay_compensation x) (analysis_outlet x) (status_outlet x).

Definition set_enable_highpass (v : Z) (x : t_mp3codec) : t_mp3codec :=
  mk_mp3codec (gfp x) (hip x) (quality x) (input_gain x) (output_gain x)
    (bypass x) (enable_lowpass x) v (enable_ms_stereo x) (enable_ath_only x)
    (enable_experimental x) (enable_emphasis x) (sample_rate x) (channels x)
    (initialized x) (encode_buffer_left x) (encode_buffer_right x)
    (encode_buffer_fill x) (mp3_accumulator x) (mp3_accumulator_fill x)
    (decode_pcm_left x) (decode_pcm_right x) (output_ring_left x)
    (output_ring_right x) (ring_write_pos x) (ring_read_pos x) (ring_size x)
    (total_latency_samples x) (total_latency_ms x) (lame_encoder_delay x)
    (lame_decoder_delay x) (buffer_latency_samples x)
    (decode_delay_compensation x) (analysis_outlet x) (status_outlet x).

Definition set_enable_ms_stereo (v : Z) (x : t_mp3codec) : t_mp3codec :=
  mk_mp3codec (gfp x) (hip x) (quality x) (input_gain x) (output_gain x)
    (bypass x) (enable_lowpass x) (enable_highpass x) v (enable_ath_only x)
    (enable_experimental x) (enable_emphasis x) (sample_rate x) (channels x)
    (initialized x) (encode_buffer_left x) (encode_buffer_right x)
    (encode_buffer_fill x) (mp3_accumulator x) (mp3_accumulator_fill x)
    (decode_pcm_left x) (decode_pcm_right x) (output_ring_left x)
    (output_ring_right x) (ring_write_pos x) (ring_read_pos x) (ring_size x)
    (total_latency_samples x) (total_latency_ms x) (lame_encoder_delay x)
    (lame_decoder_delay x) (buffer_latency_samples x)
    (decode_delay_compensation x) (analysis_outlet x) (status_outlet x).

Definition set_enable_ath_only (v : Z) (x : t_mp3codec) : t_mp3codec :=
  mk_mp3codec (gfp x) (hip x) (quality x) (input_gain x) (output_gain x)
    (bypass x) (enable_lowpass x) (enable_highpass x) (enable_ms_stereo x) v
    (enable_experimental x) (enable_emphasis x) (sample_rate x) (channels x)
    (initialized x) (encode_buffer_left x) (encode_buffer_right x)
    (encode_buffer_fill x) (mp3_accumulator x) (mp3_accumulator_fill x)
    (decode_pcm_left x) (decode_pcm_right x) (output_ring_left x)
    (output_ring_right x) (ring_write_pos x) (ring_read_pos x) (ring_size x)
    (total_latency_samples x) (total_latency_ms x) (lame_encoder_delay x)
    (lame_decoder_delay x) (buffer_latency_samples x)
    (decode_delay_compensation x) (analysis_outlet x) (status_outlet x).

Definition set_enable_experimental (v : Z) (x : t_mp3codec) : t_mp3codec :=
  mk_mp3codec (gfp x) (hip x) (quality x) (input_gain x) (output_gain x)
    (bypass x) (enable_lowpass x) (enable_highpass x) (enable_ms_stereo x)
    (enable_ath_only x) v (enable_emphasis x) (sample_rate x) (channels x)
    (initialized x) (encode_buffer_left x) (encode_buffer_right x)
    (encode_buffer_fill x) (mp3_accumulator x) (mp3_accumulator_fill x)
    (decode_pcm_left x) (decode_pcm_right x) (output_ring_left x)
    (output_ring_right x) (ring_write_pos x) (ring_read_pos x) (ring_size x)
    (total_latency_samples x) (total_latency_ms x) (lame_encoder_delay x)
    (lame_decoder_delay x) (buffer_latency_samples x)
    (decode_delay_compensation x) (analysis_outlet x) (status_outlet x).

Definition set_enable_emphasis (v : Z) (x : t_mp3codec) : t_mp3codec :=
  mk_mp3codec (gfp x) (hip x) (quality x) (input_gain x) (output_gain x)
    (bypass x) (enable_lowpass x) (enable_highpass x) (enable_ms_stereo x)
    (enable_ath_only x) (enable_experimental x) v (sample_rate x) (channels
    x) (initialized x) (encode_buffer_left x) (encode_buffer_right x)
    (encode_buffer_fill x) (mp3_accumulator x) (mp3_accumulator_fill x)
    (decode_pcm_left x) (decode_pcm_right x) (output_ring_left x)
    (output_ring_right x) (ring_write_pos x) (ring_read_pos x) (ring_size x)
    (total_latency_samples x) (total_latency_ms x) (lame_encoder_delay x)
    (lame_decoder_delay x) (buffer_latency_samples x)
    (decode_delay_compensation x) (analysis_outlet x) (status_outlet x).

Definition set_sample_rate (v : Z) (x : t_mp3codec) : t_mp3codec :=
  mk_mp3codec (gfp x) (hip x) (quality x) (input_gain x) (output_gain x)
    (bypass x) (enable_lowpass x) (enable_highpass x) (enable_ms_stereo x)
    (enable_ath_only x) (enable_experimental x) (enable_emphasis x) v
    (channels x) (initialized x) (encode_buffer_left x) (encode_buffer_right
    x) (encode_buffer_fill x) (mp3_accumulator x) (mp3_accumulator_fill x)
    (decode_pcm_left x) (decode_pcm_right x) (output_ring_left x)
    (output_ring_right x) (ring_write_pos x) (ring_read_pos x) (ring_size x)
    (total_latency_samples x) (total_latency_ms x) (lame_encoder_delay x)
    (lame_decoder_delay x) (buffer_latency_samples x)
    (decode_delay_compensation x) (analysis_outlet x) (status_outlet x).

Definition set_channels (v : Z) (x : t_mp3codec) : t_mp3codec :=
  mk_mp3codec (gfp x) (hip x) (quality x) (input_gain x) (output_gain x)
    (bypass x) (enable_lowpass x) (enable_highpass x) (enable_ms_stereo x)
    (enable_ath_only x) (enable_experimental x) (enable_emphasis x)
    (sample_rate x) v (initialized x) (encode_buffer_left x)
    (encode_buffer_right x) (encode_buffer_fill x) (mp3_accumulator x)
    (mp3_accumulator_fill x) (decode_pcm_left x) (decode_pcm_right x)
    (output_ring_left x) (output_ring_right x) (ring_write_pos x)
    (ring_read_pos x) (ring_size x) (total_latency_samples x)
    (total_latency_ms x) (lame_encoder_delay x) (lame_decoder_delay x)
    (buffer_latency_samples x) (decode_delay_compensation x)
    (analysis_outlet x) (status_outlet x).

Definition set_initialized (v : Z) (x : t_mp3codec) : t_mp3codec :=
  mk_mp3codec (gfp x) (hip x) (quality x) (input_gain x) (output_gain x)
    (bypass x) (enable_lowpass x) (enable_highpass x) (enable_ms_stereo x)
    (enable_ath_only x) (enable_experimental x) (enable_emphasis x)
    (sample_rate x) (channels x) v (encode_buffer_left x)
    (encode_buffer_right x) (encode_buffer_fill x) (mp3_accumulator x)
    (mp3_accumulator_fill x) (decode_pcm_left x) (decode_pcm_right x)
    (output_ring_left x) (output_ring_right x) (ring_write_pos x)
    (ring_read_pos x) (ring_size x) (total_latency_samples x)
    (total_latency_ms x) (lame_encoder_delay x) (lame_decoder_delay x)
    (buffer_latency_samples x) (decode_delay_compensation x)
    (analysis_outlet x) (status_outlet x).

Definition set_encode_buffer_left (v : option (list float)) (x : t_mp3codec) : t_mp3codec :=
  mk_mp3codec (gfp x) (hip x) (quality x) (input_gain x) (output_gain x)
    (bypass x) (enable_lowpass x) (enable_highpass x) (enable_ms_stereo x)
    (enable_ath_only x) (enable_experimental x) (enable_emphasis x)
    (sample_rate x) (channels x) (initialized x) v (encode_buffer_right x)
    (encode_buffer_fill x) (mp3_accumulator x) (mp3_accumulator_fill x)
    (decode_pcm_left x) (decode_pcm_right x) (output_ring_left x)
    (output_ring_right x) (ring_write_pos x) (ring_read_pos x) (ring_size x)
    (total_latency_samples x) (total_latency_ms x) (lame_encoder_delay x)
    (lame_decoder_delay x) (buffer_latency_samples x)
    (decode_delay_compensation x) (analysis_outlet x) (status_outlet x).

Definition set_encode_buffer_right (v : option (list float)) (x : t_mp3codec) : t_mp3codec :=
  mk_mp3codec (gfp x) (hip x) (quality x) (input_gain x) (output_gain x)
    (bypass x) (enable_lowpass x) (enable_highpass x) (enable_ms_stereo x)
    (enable_ath_only x) (enable_experimental x) (enable_emphasis x)
    (sample_rate x) (channels x) (initialized x) (encode_buffer_left x) v
    (encode_buffer_fill x) (mp3_accumulator x) (mp3_accumulator_fill x)
    (decode_pcm_left x) (decode_pcm_right x) (output_ring_left x)
    (output_ring_right x) (ring_write_pos x) (ring_read_pos x) (ring_size x)
    (total_latency_samples x) (total_latency_ms x) (lame_encoder_delay x)
    (lame_decoder_delay x) (buffer_latency_samples x)
    (decode_delay_compensation x) (analysis_outlet x) (status_outlet x).

Definition set_encode_buffer_fill (v : Z) (x : t_mp3codec) : t_mp3codec :=
  mk_mp3codec (gfp x) (hip x) (quality x) (input_gain x) (output_gain x)
    (bypass x) (enable_lowpass x) (enable_highpass x) (enable_ms_stereo x)
    (enable_ath_only x) (enable_experimental x) (enable_emphasis x)
    (sample_rate x) (channels x) (initialized x) (encode_buffer_left x)
    (encode_buffer_right x) v (mp3_accumulator x) (mp3_accumulator_fill x)
    (decode_pcm_left x) (decode_pcm_right x) (output_ring_left x)
    (output_ring_right x) (ring_write_pos x) (ring_read_pos x) (ring_size x)
    (total_latency_samples x) (total_latency_ms x) (lame_encoder_delay x)
    (lame_decoder_delay x) (buffer_latency_samples x)
    (decode_delay_compensation x) (analysis_outlet x) (status_outlet x).

Definition set_mp3_accumulator (v : option (list byte)) (x : t_mp3codec) : t_mp3codec :=
  mk_mp3codec (gfp x) (hip x) (quality x) (input_gain x) (output_gain x)
    (bypass x) (enable_lowpass x) (enable_highpass x) (enable_ms_stereo x)
    (enable_ath_only x) (enable_experimental x) (enable_emphasis x)
    (sample_rate x) (channels x) (initialized x) (encode_buffer_left x)
    (encode_buffer_right x) (encode_buffer_fill x) v (mp3_accumulator_fill
    x) (decode_pcm_left x) (decode_pcm_right x) (output_ring_left x)
    (output_ring_right x) (ring_write_pos x) (ring_read_pos x) (ring_size x)
    (total_latency_samples x) (total_latency_ms x) (lame_encoder_delay x)
    (lame_decoder_delay x) (buffer_latency_samples x)
    (decode_delay_compensation x) (analysis_outlet x) (status_outlet x).

Definition set_mp3_accumulator_fill (v : Z) (x : t_mp3codec) : t_mp3codec :=
  mk_mp3codec (gfp x) (hip x) (quality x) (input_gain x) (output_gain x)
    (bypass x) (enable_lowpass x) (enable_highpass x) (enable_ms_stereo x)
    (enable_ath_only x) (enable_experimental x) (enable_emphasis x)
    (sample_rate x) (channels x) (initialized x) (encode_buffer_left x)
    (encode_buffer_right x) (encode_buffer_fill x) (mp3_accumulator x) v
    (decode_pcm_left x) (decode_pcm_right x) (output_ring_left x)
    (output_ring_right x) (ring_write_pos x) (ring_read_pos x) (ring_size x)
    (total_latency_samples x) (total_latency_ms x) (lame_encoder_delay x)
    (lame_decoder_delay x) (buffer_latency_samples x)
    (decode_delay_compensation x) (analysis_outlet x) (status_outlet x).

Definition set_decode_pcm_left (v : option (list short)) (x : t_mp3codec) : t_mp3codec :=
  mk_mp3codec (gfp x) (hip x) (quality x) (input_gain x) (output_gain x)
    (bypass x) (enable_lowpass x) (enable_highpass x) (enable_ms_stereo x)
    (enable_ath_only x) (enable_experimental x) (enable_emphasis x)
    (sample_rate x) (channels x) (initialized x) (encode_buffer_left x)
    (encode_buffer_right x) (encode_buffer_fill x) (mp3_accumulator x)
    (mp3_accumulator_fill x) v (decode_pcm_right x) (output_ring_left x)
    (output_ring_right x) (ring_write_pos x) (ring_read_pos x) (ring_size x)
    (total_latency_samples x) (total_latency_ms x) (lame_encoder_delay x)
    (lame_decoder_delay x) (buffer_latency_samples x)
    (decode_delay_compensation x) (analysis_outlet x) (status_outlet x).

Definition set_decode_pcm_right (v : option (list short)) (x : t_mp3codec) : t_mp3codec :=
  mk_mp3codec (gfp x) (hip x) (quality x) (input_gain x) (output_gain x)
    (bypass x) (enable_lowpass x) (enable_highpass x) (enable_ms_stereo x)
    (enable_ath_only x) (enable_experimental x) (enable_emphasis x)
    (sample_rate x) (channels x) (initialized x) (encode_buffer_left x)
    (encode_buffer_right x) (encode_buffer_fill x) (mp3_accumulator x)
    (mp3_accumulator_fill x) (decode_pcm_left x) v (output_ring_left x)
    (output_ring_right x) (ring_write_pos x) (ring_read_pos x) (ring_size x)
    (total_latency_samples x) (total_latency_ms x) (lame_encoder_delay x)
    (lame_decoder_delay x) (buffer_latency_samples x)
    (decode_delay_compensation x) (analysis_outlet x) (status_outlet x).

Definition set_output_ring_left (v : option (list float)) (x : t_mp3codec) : t_mp3codec :=
  mk_mp3codec (gfp x) (hip x) (quality x) (input_gain x) (output_gain x)
    (bypass x) (enable_lowpass x) (enable_highpass x) (enable_ms_stereo x)
    (enable_ath_only x) (enable_experimental x) (enable_emphasis x)
    (sample_rate x) (channels x) (initialized x) (encode_buffer_left x)
    (encode_buffer_right x) (encode_buffer_fill x) (mp3_accumulator x)
    (mp3_accumulator_fill x) (decode_pcm_left x) (decode_pcm_right x) v
    (output_ring_right x) (ring_write_pos x) (ring_read_pos x) (ring_size x)
    (total_latency_samples x) (total_latency_ms x) (lame_encoder_delay x)
    (lame_decoder_delay x) (buffer_latency_samples x)
    (decode_delay_compensation x) (analysis_outlet x) (status_outlet x).

Definition set_output_ring_right (v : option (list float)) (x : t_mp3codec) : t_mp3codec :=
  mk_mp3codec (gfp x) (hip x) (quality x) (input_gain x) (output_gain x)
    (bypass x) (enable_lowpass x) (enable_highpass x) (enable_ms_stereo x)
    (enable_ath_only x) (enable_experimental x) (enable_emphasis x)
    (sample_rate x) (channels x) (initialized x) (encode_buffer_left x)
    (encode_buffer_right x) (encode_buffer_fill x) (mp3_accumulator x)
    (mp3_accumulator_fill x) (decode_pcm_left x) (decode_pcm_right x)
    (output_ring_left x) v (ring_write_pos x) (ring_read_pos x) (ring_size
    x) (total_latency_samples x) (total_latency_ms x) (lame_encoder_delay x)
    (lame_decoder_delay x) (buffer_latency_samples x)
    (decode_delay_compensation x) (analysis_outlet x) (status_outlet x).

Definition set_ring_write_pos (v : Z) (x : t_mp3codec) : t_mp3codec :=
  mk_mp3codec (gfp x) (hip x) (quality x) (input_gain x) (output_gain x)
    (bypass x) (enable_lowpass x) (enable_highpass x) (enable_ms_stereo x)
    (enable_ath_only x) (enable_experimental x) (enable_emphasis x)
    (sample_rate x) (channels x) (initialized x) (encode_buffer_left x)
    (encode_buffer_right x) (encode_buffer_fill x) (mp3_accumulator x)
    (mp3_accumulator_fill x) (decode_pcm_left x) (decode_pcm_right x)
    (output_ring_left x) (output_ring_right x) v (ring_read_pos x)
    (ring_size x) (total_latency_samples x) (total_latency_ms x)
    (lame_encoder_delay x) (lame_decoder_delay x) (buffer_latency_samples x)
    (decode_delay_compensation x) (analysis_outlet x) (status_outlet x).

Definition set_ring_read_pos (v : Z) (x : t_mp3codec) : t_mp3codec :=
  mk_mp3codec (gfp x) (hip x) (quality x) (input_gain x) (output_gain x)
    (bypass x) (enable_lowpass x) (enable_highpass x) (enable_ms_stereo x)
    (enable_ath_only x) (enable_experimental x) (enable_emphasis x)
    (sample_rate x) (channels x) (initialized x) (encode_buffer_left x)
    (encode_buffer_right x) (encode_buffer_fill x) (mp3_accumulator x)
    (mp3_accumulator_fill x) (decode_pcm_left x) (decode_pcm_right x)
    (output_ring_left x) (output_ring_right x) (ring_write_pos x) v
    (ring_size x) (total_latency_samples x) (total_latency_ms x)
    (lame_encoder_delay x) (lame_decoder_delay x) (buffer_latency_samples x)
    (decode_delay_compensation x) (analysis_outlet x) (status_outlet x).

Definition set_ring_size (v : Z) (x : t_mp3codec) : t_mp3codec :=
  mk_mp3codec (gfp x) (hip x) (quality x) (input_gain x) (output_gain x)
    (bypass x) (enable_lowpass x) (enable_highpass x) (enable_ms_stereo x)
    (enable_ath_only x) (enable_experimental x) (enable_emphasis x)
    (sample_rate x) (channels x) (initialized x) (encode_buffer_left x)
    (encode_buffer_right x) (encode_buffer_fill x) (mp3_accumulator x)
    (mp3_accumulator_fill x) (decode_pcm_left x) (decode_pcm_right x)
    (output_ring_left x) (output_ring_right x) (ring_write_pos x)
    (ring_read_pos x) v (total_latency_samples x) (total_latency_ms x)
    (lame_encoder_delay x) (lame_decoder_delay x) (buffer_latency_samples x)
    (decode_delay_compensation x) (analysis_outlet x) (status_outlet x).

Definition set_total_latency_samples (v : Z) (x : t_mp3codec) : t_mp3codec :=
  mk_mp3codec (gfp x) (hip x) (quality x) (input_gain x) (output_gain x)
    (bypass x) (enable_lowpass x) (enable_highpass x) (enable_ms_stereo x)
    (enable_ath_only x) (enable_experimental x) (enable_emphasis x)
    (sample_rate x) (channels x) (initialized x) (encode_buffer_left x)
    (encode_buffer_right x) (encode_buffer_fill x) (mp3_accumulator x)
    (mp3_accumulator_fill x) (decode_pcm_left x) (decode_pcm_right x)
    (output_ring_left x) (output_ring_right x) (ring_write_pos x)
    (ring_read_pos x) (ring_size x) v (total_latency_ms x)
    (lame_encoder_delay x) (lame_decoder_delay x) (buffer_latency_samples x)
    (decode_delay_compensation x) (analysis_outlet x) (status_outlet x).

Definition set_total_latency_ms (v : double) (x : t_mp3codec) : t_mp3codec :=
  mk_mp3codec (gfp x) (hip x) (quality x) (input_gain x) (output_gain x)
    (bypass x) (enable_lowpass x) (enable_highpass x) (enable_ms_stereo x)
    (enable_ath_only x) (enable_experimental x) (enable_emphasis x)
    (sample_rate x) (channels x) (initialized x) (encode_buffer_left x)
    (encode_buffer_right x) (encode_buffer_fill x) (mp3_accumulator x)
    (mp3_accumulator_fill x) (decode_pcm_left x) (decode_pcm_right x)
    (output_ring_left x) (output_ring_right x) (ring_write_pos x)
    (ring_read_pos x) (ring_size x) (total_latency_samples x) v
    (lame_encoder_delay x) (lame_decoder_delay x) (buffer_latency_samples x)
    (decode_delay_compensation x) (analysis_outlet x) (status_outlet x).

Definition set_lame_encoder_delay (v : Z) (x : t_mp3codec) : t_mp3codec :=
  mk_mp3codec (gfp x) (hip x) (quality x) (input_gain x) (output_gain x)
    (bypass x) (enable_lowpass x) (enable_highpass x) (enable_ms_stereo x)
    (enable_ath_only x) (enable_experimental x) (enable_emphasis x)
    (sample_rate x) (channels x) (initialized x) (encode_buffer_left x)
    (encode_buffer_right x) (encode_buffer_fill x) (mp3_accumulator x)
    (mp3_accumulator_fill x) (decode_pcm_left x) (decode_pcm_right x)
    (output_ring_left x) (output_ring_right x) (ring_write_pos x)
    (ring_read_pos x) (ring_size x) (total_latency_samples x)
    (total_latency_ms x) v (lame_decoder_delay x) (buffer_latency_samples x)
    (decode_delay_compensation x) (analysis_outlet x) (status_outlet x).

Definition set_lame_decoder_delay (v : Z) (x : t_mp3codec) : t_mp3codec :=
  mk_mp3codec (gfp x) (hip x) (quality x) (input_gain x) (output_gain x)
    (bypass x) (enable_lowpass x) (enable_highpass x) (enable_ms_stereo x)
    (enable_ath_only x) (enable_experimental x) (enable_emphasis x)
    (sample_rate x) (channels x) (initialized x) (encode_buffer_left x)
    (encode_buffer_right x) (encode_buffer_fill x) (mp3_accumulator x)
    (mp3_accumulator_fill x) (decode_pcm_left x) (decode_pcm_right x)
    (output_ring_left x) (output_ring_right x) (ring_write_pos x)
    (ring_read_pos x) (ring_size x) (total_latency_samples x)
    (total_latency_ms x) (lame_encoder_delay x) v (buffer_latency_samples x)
    (decode_delay_compensation x) (analysis_outlet x) (status_outlet x).

Definition set_buffer_latency_samples (v : Z) (x : t_mp3codec) : t_mp3codec :=
  mk_mp3codec (gfp x) (hip x) (quality x) (input_gain x) (output_gain x)
    (bypass x) (enable_lowpass x) (enable_highpass x) (enable_ms_stereo x)
    (enable_ath_only x) (enable_experimental x) (enable_emphasis x)
    (sample_rate x) (channels x) (initialized x) (encode_buffer_left x)
    (encode_buffer_right x) (encode_buffer_fill x) (mp3_accumulator x)
    (mp3_accumulator_fill x) (decode_pcm_left x) (decode_pcm_right x)
    (output_ring_left x) (output_ring_right x) (ring_write_pos x)
    (ring_read_pos x) (ring_size x) (total_latency_samples x)
    (total_latency_ms x) (lame_encoder_delay x) (lame_decoder_delay x) v
    (decode_delay_compensation x) (analysis_outlet x) (status_outlet x).

Definition set_decode_delay_compensation (v : Z) (x : t_mp3codec) : t_mp3codec :=
  mk_mp3codec (gfp x) (hip x) (quality x) (input_gain x) (output_gain x)
    (bypass x) (enable_lowpass x) (enable_highpass x) (enable_ms_stereo x)
    (enable_ath_only x) (enable_experimental x) (enable_emphasis x)
    (sample_rate x) (channels x) (initialized x) (encode_buffer_left x)
    (encode_buffer_right x) (encode_buffer_fill x) (mp3_accumulator x)
    (mp3_accumulator_fill x) (decode_pcm_left x) (decode_pcm_right x)
    (output_ring_left x) (output_ring_right x) (ring_write_pos x)
    (ring_read_pos x) (ring_size x) (total_latency_samples x)
    (total_latency_ms x) (lame_encoder_delay x) (lame_decoder_delay x)
    (buffer_latency_samples x) v (analysis_outlet x) (status_outlet x).

Definition set_analysis_outlet (v : option outlet) (x : t_mp3codec) : t_mp3codec :=
  mk_mp3codec (gfp x) (hip x) (quality x) (input_gain x) (output_gain x)
    (bypass x) (enable_lowpass x) (enable_highpass x) (enable_ms_stereo x)
    (enable_ath_only x) (enable_experimental x) (enable_emphasis x)
    (sample_rate x) (channels x) (initialized x) (encode_buffer_left x)
    (encode_buffer_right x) (encode_buffer_fill x) (mp3_accumulator x)
    (mp3_accumulator_fill x) (decode_pcm_left x) (decode_pcm_right x)
    (output_ring_left x) (output_ring_right x) (ring_write_pos x)
    (ring_read_pos x) (ring_size x) (total_latency_samples x)
    (total_latency_ms x) (lame_encoder_delay x) (lame_decoder_delay x)
    (buffer_latency_samples x) (decode_delay_compensation x) v
    (status_outlet x).

Definition set_status_outlet (v : option outlet) (x : t_mp3codec) : t_mp3codec :=
  mk_mp3codec (gfp x) (hip x) (quality x) (input_gain x) (output_gain x)
    (bypass x) (enable_lowpass x) (enable_highpass x) (enable_ms_stereo x)
    (enable_ath_only x) (enable_experimental x) (enable_emphasis x)
    (sample_rate x) (channels x) (initialized x) (encode_buffer_left x)
    (encode_buffer_right x) (encode_buffer_fill x) (mp3_accumulator x)
    (mp3_accumulator_fill x) (decode_pcm_left x) (decode_pcm_right x)
    (output_ring_left x) (output_ring_right x) (ring_write_pos x)
    (ring_read_pos x) (ring_size x) (total_latency_samples x)
    (total_latency_ms x) (lame_encoder_delay x) (lame_decoder_delay x)
    (buffer_latency_samples x) (decode_delay_compensation x)
    (analysis_outlet x) v.

(** Reduce the projections of updated objects, and nothing else. *)
Ltac fields :=
  cbn [
    gfp hip quality input_gain output_gain bypass enable_lowpass
    enable_highpass enable_ms_stereo enable_ath_only enable_experimental
    enable_emphasis sample_rate channels initialized encode_buffer_left
    encode_buffer_right encode_buffer_fill mp3_accumulator
    mp3_accumulator_fill decode_pcm_left decode_pcm_right output_ring_left
    output_ring_right ring_write_pos ring_read_pos ring_size
    total_latency_samples total_latency_ms lame_encoder_delay
    lame_decoder_delay buffer_latency_samples decode_delay_compensation
    analysis_outlet status_outlet set_gfp set_hip set_quality
    set_input_gain set_output_gain set_bypass set_enable_lowpass
    set_enable_highpass set_enable_ms_stereo set_enable_ath_only
    set_enable_experimental set_enable_emphasis set_sample_rate
    set_channels set_initialized set_encode_buffer_left
    set_encode_buffer_right set_encode_buffer_fill set_mp3_accumulator
    set_mp3_accumulator_fill set_decode_pcm_left set_decode_pcm_right
    set_output_ring_left set_output_ring_right set_ring_write_pos
    set_ring_read_pos set_ring_size set_total_latency_samples
    set_total_latency_ms set_lame_encoder_delay set_lame_decoder_delay
    set_buffer_latency_samples set_decode_delay_compensation
    set_analysis_outlet set_status_outlet ].
Ltac fields_in H :=
  cbn [
    gfp hip quality input_gain output_gain bypass enable_lowpass
    enable_highpass enable_ms_stereo enable_ath_only enable_experimental
    enable_emphasis sample_rate channels initialized encode_buffer_left
    encode_buffer_right encode_buffer_fill mp3_accumulator
    mp3_accumulator_fill decode_pcm_left decode_pcm_right output_ring_left
    output_ring_right ring_write_pos ring_read_pos ring_size
    total_latency_samples total_latency_ms lame_encoder_delay
    lame_decoder_delay buffer_latency_samples decode_delay_compensation
    analysis_outlet status_outlet set_gfp set_hip set_quality
    set_input_gain set_output_gain set_bypass set_enable_lowpass
    set_enable_highpass set_enable_ms_stereo set_enable_ath_only
    set_enable_experimental set_enable_emphasis set_sample_rate
    set_channels set_initialized set_encode_buffer_left
    set_encode_buffer_right set_encode_buffer_fill set_mp3_accumulator
    set_mp3_accumulator_fill set_decode_pcm_left set_decode_pcm_right
    set_output_ring_left set_output_ring_right set_ring_write_pos
    set_ring_read_pos set_ring_size set_total_latency_samples
    set_total_latency_ms set_lame_encoder_delay set_lame_decoder_delay
    set_buffer_latency_samples set_decode_delay_compensation
    set_analysis_outlet set_status_outlet ] in H.

(** ** Outcomes, arrays and loops *)

(** How a run of the real-time routine ends. *)
Inductive outcome (A : Type) : Type :=
  | Returns (a : A)
  | Crashes        (** a NULL buffer pointer was dereferenced *)
  | OutOfFuel.     (** the model's iteration budget was too small *)
Arguments Returns {A} a.
Arguments Crashes {A}.
Arguments OutOfFuel {A}.

#[global] Instance outcome_ret : MRet outcome := @Returns.
#[global] Instance outcome_bind : MBind outcome := fun A B k c =>
  match c with
  | Returns a => k a
  | Crashes => Crashes
  | OutOfFuel => OutOfFuel
  end.

(** [*p] for a buffer pointer [p]. *)
Definition deref {A : Type} (p : option (list A)) : outcome (list A) :=
  match p with
  | Some a => Returns a
  | None => Crashes
  end.

(** [a[i]] and [a[i] = v]. *)
Definition array_get {A : Type} (a : list A) (i : Z) (d : A) : A :=
  if i <? 0 then d else nth (Z.to_nat i) a d.
Definition array_set {A : Type} (a : list A) (i : Z) (v : A) : list A :=
  if i <? 0 then a else <[Z.to_nat i := v]> a.

(** [for (i = lo; i < hi; i++) s = body(i, s);] *)
Fixpoint for_loop_from {S : Type} (n : nat) (i : Z) (body : Z -> S -> S) (s : S) : S :=
  match n with
  | O => s
  | Datatypes.S n' => for_loop_from n' (i + 1) body (body i s)
  end.
Definition for_loop {S : Type} (lo hi : Z) (body : Z -> S -> S) (s : S) : S :=
  for_loop_from (Z.to_nat (hi - lo)) lo body s.

(** [memcpy(dst + off, src, n)] *)
Definition memcpy (dst : list byte) (off : Z) (src : list byte) (n : Z) : list byte :=
  for_loop 0 n (fun i d => array_set d (off + i) (array_get src i x00)) dst.

(** The two silence loops (lines 463-466 and 495-498). *)
Definition write_silence (outs0 outs1 : list double) (sampleframes : Z)
  : list double * list double :=
  for_loop 0 sampleframes
    (fun i o => (array_set (fst o) i dzero, array_set (snd o) i dzero))
    (outs0, outs1).

(** [(n != 0)] as a C [int]. *)
Definition c_bool (b : bool) : Z := if b then 1 else 0.
Definition nonzero (n : Z) : bool := negb (n =? 0).

(** [sysmem_newptrclear(n * sizeof(T))]: [n] zeroed elements. *)
Definition sysmem_newptrclear {A : Type} (zero : A) (n : Z) : option (list A) :=
  Some (replicate (Z.to_nat n) zero).

Section Processor.
Context {lame : Engine}.

(** ** Set-up and tear-down *)

(** [void mp3codec_cleanup_processor(t_mp3codec *x)].  Each
    [if (p) { release(p); p = NULL; }] leaves [p] NULL whatever it was; only
    the two LAME releases are visible outside. *)
Definition mp3codec_cleanup_processor (x : t_mp3codec) (h : history)
  : t_mp3codec * history :=
  let x := set_initialized 0 x in
  let h := match gfp x with Some _ => Ev_lame_close :: h | None => h end in
  let x := set_gfp None x in
  let h := match hip x with Some _ => Ev_hip_decode_exit :: h | None => h end in
  let x := set_hip None x in
  let x := set_encode_buffer_left None x in
  let x := set_encode_buffer_right None x in
  let x := set_mp3_accumulator None x in
  let x := set_decode_pcm_left None x in
  let x := set_decode_pcm_right None x in
  let x := set_output_ring_left None x in
  let x := set_output_ring_right None x in
  let x := set_encode_buffer_fill 0 x in
  let x := set_mp3_accumulator_fill 0 x in
  let x := set_ring_write_pos 0 x in
  let x := set_ring_read_pos 0 x in
  (x, h).

(** The low-pass cut-off chosen for a bitrate (lines 290-296). *)
Definition lowpass_for (kbps : Z) : Z :=
  if kbps <=? 32 then 4000 else if kbps <=? 64 then 6000 else 8000.

(** Lines 243-308 of [mp3codec_init_processor]: the settings applied to the
    encoder that [lame_init] returned, with the console lines they print. *)
Definition configure_encoder (x : t_mp3codec) (h : history)
  : lame_global_flags * history :=
  let g : lame_global_flags := [] in
  let g := lame_set num_channels (channels x) g in
  let g := lame_set in_samplerate (sample_rate x) g in
  let g := lame_set out_samplerate (sample_rate x) g in
  let g := lame_set VBR vbr_off g in
  let g := lame_set brate (QUALITY_BITRATES (quality x)) g in
  let g := lame_set lame_quality (quality x) g in
  let g :=
    if QUALITY_BITRATES (quality x) <=? 128
    then lame_set mode JOINT_STEREO g
    else lame_set mode (if channels x =? 2 then STEREO else MONO) g in
  let g := if nonzero (enable_ms_stereo x) then lame_set force_ms 1 g else g in
  let h := post_if (nonzero (enable_ms_stereo x))
             "mp3codec~: Enabled forced mid/side stereo" h in
  let g :=
    if nonzero (enable_ath_only x)
    then lame_set no_short_blocks 0 (lame_set ATHshort 1 (lame_set ATHonly 1 g))
    else g in
  let h := post_if (nonzero (enable_ath_only x))
             "mp3codec~: Enabled ATH-only psychoacoustic model" h in
  let g := if nonzero (enable_emphasis x) then lame_set emphasis 1 g else g in
  let h := post_if (nonzero (enable_emphasis x))
             "mp3codec~: Enabled pre-emphasis" h in
  let g :=
    if nonzero (enable_experimental x)
    then lame_set experimentalY 1 (lame_set experimentalX 9 g)
    else g in
  let h := post_if (nonzero (enable_experimental x))
             "mp3codec~: Enabled experimental compression modes" h in
  let g :=
    if nonzero (enable_lowpass x)
    then lame_set lowpassfreq (lowpass_for (QUALITY_BITRATES (quality x))) g
    else g in
  let h := post_if (nonzero (enable_lowpass x))
             "mp3codec~: Enabled low-pass filter (%d Hz)" h in
  let g := if nonzero (enable_highpass x) then lame_set highpassfreq 100 g else g in
  let h := post_if (nonzero (enable_highpass x))
             "mp3codec~: Enabled high-pass filter (100 Hz)" h in
  let g := lame_set disable_reservoir 1 g in
  (g, h).

(** Lines 333-382 of [mp3codec_init_processor]: what follows once
    [lame_init_params] has accepted the settings [g]. *)
Definition finish_init (x : t_mp3codec) (g : lame_global_flags) (h : history)
  : Z * t_mp3codec * history :=
  let h := post "mp3codec~: LAME configured - Quality: %d, Bitrate: %d, Mode: %d, Channels: %d" h in
  let ok := hip_decode_init h in
  let h := Ev_hip_decode_init ok :: h in
  if negb ok then
    let h := error "mp3codec~: Failed to initialize LAME hip decoder" h in
    let h := Ev_lame_close :: h in
    (-1, set_gfp None x, h)
  else
    let x := set_hip (Some hip_decoder) x in
    let x := set_encode_buffer_left (sysmem_newptrclear fzero PCM_BUFFER_SIZE) x in
    let x := set_encode_buffer_right (sysmem_newptrclear fzero PCM_BUFFER_SIZE) x in
    let x := set_mp3_accumulator (sysmem_newptrclear x00 DECODE_BUFFER_SIZE) x in
    let x := set_decode_pcm_left (sysmem_newptrclear 0 PCM_BUFFER_SIZE) x in
    let x := set_decode_pcm_right (sysmem_newptrclear 0 PCM_BUFFER_SIZE) x in
    let x := set_ring_size (MP3_FRAME_SIZE * 4) x in
    let x := set_output_ring_left (sysmem_newptrclear fzero (ring_size x)) x in
    let x := set_output_ring_right (sysmem_newptrclear fzero (ring_size x)) x in
    let x := set_encode_buffer_fill 0 x in
    let x := set_mp3_accumulator_fill 0 x in
    let x := set_ring_write_pos 0 x in
    let x := set_ring_read_pos 0 x in
    let x := set_lame_encoder_delay (lame_get_encoder_delay h g) x in
    let x := set_lame_decoder_delay 528 x in
    let x := set_buffer_latency_samples MP3_FRAME_SIZE x in
    let x := set_total_latency_samples
               (lame_encoder_delay x + lame_decoder_delay x
                + buffer_latency_samples x) x in
    let x := set_total_latency_ms
               (dmul (ddiv (double_of_long (total_latency_samples x))
                           (double_of_long (sample_rate x)))
                     (double_of_long 1000)) x in
    let x := set_decode_delay_compensation 0 x in
    let x := set_initialized 1 x in
    let h := post "mp3codec~: MP3 processor initialized - Quality %ld (%d kbps CBR), Total latency: %.1f ms (%d samples)" h in
    (0, x, h).

(** [int mp3codec_init_processor(t_mp3codec *x)] *)
Definition mp3codec_init_processor (x : t_mp3codec) (h : history)
  : Z * t_mp3codec * history :=
  let (x, h) := mp3codec_cleanup_processor x h in
  let ok := lame_init h in
  let h := Ev_lame_init ok :: h in
  if negb ok then
    (-1, x, error "mp3codec~: Failed to initialize LAME encoder" h)
  else
    let (g, h) := configure_encoder x h in
    let x := set_gfp (Some g) x in
    let rc := lame_init_params h g in
    let h := Ev_lame_init_params g rc :: h in
    if rc <? 0 then
      if QUALITY_BITRATES (quality x) <=? 16 then
        let h := post "mp3codec~: LAME rejected %d kbps, trying 32 kbps fallback" h in
        let g := lame_set brate 32 g in
        let g := lame_set lowpassfreq 6000 g in
        let x := set_gfp (Some g) x in
        let rc := lame_init_params h g in
        let h := Ev_lame_init_params g rc :: h in
        if rc <? 0 then
          let h := error "mp3codec~: Failed to initialize LAME even with 32 kbps fallback" h in
          let h := Ev_lame_close :: h in
          (-1, set_gfp None x, h)
        else
          let h := post "mp3codec~: Successfully initialized with 32 kbps fallback" h in
          finish_init x g h
      else
        let h := error "mp3codec~: Failed to set LAME parameters for %d kbps" h in
        let h := Ev_lame_close :: h in
        (-1, set_gfp None x, h)
    else
      finish_init x g h.

(** [void *mp3codec_new(t_symbol *s, long argc, t_atom *argv)], for an
    allocation that succeeds and an argument list [argv] without attribute
    arguments ([attr_args_process] then changes nothing).  [object_alloc]
    hands out zeroed storage, which is where the fields that the function
    does not assign start from. *)
Definition mp3codec_new (argv : list t_atom) (h : history) : t_mp3codec * history :=
  let argc := Z.of_nat (length argv) in
  let arg (i : nat) := nth i argv (A_LONG 0) in
  let x :=
    mk_mp3codec None None 5 (double_of_long 1) (double_of_long 1) 0
      1 1 1 1 1 1 44100 2 0
      None None 0 None 0 None None None None 0 0 0
      0 dzero 0 0 0 0 (Some outlet_analysis) (Some outlet_status) in
  let x :=
    if argc >=? 1
    then set_quality (CLAMP (long_of_double (atom_getfloat (arg 0%nat))) 0 9) x
    else x in
  let x :=
    if argc >=? 2
    then set_input_gain
           (CLAMP_double (atom_getfloat (arg 1%nat)) dzero (double_of_long 4)) x
    else x in
  let x :=
    if argc >=? 3
    then set_output_gain
           (CLAMP_double (atom_getfloat (arg 2%nat)) dzero (double_of_long 4)) x
    else x in
  let x :=
    if argc >=? 4 then set_bypass (c_bool (nonzero (atom_getlong (arg 3%nat)))) x
    else x in
  let '(rc, x, h) := mp3codec_init_processor x h in
  let (x, h) :=
    if rc <? 0 then
      mp3codec_cleanup_processor x
        (error "mp3codec~: Failed to initialize MP3 processor" h)
    else (x, h) in
  (x, post "mp3codec~: Initialized - Quality %ld (%d kbps CBR)" h).

(** The history and the settings at the first [lame_init_params] call of
    [mp3codec_init_processor x h], when [lame_init] has returned an encoder. *)
Definition first_init_params_call (x : t_mp3codec) (h : history)
  : history * lame_global_flags :=
  let (x0, h0) := mp3codec_cleanup_processor x h in
  let (g, h1) := configure_encoder x0 (Ev_lame_init true :: h0) in
  (h1, g).

(** ** Control-plane handlers *)

(** [void mp3codec_quality(t_mp3codec *x, long n)] *)
Definition mp3codec_quality (x : t_mp3codec) (n : Z) (h : history)
  : t_mp3codec * history :=
  let x := set_initialized 0 x in
  let h := Ev_systhread_sleep 50 :: h in
  let old_quality := quality x in
  let x := set_quality (CLAMP n 0 9) x in
  if negb (old_quality =? quality x) then
    let '(rc, x, h) := mp3codec_init_processor x h in
    if rc <? 0 then
      let h := error "mp3codec~: Failed to change quality to %ld" h in
      let x := set_quality old_quality x in
      let '(rc, x, h) := mp3codec_init_processor x h in
      if rc <? 0 then
        (x, error "mp3codec~: Failed to restore previous quality - external may be unstable" h)
      else (x, h)
    else
      (x, post "mp3codec~: Quality changed to %ld (%d kbps CBR)" h)
  else
    let x := set_initialized 1 x in
    (x, post "mp3codec~: Quality unchanged at %ld (%d kbps CBR)" h).

(** [void mp3codec_bypass(t_mp3codec *x, long n)] *)
Definition mp3codec_bypass (x : t_mp3codec) (n : Z) : t_mp3codec :=
  set_bypass (c_bool (nonzero n)) x.

(** [void mp3codec_reset(t_mp3codec *x)] *)
Definition mp3codec_reset (x : t_mp3codec) (h : history) : t_mp3codec * history :=
  let x := set_initialized 0 x in
  let h := Ev_systhread_sleep 50 :: h in
  let '(rc, x, h) := mp3codec_init_processor x h in
  if rc <? 0 then
    (x, error "mp3codec~: Reset failed - processor may be unstable" h)
  else
    (x, post "mp3codec~: Processor reset successfully" h).

(** The common tail of the six toggle handlers: quiesce, sleep, rebuild; the
    result of the rebuild is not looked at. *)
Definition reinitialize (x : t_mp3codec) (h : history) : t_mp3codec * history :=
  let x := set_initialized 0 x in
  let h := Ev_systhread_sleep 50 :: h in
  let '(_, x, h) := mp3codec_init_processor x h in
  (x, h).

(** [void mp3codec_lowpass(t_mp3codec *x, long n)] *)
Definition mp3codec_lowpass (x : t_mp3codec) (n : Z) (h : history)
  : t_mp3codec * history :=
  let x := set_enable_lowpass (c_bool (nonzero n)) x in
  let h := post "mp3codec~: Low-pass filter %s" h in
  reinitialize x h.

(** [void mp3codec_highpass(t_mp3codec *x, long n)] *)
Definition mp3codec_highpass (x : t_mp3codec) (n : Z) (h : history)
  : t_mp3codec * history :=
  let x := set_enable_highpass (c_bool (nonzero n)) x in
  let h := post "mp3codec~: High-pass filter %s" h in
  reinitialize x h.

(** [void mp3codec_msstereo(t_mp3codec *x, long n)] *)
Definition mp3codec_msstereo (x : t_mp3codec) (n : Z) (h : history)
  : t_mp3codec * history :=
  let x := set_enable_ms_stereo (c_bool (nonzero n)) x in
  let h := post "mp3codec~: Forced mid/side stereo %s" h in
  reinitialize x h.

(** [void mp3codec_athonly(t_mp3codec *x, long n)] *)
Definition mp3codec_athonly (x : t_mp3codec) (n : Z) (h : history)
  : t_mp3codec * history :=
  let x := set_enable_ath_only (c_bool (nonzero n)) x in
  let h := post "mp3codec~: ATH-only psychoacoustic model %s" h in
  reinitialize x h.

(** [void mp3codec_experimental(t_mp3codec *x, long n)] *)
Definition mp3codec_experimental (x : t_mp3codec) (n : Z) (h : history)
  : t_mp3codec * history :=
  let x := set_enable_experimental (c_bool (nonzero n)) x in
  let h := post "mp3codec~: Experimental compression modes %s" h in
  reinitialize x h.

(** [void mp3codec_emphasis(t_mp3codec *x, long n)] *)
Definition mp3codec_emphasis (x : t_mp3codec) (n : Z) (h : history)
  : t_mp3codec * history :=
  let x := set_enable_emphasis (c_bool (nonzero n)) x in
  let h := post "mp3codec~: Pre-emphasis %s" h in
  reinitialize x h.

(** [void mp3codec_dsp64(...)], up to the registration of the perform
    routine with the host. *)
Definition mp3codec_dsp64 (x : t_mp3codec) (samplerate : double) (h : history)
  : t_mp3codec * history :=
  if negb (sample_rate x =? long_of_double samplerate) then
    let x := set_sample_rate (long_of_double samplerate) x in
    let '(_, x, h) := mp3codec_init_processor x h in
    (x, h)
  else (x, h).

(** [void mp3codec_latency(t_mp3codec *x)] *)
Definition mp3codec_latency (x : t_mp3codec) (h : history) : history :=
  if initialized x =? 0 then
    post "mp3codec~: Not initialized - cannot report latency" h
  else
    let h := post "mp3codec~: Latency Analysis:" h in
    let h := post "  LAME Encoder Delay: %d samples (%.1f ms)" h in
    let h := post "  LAME Decoder Delay: %d samples (%.1f ms)" h in
    let h := post "  Buffer Latency: %d samples (%.1f ms)" h in
    let h := post "  TOTAL LATENCY: %d samples (%.1f ms)" h in
    let h := post "  At %d Hz: %.1f audio frames delay" h in
    match analysis_outlet x with
    | Some o =>
        Ev_outlet_list o
          [A_FLOAT (total_latency_ms x);
           A_LONG (total_latency_samples x);
           A_LONG (lame_encoder_delay x);
           A_LONG (lame_decoder_delay x)] :: h
    | None => h
    end.

(** ** The perform routine *)

(** The bypass loop (lines 480-483). *)
Definition write_bypass (x : t_mp3codec) (ins0 ins1 outs0 outs1 : list double)
    (sampleframes : Z) : list double * list double :=
  for_loop 0 sampleframes
    (fun i o =>
       (array_set (fst o) i
          (dmul (dmul (array_get ins0 i dzero) (input_gain x)) (output_gain x)),
        array_set (snd o) i
          (dmul (dmul (array_get ins1 i dzero) (input_gain x)) (output_gain x))))
    (outs0, outs1).

(** Lines 516-521: copy [samples_to_copy] gain-scaled input samples into the
    encode buffers at the current fill. *)
Definition copy_to_encode_buffer (x : t_mp3codec) (ins0 ins1 : list double)
    (samples_processed samples_to_copy : Z) : outcome t_mp3codec :=
  el ← deref (encode_buffer_left x);
  er ← deref (encode_buffer_right x);
  let b :=
    for_loop 0 samples_to_copy
      (fun i b =>
         (array_set (fst b) (encode_buffer_fill x + i)
            (float_of_double
               (dmul (array_get ins0 (samples_processed + i) dzero) (input_gain x))),
          array_set (snd b) (encode_buffer_fill x + i)
            (float_of_double
               (dmul (array_get ins1 (samples_processed + i) dzero) (input_gain x)))))
      (el, er) in
  Returns (set_encode_buffer_right (Some (snd b))
             (set_encode_buffer_left (Some (fst b)) x)).

(** Lines 542-548: the frame handed to the encoder. *)
Definition frame_to_pcm (buf : list float) : list short :=
  for_loop 0 MP3_FRAME_SIZE
    (fun i pcm => array_set pcm i (float_to_short (array_get buf i fzero)))
    (replicate (Z.to_nat MP3_FRAME_SIZE) 0).

(** Lines 577-582: append the chunk to the byte accumulator if it fits. *)
Definition append_chunk (acc : list byte) (fill : Z) (mp3_buffer : list byte)
    (mp3_bytes : Z) : list byte * Z :=
  if fill + mp3_bytes <? DECODE_BUFFER_SIZE
  then (memcpy acc fill mp3_buffer mp3_bytes, fill + mp3_bytes)
  else (acc, fill).

(** Lines 593-603: add [decoded_samples] decoded samples to the ring at the
    write cursor. *)
Definition ring_write (x : t_mp3codec) (decoded_samples : Z) : outcome t_mp3codec :=
  rl ← deref (output_ring_left x);
  rr ← deref (output_ring_right x);
  pl ← deref (decode_pcm_left x);
  pr ← deref (decode_pcm_right x);
  let r :=
    for_loop 0 decoded_samples
      (fun i (r : list float * list float * Z) =>
         let '(rl, rr, w) := r in
         let rl := array_set rl w (short_to_float (array_get pl i 0)) in
         let rr := array_set rr w (short_to_float (array_get pr i 0)) in
         let w := w + 1 in
         let w := if w >=? ring_size x then 0 else w in
         (rl, rr, w))
      (rl, rr, ring_write_pos x) in
  let '(rl, rr, w) := r in
  Returns (set_ring_write_pos w
             (set_output_ring_right (Some rr)
                (set_output_ring_left (Some rl) x))).

(** Lines 575-624: stage the chunk, try one decode, act on its result. *)
Definition decode_chunk (x : t_mp3codec) (mp3_buffer : list byte) (mp3_bytes : Z)
    (dc : Z) (h : history) : outcome (t_mp3codec * history) :=
  acc ← deref (mp3_accumulator x);
  pl ← deref (decode_pcm_left x);
  pr ← deref (decode_pcm_right x);
  let '(acc, fill) := append_chunk acc (mp3_accumulator_fill x) mp3_buffer mp3_bytes in
  let x := set_mp3_accumulator_fill fill (set_mp3_accumulator (Some acc) x) in
  let '(decoded_samples, pl, pr) := hip_decode h acc fill pl pr in
  let h := Ev_hip_decode acc fill decoded_samples :: h in
  let x := set_decode_pcm_right (Some pr) (set_decode_pcm_left (Some pl) x) in
  if decoded_samples >? 0 then
    x ← ring_write x decoded_samples;
    let h := post_if (Z.rem dc 200 =? 0)
               "mp3codec~: Decoded %d samples, write_pos %d->%d" h in
    Returns (set_mp3_accumulator_fill 0 x, h)
  else if decoded_samples =? 0 then
    let h := post_if (Z.rem dc 500 =? 0)
               "mp3codec~: Decoder needs more data (accumulator: %d bytes)" h in
    Returns (x, h)
  else
    let h := post_if (Z.rem dc 100 =? 0) "mp3codec~: Decode error: %d" h in
    Returns (set_mp3_accumulator_fill 0 x, h).

(** Lines 541-624: convert the full encode buffer, encode it, reset the fill
    and, if bytes came out, decode. *)
Definition encode_frame (x : t_mp3codec) (g : lame_global_flags) (dc : Z)
    (h : history) : outcome (t_mp3codec * history) :=
  el ← deref (encode_buffer_left x);
  er ← deref (encode_buffer_right x);
  let pcm_left := frame_to_pcm el in
  let pcm_right := frame_to_pcm er in
  let '(mp3_bytes, mp3_buffer) :=
    lame_encode_buffer h g pcm_left pcm_right MP3_FRAME_SIZE MP3_BUFFER_SIZE in
  let h := Ev_lame_encode_buffer pcm_left pcm_right MP3_FRAME_SIZE mp3_bytes :: h in
  let h := post_if (Z.rem dc 200 =? 0)
             "mp3codec~: Encoded frame - MP3 bytes: %d, Quality: %ld, Expected bytes for %d kbps: ~%d" h in
  let h := post_if ((Z.rem dc 200 =? 0) && (quality x >=? 8) && (mp3_bytes >? 4))
             "mp3codec~: MP3 header bytes: 0x%02X 0x%02X 0x%02X 0x%02X (verify sync and bitrate)" h in
  let x := set_encode_buffer_fill 0 x in
  if mp3_bytes >? 0 then decode_chunk x mp3_buffer mp3_bytes dc h
  else Returns (x, h).

(** One turn of the [while] loop (lines 508-625).  The boolean of the result
    tells whether the turn left the loop through [break]. *)
Definition accumulate (x : t_mp3codec) (ins0 ins1 : list double)
    (sampleframes samples_processed dc : Z) (h : history)
  : outcome (t_mp3codec * Z * bool * history) :=
  let samples_to_copy := sampleframes - samples_processed in
  let buffer_space := MP3_FRAME_SIZE - encode_buffer_fill x in
  let samples_to_copy :=
    if samples_to_copy >? buffer_space then buffer_space else samples_to_copy in
  x ← copy_to_encode_buffer x ins0 ins1 samples_processed samples_to_copy;
  let x := set_encode_buffer_fill (encode_buffer_fill x + samples_to_copy) x in
  let samples_processed := samples_processed + samples_to_copy in
  if encode_buffer_fill x >=? MP3_FRAME_SIZE then
    let h := post_if (Z.rem dc 200 =? 0)
               "mp3codec~: About to encode frame (buffer_fill: %d)" h in
    match initialized x =? 0, gfp x, hip x with
    | false, Some g, Some _ =>
        '(x, h) ← encode_frame x g dc h;
        Returns (x, samples_processed, false, h)
    | _, _, _ =>
        let h := post_if (Z.rem dc 100 =? 0)
                   "mp3codec~: ERROR - Invalid state (initialized=%ld, gfp=%p, hip=%p)" h in
        Returns (set_encode_buffer_fill 0 x, samples_processed, true, h)
    end
  else Returns (x, samples_processed, false, h).

(** The [while (samples_processed < sampleframes)] loop, with a budget of
    [fuel] turns. *)
Fixpoint process_input (fuel : nat) (x : t_mp3codec) (ins0 ins1 : list double)
    (sampleframes samples_processed dc : Z) (h : history)
  : outcome (t_mp3codec * history) :=
  if samples_processed <? sampleframes then
    match fuel with
    | O => OutOfFuel
    | S fuel' =>
        '(x, samples_processed, stop, h) ←
          accumulate x ins0 ins1 sampleframes samples_processed dc h;
        if (stop : bool) then Returns (x, h)
        else process_input fuel' x ins0 ins1 sampleframes samples_processed dc h
    end
  else Returns (x, h).

(** [available] of lines 631-636. *)
Definition ring_available (x : t_mp3codec) (ring_read_pos : Z) : Z :=
  if ring_write_pos x >=? ring_read_pos
  then ring_write_pos x - ring_read_pos
  else (ring_size x - ring_read_pos) + ring_write_pos x.

(** Lines 629-665: fill the output block from the ring. *)
Definition ring_read (x : t_mp3codec) (outs0 outs1 : list double)
    (sampleframes dc : Z) (h : history)
  : outcome (t_mp3codec * list double * list double * history) :=
  rl ← deref (output_ring_left x);
  rr ← deref (output_ring_right x);
  let r :=
    for_loop 0 sampleframes
      (fun i (r : Z * list double * list double * history) =>
         let '(rp, o0, o1, h) := r in
         let available := ring_available x rp in
         let h := post_if ((Z.rem dc 200 =? 0) && (i =? 0))
                    "mp3codec~: Ring buffer - available: %d, threshold: %d, read_pos: %d, write_pos: %d" h in
         if (available >? total_latency_samples x)
            || (decode_delay_compensation x =? 0) then
           let o0 := array_set o0 i
                       (dmul (double_of_float (array_get rl rp fzero)) (output_gain x)) in
           let o1 := array_set o1 i
                       (dmul (double_of_float (array_get rr rp fzero)) (output_gain x)) in
           let rp := rp + 1 in
           let rp := if rp >=? ring_size x then 0 else rp in
           let h := post_if ((Z.rem dc 1000 =? 0) && (i =? 0))
                      "mp3codec~: **OUTPUTTING MP3 PROCESSED AUDIO** from ring buffer" h in
           (rp, o0, o1, h)
         else
           let h := post_if ((Z.rem dc 200 =? 0) && (i =? 0))
                      "mp3codec~: SILENCE - not enough samples (available: %d, need: %d)" h in
           (rp, array_set o0 i dzero, array_set o1 i dzero, h))
      (ring_read_pos x, outs0, outs1, h) in
  let '(rp, o0, o1, h) := r in
  Returns (set_ring_read_pos rp x, o0, o1, h).

(** [void mp3codec_perform64(...)] on an existing object.  [ins0], [ins1] are
    the two input vectors and [outs0], [outs1] the two output vectors as the
    host passed them; the result gives the object, the output vectors, the
    static [debug_counter] and the history afterwards. *)
Definition mp3codec_perform64 (fuel : nat) (x : t_mp3codec)
    (ins0 ins1 : list double) (numins : Z) (outs0 outs1 : list double)
    (numouts : Z) (sampleframes : Z) (debug_counter : Z) (h : history)
  : outcome (t_mp3codec * list double * list double * Z * history) :=
  let dc := debug_counter + 1 in
  if initialized x =? 0 then
    let o := write_silence outs0 outs1 sampleframes in
    Returns (x, fst o, snd o, dc, h)
  else
    let h := post_if (Z.rem dc 200 =? 0)
               "mp3codec~: perform64 called - sampleframes: %ld, encode_buffer_fill: %d" h in
    if nonzero (bypass x) then
      let h := post_if (Z.rem dc 1000 =? 0)
                 "mp3codec~: **BYPASS MODE** - passing input directly to output" h in
      let o :=
        if (numins >=? 2) && (numouts >=? 2)
        then write_bypass x ins0 ins1 outs0 outs1 sampleframes
        else (outs0, outs1) in
      Returns (x, fst o, snd o, dc, h)
    else
      match encode_buffer_left x, encode_buffer_right x,
            output_ring_left x, output_ring_right x with
      | Some _, Some _, Some _, Some _ =>
          '(x, h) ← process_input fuel x ins0 ins1 sampleframes 0 dc h;
          '(x, o0, o1, h) ← ring_read x outs0 outs1 sampleframes dc h;
          Returns (x, o0, o1, dc, h)
      | _, _, _, _ =>
          let h := post_if (Z.rem dc 100 =? 0)
                     "mp3codec~: ERROR - NULL buffer pointers (encode_l=%p, encode_r=%p, ring_l=%p, ring_r=%p)" h in
          let o := write_silence outs0 outs1 sampleframes in
          Returns (x, fst o, snd o, dc, h)
      end.

End Processor.

(** ** Observations on a history *)

(** The frames handed to [lame_encode_buffer], oldest first. *)
Fixpoint encoded_frames (h : history) : list (list short * list short) :=
  match h with
  | [] => []
  | Ev_lame_encode_buffer l r _ _ :: h' => encoded_frames h' ++ [(l, r)]
  | _ :: h' => encoded_frames h'
  end.

(** The settings of each [lame_init_params] call, oldest first. *)
Fixpoint init_params_calls (h : history) : list lame_global_flags :=
  match h with
  | [] => []
  | Ev_lame_init_params g _ :: h' => init_params_calls h' ++ [g]
  | _ :: h' => init_params_calls h'
  end.

(** How many times a rebuild was started: every run of
    [mp3codec_init_processor] calls [lame_init] once. *)
Fixpoint rebuilds (h : history) : nat :=
  match h with
  | [] => O
  | Ev_lame_init _ :: h' => S (rebuilds h')
  | _ :: h' => rebuilds h'
  end.

(** How many [error(...)] lines were printed. *)
Fixpoint errors (h : history) : nat :=
  match h with
  | [] => O
  | Ev_error _ :: h' => S (errors h')
  | _ :: h' => errors h'
  end.

(** The lists sent out of the outlets, newest first. *)
Fixpoint emitted (h : history) : list (outlet * list t_atom) :=
  match h with
  | [] => []
  | Ev_outlet_list o l :: h' => (o, l) :: emitted h'
  | _ :: h' => emitted h'
  end.

(** Calls into the codec engine (as opposed to console lines, sleeps and
    outlet traffic). *)
Definition is_engine_call (e : event) : bool :=
  match e with
  | Ev_post _ | Ev_error _ | Ev_systhread_sleep _ | Ev_outlet_list _ _ => false
  | _ => true
  end.

(** ** Predicates on the object *)

(** The codec handles, buffer pointers, fill levels and cursors of [x'] are
    those of [x]. *)
Definition same_pipeline (x x' : t_mp3codec) : Prop :=
  gfp x' = gfp x /\ hip x' = hip x /\
  encode_buffer_left x' = encode_buffer_left x /\
  encode_buffer_right x' = encode_buffer_right x /\
  mp3_accumulator x' = mp3_accumulator x /\
  decode_pcm_left x' = decode_pcm_left x /\
  decode_pcm_right x' = decode_pcm_right x /\
  output_ring_left x' = output_ring_left x /\
  output_ring_right x' = output_ring_right x /\
  encode_buffer_fill x' = encode_buffer_fill x /\
  mp3_accumulator_fill x' = mp3_accumulator_fill x /\
  ring_write_pos x' = ring_write_pos x /\
  ring_read_pos x' = ring_read_pos x.

(** All codec handles and buffer pointers are NULL, as after a failed
    initialization. *)
Definition torn_down (x : t_mp3codec) : Prop :=
  gfp x = None /\ hip x = None /\
  encode_buffer_left x = None /\ encode_buffer_right x = None /\
  mp3_accumulator x = None /\
  decode_pcm_left x = None /\ decode_pcm_right x = None /\
  output_ring_left x = None /\ output_ring_right x = None.

(** The PipelineConfig of [x'] is that of [x]. *)
Definition same_config (x x' : t_mp3codec) : Prop :=
  quality x' = quality x /\
  input_gain x' = input_gain x /\ output_gain x' = output_gain x /\
  bypass x' = bypass x /\
  enable_lowpass x' = enable_lowpass x /\
  enable_highpass x' = enable_highpass x /\
  enable_ms_stereo x' = enable_ms_stereo x /\
  enable_ath_only x' = enable_ath_only x /\
  enable_experimental x' = enable_experimental x /\
  enable_emphasis x' = enable_emphasis x.

(** The configuration proper, the sample rate, the channel count and the
    outlets of [x'] are those of [x]. *)
Definition kept (x x' : t_mp3codec) : Prop :=
  same_config x x' /\ sample_rate x' = sample_rate x /\
  channels x' = channels x /\ analysis_outlet x' = analysis_outlet x /\
  status_outlet x' = status_outlet x.

(** The silent state a failed rebuild leaves behind. *)
Definition failed_state (x : t_mp3codec) : Prop :=
  initialized x = 0 /\ torn_down x.

(** The state right after a successful [mp3codec_init_processor]: handles
    and zeroed buffers in place, fills and cursors at 0, latency summed up. *)
Definition freshly_initialized (x : t_mp3codec) : Prop :=
  initialized x = 1 /\
  (exists g, gfp x = Some g) /\ hip x = Some hip_decoder /\
  encode_buffer_left x = sysmem_newptrclear fzero PCM_BUFFER_SIZE /\
  encode_buffer_right x = sysmem_newptrclear fzero PCM_BUFFER_SIZE /\
  mp3_accumulator x = sysmem_newptrclear x00 DECODE_BUFFER_SIZE /\
  decode_pcm_left x = sysmem_newptrclear 0 PCM_BUFFER_SIZE /\
  decode_pcm_right x = sysmem_newptrclear 0 PCM_BUFFER_SIZE /\
  output_ring_left x = sysmem_newptrclear fzero (MP3_FRAME_SIZE * 4) /\
  output_ring_right x = sysmem_newptrclear fzero (MP3_FRAME_SIZE * 4) /\
  ring_size x = MP3_FRAME_SIZE * 4 /\
  encode_buffer_fill x = 0 /\ mp3_accumulator_fill x = 0 /\
  ring_write_pos x = 0 /\ ring_read_pos x = 0 /\
  lame_decoder_delay x = 528 /\
  buffer_latency_samples x = MP3_FRAME_SIZE /\
  total_latency_samples x =
    lame_encoder_delay x + lame_decoder_delay x + buffer_latency_samples x /\
  total_latency_ms x =
    dmul (ddiv (double_of_long (total_latency_samples x))
               (double_of_long (sample_rate x)))
         (double_of_long 1000) /\
  decode_delay_compensation x = 0.

(** The byte accumulator, the decode buffers and the two rings are in
    place. *)
Definition back_present (x : t_mp3codec) : Prop :=
  (exists acc, mp3_accumulator x = Some acc) /\
  (exists pl, decode_pcm_left x = Some pl) /\
  (exists pr, decode_pcm_right x = Some pr) /\
  (exists rl, output_ring_left x = Some rl) /\
  (exists rr, output_ring_right x = Some rr).

(** The encode side is in working order: the object is initialized and not
    in bypass, both codec handles exist and the two encode buffers hold at
    least one frame. *)
Definition front_ready (x : t_mp3codec) : Prop :=
  initialized x <> 0 /\ bypass x = 0 /\
  (exists g, gfp x = Some g) /\ (exists d, hip x = Some d) /\
  (exists el, encode_buffer_left x = Some el /\
     (Z.to_nat MP3_FRAME_SIZE <= length el)%nat) /\
  (exists er, encode_buffer_right x = Some er /\
     (Z.to_nat MP3_FRAME_SIZE <= length er)%nat).

Definition pipeline_ready (x : t_mp3codec) : Prop :=
  front_ready x /\ back_present x.

(** The part of the object that decoding never touches is the same in [x]
    and [x']. *)
Definition same_front (x x' : t_mp3codec) : Prop :=
  initialized x' = initialized x /\ bypass x' = bypass x /\
  gfp x' = gfp x /\ hip x' = hip x /\
  input_gain x' = input_gain x /\ output_gain x' = output_gain x /\
  quality x' = quality x /\
  encode_buffer_left x' = encode_buffer_left x /\
  encode_buffer_right x' = encode_buffer_right x /\
  encode_buffer_fill x' = encode_buffer_fill x.

(** An input sample as the encoder receives it: scaled by the input gain,
    narrowed to [float], converted to 16-bit PCM. *)
Definition pcm_of_input (gain : double) (s : double) : short :=
  float_to_short (float_of_double (dmul s gain)).

(** The samples waiting in the encode buffers: their first
    [encode_buffer_fill] entries. *)
Definition pending_left (x : t_mp3codec) : list float :=
  match encode_buffer_left x with
  | Some el => take (Z.to_nat (encode_buffer_fill x)) el
  | None => []
  end.
Definition pending_right (x : t_mp3codec) : list float :=
  match encode_buffer_right x with
  | Some er => take (Z.to_nat (encode_buffer_fill x)) er
  | None => []
  end.

(** A frame is complete when both channels hold [MP3_FRAME_SIZE] samples. *)
Definition full_frame (f : list short * list short) : Prop :=
  length (fst f) = Z.to_nat MP3_FRAME_SIZE /\
  length (snd f) = Z.to_nat MP3_FRAME_SIZE.

(** From object [x] and history [h], consuming the input samples [inl] and
    [inr] has led to [x'] and [h']: only complete frames went to the encoder
    and, read in order, the frames followed by what is still waiting are what
    was waiting before followed by the converted input. *)
Definition accumulated (x : t_mp3codec) (h : history) (inl inr : list double)
    (x' : t_mp3codec) (h' : history) : Prop :=
  pipeline_ready x' /\ input_gain x' = input_gain x /\
  0 <= encode_buffer_fill x' < MP3_FRAME_SIZE /\
  exists fs,
    encoded_frames h' = encoded_frames h ++ fs /\
    Forall full_frame fs /\
    concat (map fst fs) ++ map float_to_short (pending_left x') =
      map float_to_short (pending_left x) ++ map (pcm_of_input (input_gain x)) inl /\
    concat (map snd fs) ++ map float_to_short (pending_right x') =
      map float_to_short (pending_right x) ++ map (pcm_of_input (input_gain x)) inr.

(** Where a ring cursor that started below [size] stands after advancing to
    [z], for [z] below twice the size. *)
Definition ring_wrap (size z : Z) : Z := if z <? size then z else z - size.

(** A decoded sample as the ring hands it out: converted to [float] on the
    way in, widened and scaled by the output gain on the way out. *)
Definition output_sample (gain : double) (s : short) : double :=
  dmul (double_of_float (short_to_float s)) gain.


(** The host calling the perform routine once per block, each block being
    the pair of its two input vectors; the output vectors it passes are as
    long as the block.  The iteration budget of each call is the length of
    its block. *)
Fixpoint host_run {lame : Engine} (x : t_mp3codec) (debug_counter : Z)
    (h : history) (blocks : list (list double * list double))
  : outcome (t_mp3codec * Z * history) :=
  match blocks with
  | [] => Returns (x, debug_counter, h)
  | b :: blocks' =>
      let n := length (fst b) in
      '(x, _, _, debug_counter, h) ←
        mp3codec_perform64 n x (fst b) (snd b) 2
          (replicate n dzero) (replicate n dzero) 2 (Z.of_nat n) debug_counter h;
      host_run x debug_counter h blocks'
  end.

(** ** Two engines to run the model on *)

(** An engine that accepts every configuration, reports the usual encoder
    delay of 576 samples, produces a four-byte chunk per frame and decodes
    every chunk to a full frame, leaving the PCM buffers as they are. *)
Definition accepting_engine : Engine := {|
  lame_init := fun _ => true;
  lame_init_params := fun _ _ => 0;
  lame_get_encoder_delay := fun _ _ => 576;
  hip_decode_init := fun _ => true;
  lame_encode_buffer := fun _ _ _ _ _ _ => (4, [xff; xfb; x90; x00]);
  hip_decode := fun _ _ _ pl pr => (1152, pl, pr)
|}.

(** An engine whose [lame_init_params] rejects every configuration. *)
Definition rejecting_engine : Engine := {|
  lame_init := fun _ => true;
  lame_init_params := fun _ _ => -1;
  lame_get_encoder_delay := fun _ _ => 576;
  hip_decode_init := fun _ => true;
  lame_encode_buffer := fun _ _ _ _ _ _ => (4, [xff; xfb; x90; x00]);
  hip_decode := fun _ _ _ pl pr => (1152, pl, pr)
|}.

(** A freshly created object whose codec was set up by the accepting
    engine: [mp3codec~] without arguments (quality 5, unit gains, every
    toggle on, 44.1 kHz, stereo). *)
Definition working_object : t_mp3codec :=
  fst (@mp3codec_new accepting_engine [] []).

(** The same object when the engine rejected its configuration: all handles
    and buffers NULL, [initialized] 0. *)
Definition silent_object : t_mp3codec :=
  fst (@mp3codec_new rejecting_engine [] []).

(** The value 1.0. *)
Definition done : double := double_of_long 1.

(** ** Concrete inputs *)

(** Two host blocks of 500 and 652 samples of value 1.0: one frame in all. *)
Definition two_blocks : list (list double * list double) :=
  [(replicate 500 done, replicate 500 done);
   (replicate 652 done, replicate 652 done)].

(** The working object initialized once more, by the accepting engine. *)
Definition reinitialized : Z * t_mp3codec * history :=
  @mp3codec_init_processor accepting_engine working_object [].

(** A four-byte chunk, as the two engines produce it. *)
Definition chunk : list byte := [xff; xfb; x90; x00].

(** The working object once the decoder has left the samples 100 and 200 at
    the head of both PCM buffers. *)
Definition decoded_object : t_mp3codec :=
  set_decode_pcm_right (Some [100; 200])
    (set_decode_pcm_left (Some [100; 200]) working_object).

(** The working object with the read cursor 64 places after the write
    cursor, as it stands after one block of 64 samples on a fresh pipeline,
    and with the sample 32767 at the head of both PCM buffers. *)
Definition read_ahead_object : t_mp3codec :=
  set_ring_read_pos 64
    (set_decode_pcm_right (Some [32767])
       (set_decode_pcm_left (Some [32767]) working_object)).

(** The first [lame_init_params] call of a rebuild of the working object. *)
Definition first_call : history * lame_global_flags :=
  first_init_params_call working_object [].

(** 48000.0 *)
Definition rate_48k : double := double_of_long 48000.

(** The working object with the accumulator one byte short of full. *)
Definition nearly_full_object : t_mp3codec :=
  set_mp3_accumulator_fill (DECODE_BUFFER_SIZE - 1) working_object.

(** The silent object after [bypass 1]. *)
Definition silent_bypassed_object : t_mp3codec := mp3codec_bypass silent_object 1.

(** ** The object's destructor *)

(** [void mp3codec_free(t_mp3codec *x)]: the tear-down, followed by
    [dsp_free], which releases the host's side of the object and does not
    touch the fields of [t_mp3codec]. *)
Definition mp3codec_free (x : t_mp3codec) (h : history) : t_mp3codec * history :=
  mp3codec_cleanup_processor x h.

(** ** Further observations *)

(** [a <= b] on doubles (false when either is a NaN). *)
Definition dle : double -> double -> bool := SFleb.

(** A gain inside [0.0 .. 4.0]. *)
Definition gain_in_range (g : double) : Prop :=
  dle dzero g = true /\ dle g (double_of_long 4) = true.

(** A value of C's [short]. *)
Definition is_short (v : Z) : Prop := -32768 <= v <= 32767.

Definition lame_param_index (p : lame_param) : Z :=
  match p with
  | num_channels => 0 | in_samplerate => 1 | out_samplerate => 2 | VBR => 3
  | brate => 4 | lame_quality => 5 | mode => 6 | force_ms => 7 | ATHonly => 8
  | ATHshort => 9 | no_short_blocks => 10 | emphasis => 11
  | experimentalX => 12 | experimentalY => 13 | lowpassfreq => 14
  | highpassfreq => 15 | disable_reservoir => 16
  end.

Definition same_param (p q : lame_param) : bool :=
  lame_param_index p =? lame_param_index q.

(** The value an encoder holds for the setting [p]: the one applied last, if
    the setting was applied at all. *)
Fixpoint setting (p : lame_param) (g : lame_global_flags) : option Z :=
  match g with
  | [] => None
  | (q, v) :: g' =>
      match setting p g' with
      | Some w => Some w
      | None => if same_param p q then Some v else None
      end
  end.

(** The settings [mp3codec_init_processor] applies for the configuration of
    [x]. *)
Definition encoder_settings (x : t_mp3codec) : lame_global_flags :=
  fst (configure_encoder x []).

(** The encoders that were handed out by [lame_init] and not yet given back
    to [lame_close], and the same for decoders. *)
Fixpoint live_encoders (h : history) : Z :=
  match h with
  | [] => 0
  | Ev_lame_init true :: h' => live_encoders h' + 1
  | Ev_lame_close :: h' => live_encoders h' - 1
  | _ :: h' => live_encoders h'
  end.
Fixpoint live_decoders (h : history) : Z :=
  match h with
  | [] => 0
  | Ev_hip_decode_init true :: h' => live_decoders h' + 1
  | Ev_hip_decode_exit :: h' => live_decoders h' - 1
  | _ :: h' => live_decoders h'
  end.

(** The encoders and decoders the object holds: one if the pointer is set. *)
Definition held_encoders (x : t_mp3codec) : Z :=
  match gfp x with Some _ => 1 | None => 0 end.
Definition held_decoders (x : t_mp3codec) : Z :=
  match hip x with Some _ => 1 | None => 0 end.

(** The object holds exactly the handles that are live. *)
Definition handles_balanced (x : t_mp3codec) (h : history) : Prop :=
  live_encoders h = held_encoders x /\ live_decoders h = held_decoders x.

(** From [x] and [h] to [x'] and [h'], every handle obtained is held and
    every handle dropped was given back. *)
Definition handles_conserved (x : t_mp3codec) (h : history)
    (x' : t_mp3codec) (h' : history) : Prop :=
  live_encoders h' - held_encoders x' = live_encoders h - held_encoders x /\
  live_decoders h' - held_decoders x' = live_decoders h - held_decoders x.

(** Whenever the object holds an encoder, the encoder's settings are those of
    the object's configuration. *)
Definition encoder_in_sync (x : t_mp3codec) : Prop :=
  forall g, gfp x = Some g -> g = encoder_settings x.

(** What the constructor guarantees of the configuration: a quality of the
    table, gains inside [0.0 .. 4.0], a boolean bypass flag, every toggle on,
    44.1 kHz, two channels, both outlets. *)
Definition constructor_config (x : t_mp3codec) : Prop :=
  0 <= quality x <= 9 /\
  gain_in_range (input_gain x) /\ gain_in_range (output_gain x) /\
  (bypass x = 0 \/ bypass x = 1) /\
  enable_lowpass x = 1 /\ enable_highpass x = 1 /\ enable_ms_stereo x = 1 /\
  enable_ath_only x = 1 /\ enable_experimental x = 1 /\ enable_emphasis x = 1 /\
  sample_rate x = 44100 /\ channels x = 2 /\
  analysis_outlet x = Some outlet_analysis /\
  status_outlet x = Some outlet_status.

(** What the real-time routine may do to the outside world: print console
    lines, encode, decode. *)
Definition is_realtime_event (e : event) : bool :=
  match e with
  | Ev_post _ | Ev_lame_encode_buffer _ _ _ _ | Ev_hip_decode _ _ _ => true
  | _ => false
  end.

(** [h'] is [h] followed by events of the real-time routine. *)
Definition realtime_extension (h h' : history) : Prop :=
  exists hp, h' = hp ++ h /\ forallb is_realtime_event hp = true.

(** Everything of the object beside buffers, fills and cursors is the same
    in [x] and [x']. *)
Definition same_control (x x' : t_mp3codec) : Prop :=
  kept x x' /\ initialized x' = initialized x /\
  gfp x' = gfp x /\ hip x' = hip x /\ ring_size x' = ring_size x /\
  total_latency_samples x' = total_latency_samples x /\
  total_latency_ms x' = total_latency_ms x /\
  lame_encoder_delay x' = lame_encoder_delay x /\
  lame_decoder_delay x' = lame_decoder_delay x /\
  buffer_latency_samples x' = buffer_latency_samples x /\
  decode_delay_compensation x' = decode_delay_compensation x.

(** The pointer [p] points to [n] elements. *)
Definition sized {A : Type} (p : option (list A)) (n : Z) : Prop :=
  exists a, p = Some a /\ length a = Z.to_nat n.

(** The buffers of the pipeline have the sizes they were allocated with, and
    the accumulator fill and the two ring cursors lie inside them. *)
Definition storage_in_order (x : t_mp3codec) : Prop :=
  0 <= mp3_accumulator_fill x < DECODE_BUFFER_SIZE /\
  0 <= ring_write_pos x < ring_size x /\
  0 <= ring_read_pos x < ring_size x /\
  sized (encode_buffer_left x) PCM_BUFFER_SIZE /\
  sized (encode_buffer_right x) PCM_BUFFER_SIZE /\
  sized (mp3_accumulator x) DECODE_BUFFER_SIZE /\
  sized (output_ring_left x) (ring_size x) /\
  sized (output_ring_right x) (ring_size x).

(** The same with the encode buffer's fill, which stays below one frame
    between calls of the perform routine. *)
Definition within_buffers (x : t_mp3codec) : Prop :=
  0 <= encode_buffer_fill x < MP3_FRAME_SIZE /\ storage_in_order x.

(** A console line. *)
Definition is_console_line (e : event) : bool :=
  match e with
  | Ev_post _ => true
  | _ => false
  end.

(** A pause of the calling thread. *)
Definition is_sleep (e : event) : bool :=
  match e with
  | Ev_systhread_sleep _ => true
  | _ => false
  end.

(** [h'] is [h] followed by events none of which is a pause. *)
Definition added_without_sleep (h h' : history) : Prop :=
  exists hp, h' = hp ++ h /\ forallb (fun e => negb (is_sleep e)) hp = true.

(** ** More concrete inputs *)

(** The history the construction of the working object leaves behind. *)
Definition working_history : history :=
  snd (@mp3codec_new accepting_engine [] []).

(** The working object initialized once more, by the rejecting engine. *)
Definition rejected : Z * t_mp3codec * history :=
  @mp3codec_init_processor rejecting_engine working_object [].

(** Blocks of 4 and of 1200 samples of value 1.0, and an output vector of
    1200 zeros. *)
Definition four_ones : list double := replicate 4 done.
Definition long_block : list double := replicate 1200 done.
Definition long_zeros : list double := replicate 1200 dzero.

(** The buffers of a freshly initialized pipeline. *)
Definition fresh_ring : list float :=
  replicate (Z.to_nat (MP3_FRAME_SIZE * 4)) fzero.
Definition fresh_accumulator : list byte :=
  replicate (Z.to_nat DECODE_BUFFER_SIZE) x00.
Definition fresh_pcm : list short := replicate (Z.to_nat PCM_BUFFER_SIZE) 0.

(** The working object with delay compensation switched on. *)
Definition gated_object : t_mp3codec :=
  set_decode_delay_compensation 1 working_object.


(** * Properties *)

Section ControlPlane.
Context {lame : Engine}.

(** ** Rebuilding the processor *)

Lemma errors_post_if c s h : errors (post_if c s h) = errors h.
Proof. destruct c; reflexivity. Qed.
Lemma rebuilds_post_if c s h : rebuilds (post_if c s h) = rebuilds h.
Proof. destruct c; reflexivity. Qed.
Lemma init_params_calls_post_if c s h :
  init_params_calls (post_if c s h) = init_params_calls h.
Proof. destruct c; reflexivity. Qed.

Lemma cleanup_spec (x : t_mp3codec) (h : history) :
  let (x', h') := mp3codec_cleanup_processor x h in
  kept x x' /\ initialized x' = 0 /\ torn_down x' /\
  encode_buffer_fill x' = 0 /\ mp3_accumulator_fill x' = 0 /\
  ring_write_pos x' = 0 /\ ring_read_pos x' = 0 /\
  errors h' = errors h /\ rebuilds h' = rebuilds h /\
  init_params_calls h' = init_params_calls h.
Proof.
  unfold mp3codec_cleanup_processor, kept, same_config, torn_down. fields.
  destruct (gfp x), (hip x); repeat split.
Qed.

Lemma configure_encoder_spec (x : t_mp3codec) (h : history) :
  errors (snd (configure_encoder x h)) = errors h /\
  rebuilds (snd (configure_encoder x h)) = rebuilds h /\
  init_params_calls (snd (configure_encoder x h)) = init_params_calls h.
Proof.
  unfold configure_encoder; simpl.
  rewrite !errors_post_if, !rebuilds_post_if, !init_params_calls_post_if. auto.
Qed.

Lemma finish_init_spec (x : t_mp3codec) (g : lame_global_flags) (h : history) :
  initialized x = 0 -> torn_down (set_gfp None x) ->
  let '(rc, x', h') := finish_init x g h in
  kept x x' /\ rebuilds h' = rebuilds h /\
  ((rc = 0 /\ initialized x' = 1 /\ errors h' = errors h) \/
   (rc = -1 /\ failed_state x' /\ errors h' = S (errors h))).
Proof.
  intros Hi Ht. unfold finish_init. destruct (hip_decode_init _); cbn [negb].
  - split; [repeat split|]. split; [reflexivity|]. left. repeat split.
  - split; [repeat split|]. split; [reflexivity|]. right.
    split; [reflexivity|]. split; [split; [exact Hi|exact Ht]|reflexivity].
Qed.

Lemma kept_trans (x y z : t_mp3codec) : kept x y -> kept y z -> kept x z.
Proof.
  unfold kept, same_config. intros H1 H2.
  repeat match goal with H : _ /\ _ |- _ => destruct H end.
  repeat split; congruence.
Qed.

Lemma init_processor_spec (x : t_mp3codec) (h : history) :
  let '(rc, x', h') := mp3codec_init_processor x h in
  kept x x' /\ rebuilds h' = S (rebuilds h) /\
  ((rc = 0 /\ initialized x' = 1 /\ errors h' = errors h) \/
   (rc = -1 /\ failed_state x' /\ errors h' = S (errors h))).
Proof.
  unfold mp3codec_init_processor.
  pose proof (cleanup_spec x h) as Hc.
  destruct (mp3codec_cleanup_processor x h) as [x0 h0].
  destruct Hc as (Hk & Hi & Ht & _ & _ & _ & _ & He0 & Hr0 & _).
  assert (Hfail : forall y, gfp y = None -> same_pipeline (set_gfp None x0) y ->
                    initialized y = 0 -> failed_state y).
  { intros y Hg Hy Hiy. unfold failed_state, torn_down, same_pipeline in *.
    fields_in Hy. intuition congruence. }
  destruct (lame_init h0) eqn:Hli; cbn [negb].
  - pose proof (configure_encoder_spec x0 (Ev_lame_init true :: h0)) as (Hce & Hcr & _).
    destruct (configure_encoder x0 (Ev_lame_init true :: h0)) as [g h1] eqn:Hcfg.
    cbn [fst snd errors rebuilds] in Hce, Hcr.
    assert (Hfin : forall y g' h', kept x y -> same_pipeline (set_gfp None x0) (set_gfp None y) ->
              initialized y = 0 ->
              rebuilds h' = S (rebuilds h) -> errors h' = errors h ->
              let '(rc, x', h'') := finish_init y g' h' in
              kept x x' /\ rebuilds h'' = S (rebuilds h) /\
              ((rc = 0 /\ initialized x' = 1 /\ errors h'' = errors h) \/
               (rc = -1 /\ failed_state x' /\ errors h'' = S (errors h)))).
    { intros y g' h' Hky Hpy Hiy Hr' He'.
      pose proof (finish_init_spec y g' h') as Hf.
      destruct (finish_init y g' h') as [[rc x'] h''].
      destruct Hf as (Hk2 & Hr'' & Hcase); [exact Hiy | |].
      { apply (Hfail (set_gfp None y)); [reflexivity | exact Hpy | fields; exact Hiy]. }
      split; [|split; [lia|]].
      - apply (kept_trans x y); assumption.
      - destruct Hcase as [(?&?&?)|(?&?&?)]; [left|right]; repeat split; auto; try lia;
          match goal with H : failed_state _ |- _ => apply H end. }
    match goal with |- context [if ?c then _ else _] => destruct c eqn:Hrc end.
    + match goal with |- context [if ?c then _ else _] => destruct c eqn:Hq end.
      * match goal with |- context [if ?c then _ else _] => destruct c eqn:Hrc2 end.
        -- cbv beta iota zeta. split; [unfold kept, same_config in *; fields; exact Hk|]. split; [cbn [rebuilds error post]; lia|]. right.
           split; [reflexivity|].
           split; [apply Hfail; unfold same_pipeline; fields; repeat split; exact Hi
                  |cbn [errors error post]; lia].
        -- apply Hfin;
          [unfold kept, same_config in *; fields; exact Hk
          |unfold same_pipeline; fields; repeat split | fields; exact Hi | |];
             cbn [errors rebuilds error post]; lia.
      * cbv beta iota zeta. split; [unfold kept, same_config in *; fields; exact Hk|]. split; [cbn [rebuilds error post]; lia|]. right.
        split; [reflexivity|].
        split; [apply Hfail; unfold same_pipeline; fields; repeat split; exact Hi
               |cbn [errors error post]; lia].
    + apply Hfin;
          [unfold kept, same_config in *; fields; exact Hk
          |unfold same_pipeline; fields; repeat split | fields; exact Hi | |];
        cbn [errors rebuilds error post]; lia.
  - cbv beta iota zeta. split; [exact Hk|]. split; [cbn [rebuilds error post]; lia|]. right.
    split; [reflexivity|]. split; [split; [exact Hi|exact Ht]|cbn [errors error post]; lia].
Qed.


Lemma emitted_post_if c s h : emitted (post_if c s h) = emitted h.
Proof. destruct c; reflexivity. Qed.

(** No entry of the bitrate table is low enough for the fallback guard
    [QUALITY_BITRATES[x->quality] <= 16] of line 312. *)
Lemma no_fallback_bitrate (q : Z) :
  0 <= q <= 9 -> (QUALITY_BITRATES q <=? 16) = false.
Proof.
  intros Hq.
  assert (Hc : q = 0 \/ q = 1 \/ q = 2 \/ q = 3 \/ q = 4 \/
               q = 5 \/ q = 6 \/ q = 7 \/ q = 8 \/ q = 9) by lia.
  repeat (destruct Hc as [-> | Hc]; [reflexivity|]). subst q. reflexivity.
Qed.

Lemma In_lame_set (a : lame_param * Z) p v g : In a g -> In a (lame_set p v g).
Proof. intros H. unfold lame_set. apply in_or_app. left. exact H. Qed.

Lemma In_if_lame_set (a : lame_param * Z) (c : bool) (f : lame_global_flags -> lame_global_flags) g :
  (forall g', In a g' -> In a (f g')) ->
  In a g -> In a (if c then f g else g).
Proof. intros Hf H. destruct c; auto. Qed.

Lemma configure_encoder_brate (x : t_mp3codec) (h : history) :
  In (brate, QUALITY_BITRATES (quality x)) (fst (configure_encoder x h)).
Proof.
  unfold configure_encoder. cbn [fst].
  apply In_lame_set.
  apply (In_if_lame_set _ _ (lame_set highpassfreq 100)); [intros; now apply In_lame_set|].
  apply (In_if_lame_set _ _ (lame_set lowpassfreq _)); [intros; now apply In_lame_set|].
  apply (In_if_lame_set _ _ (fun g => lame_set experimentalY 1 (lame_set experimentalX 9 g)));
    [intros; now do 2 apply In_lame_set|].
  apply (In_if_lame_set _ _ (lame_set emphasis 1)); [intros; now apply In_lame_set|].
  apply (In_if_lame_set _ _
           (fun g => lame_set no_short_blocks 0 (lame_set ATHshort 1 (lame_set ATHonly 1 g))));
    [intros; now do 3 apply In_lame_set|].
  apply (In_if_lame_set _ _ (lame_set force_ms 1)); [intros; now apply In_lame_set|].
  destruct (_ <=? 128); do 2 apply In_lame_set;
    unfold lame_set; apply in_or_app; right; left; reflexivity.
Qed.

Lemma finish_init_ok (x : t_mp3codec) (g : lame_global_flags) (h : history) :
  gfp x = Some g ->
  let '(rc, x', h') := finish_init x g h in
  rc = 0 ->
  freshly_initialized x' /\ gfp x' = Some g /\
  exists hq, hq `suffix_of` h' /\
    lame_encoder_delay x' = lame_get_encoder_delay hq g.
Proof.
  intros Hg. unfold finish_init.
  destruct (hip_decode_init _); cbn [negb]; [|discriminate].
  intros _. unfold freshly_initialized. fields.
  split; [|split; [exact Hg|]].
  - repeat split; eauto.
  - eexists. split; [|reflexivity]. unfold post.
    do 1 apply suffix_cons_r. reflexivity.
Qed.

Lemma init_processor_ok (x : t_mp3codec) (h : history) :
  let '(rc, x', h') := mp3codec_init_processor x h in
  rc = 0 ->
  freshly_initialized x' /\
  exists g hq, gfp x' = Some g /\ hq `suffix_of` h' /\
    lame_encoder_delay x' = lame_get_encoder_delay hq g.
Proof.
  unfold mp3codec_init_processor.
  destruct (mp3codec_cleanup_processor x h) as [x0 h0].
  assert (Hfin : forall y g' h', gfp y = Some g' ->
            let '(rc, x', h'') := finish_init y g' h' in
            rc = 0 ->
            freshly_initialized x' /\
            exists g hq, gfp x' = Some g /\ hq `suffix_of` h'' /\
              lame_encoder_delay x' = lame_get_encoder_delay hq g).
  { intros y g' h' Hy. pose proof (finish_init_ok y g' h' Hy) as Hf.
    destruct (finish_init y g' h') as [[rc x'] h''].
    intros Hrc. destruct (Hf Hrc) as (Hfresh & Hg & hq & Hs & Hd).
    split; [exact Hfresh|]. exists g', hq. auto. }
  destruct (lame_init h0); cbn [negb]; [|discriminate].
  destruct (configure_encoder x0 (Ev_lame_init true :: h0)) as [g h1].
  repeat match goal with
  | |- context [if ?c then _ else _] => destruct c
  end; try discriminate; apply Hfin; reflexivity.
Qed.

(** When the engine rejects the settings of a quality in the table, the
    initializer gives up at once. *)
Lemma init_processor_rejected (x : t_mp3codec) (h : history) :
  0 <= quality x <= 9 ->
  lame_init (snd (mp3codec_cleanup_processor x h)) = true ->
  let (h1, g) := first_init_params_call x h in
  lame_init_params h1 g < 0 ->
  mp3codec_init_processor x h =
    (-1, set_gfp None (set_gfp (Some g) (fst (mp3codec_cleanup_processor x h))),
     Ev_lame_close
       :: Ev_error "mp3codec~: Failed to set LAME parameters for %d kbps"
       :: Ev_lame_init_params g (lame_init_params h1 g) :: h1).
Proof.
  intros Hq. unfold first_init_params_call, mp3codec_init_processor.
  pose proof (cleanup_spec x h) as Hc.
  destruct (mp3codec_cleanup_processor x h) as [x0 h0]. cbn [fst snd].
  destruct Hc as ((Hcfg & _) & _).
  intros ->. cbn [negb].
  destruct (configure_encoder x0 (Ev_lame_init true :: h0)) as [g h1].
  intros Hrc. apply Z.ltb_lt in Hrc. rewrite Hrc. fields.
  destruct Hcfg as (Hqual & _). rewrite Hqual.
  rewrite (no_fallback_bitrate _ Hq). reflexivity.
Qed.

(** ** The handlers *)














Lemma quality_unchanged (x : t_mp3codec) (n : Z) (h : history) :
  CLAMP n 0 9 = quality x ->
  mp3codec_quality x n h =
    (set_initialized 1 (set_quality (quality x) (set_initialized 0 x)),
     post "mp3codec~: Quality unchanged at %ld (%d kbps CBR)"
       (Ev_systhread_sleep 50 :: h)).
Proof.
  intros Hq. unfold mp3codec_quality. fields. rewrite Hq.
  rewrite Z.eqb_refl. reflexivity.
Qed.

End ControlPlane.

(** * Loops and arrays *)

Section Loops.

Lemma for_loop_from_snoc {S : Type} (body : Z -> S -> S) (n : nat) (i : Z) (s : S) :
  for_loop_from (Datatypes.S n) i body s =
  body (i + Z.of_nat n) (for_loop_from n i body s).
Proof.
  revert i s. induction n as [|n IH]; intros i s.
  - cbn [for_loop_from]. f_equal. lia.
  - change (for_loop_from (Datatypes.S (Datatypes.S n)) i body s)
      with (for_loop_from (Datatypes.S n) (i + 1) body (body i s)).
    rewrite IH. cbn [for_loop_from]. f_equal. lia.
Qed.

(** A loop whose body treats the two halves of a pair separately is a pair
    of loops. *)
Lemma for_loop_from_pair {A B : Type} (f : Z -> A -> A) (g : Z -> B -> B)
    (n : nat) (i : Z) (a : A) (b : B) :
  for_loop_from n i (fun j s => (f j (fst s), g j (snd s))) (a, b) =
  (for_loop_from n i f a, for_loop_from n i g b).
Proof.
  revert i a b. induction n as [|n IH]; intros i a b; [reflexivity|].
  cbn [for_loop_from fst snd]. apply IH.
Qed.

Lemma for_loop_nonpos {S : Type} (lo hi : Z) (body : Z -> S -> S) (s : S) :
  hi <= lo -> for_loop lo hi body s = s.
Proof.
  intros H. unfold for_loop. replace (Z.to_nat (hi - lo)) with O by lia. reflexivity.
Qed.

Lemma array_set_nonneg {A : Type} (a : list A) (i : Z) (v : A) :
  0 <= i -> array_set a i v = <[Z.to_nat i := v]> a.
Proof. intros H. unfold array_set. destruct (Z.ltb_spec i 0); [lia|reflexivity]. Qed.

Lemma array_get_nonneg {A : Type} (a : list A) (i : Z) (d : A) :
  0 <= i -> array_get a i d = nth (Z.to_nat i) a d.
Proof. intros H. unfold array_get. destruct (Z.ltb_spec i 0); [lia|reflexivity]. Qed.

Lemma length_array_set {A : Type} (a : list A) (i : Z) (v : A) :
  length (array_set a i v) = length a.
Proof. unfold array_set. destruct (i <? 0); [reflexivity|apply length_insert]. Qed.

(** A loop that stores [f j] at index [off + j] for [j = lo, lo+1, ...]
    overwrites one segment of the array with those values, in order. *)
Lemma fill_loop {A : Type} (f : Z -> A) (off : Z) (n : nat) (lo : Z) (a : list A) :
  0 <= off + lo ->
  (Z.to_nat (off + lo) + n <= length a)%nat ->
  for_loop_from n lo (fun j b => array_set b (off + j) (f j)) a =
  take (Z.to_nat (off + lo)) a ++ map f (seqZ lo (Z.of_nat n))
    ++ drop (Z.to_nat (off + lo) + n) a.
Proof.
  revert lo a. induction n as [|n IH]; intros lo a Hlo Hlen.
  - cbn [for_loop_from]. rewrite seqZ_nil by lia. cbn [map app].
    rewrite Nat.add_0_r. symmetry. apply take_drop.
  - cbn [for_loop_from]. rewrite array_set_nonneg by lia.
    rewrite IH; [|lia|rewrite length_insert; lia].
    rewrite (seqZ_cons lo) by lia. cbn [map].
    replace (Z.pred (Z.of_nat (Datatypes.S n))) with (Z.of_nat n) by lia.
    replace (Z.to_nat (off + (lo + 1))) with (Datatypes.S (Z.to_nat (off + lo))) by lia.
    rewrite (take_S_r _ _ (f lo)) by (apply list_lookup_insert_eq; lia).
    rewrite take_insert_ge by lia.
    rewrite drop_insert_lt by lia.
    rewrite <- app_assoc. cbn [app]. do 3 f_equal. f_equal. lia.
Qed.

Lemma length_for_loop_fill {A : Type} (f : Z -> A) (off : Z) (n : nat) (lo : Z) (a : list A) :
  length (for_loop_from n lo (fun j b => array_set b (off + j) (f j)) a) = length a.
Proof.
  revert lo a. induction n as [|n IH]; intros lo a; [reflexivity|].
  cbn [for_loop_from]. rewrite IH. apply length_array_set.
Qed.

(** Reading a source array at consecutive indices reads one segment of it. *)
Lemma map_array_get {A B : Type} (g : A -> B) (src : list A) (d : A) (c lo : Z) (n : nat) :
  0 <= c + lo ->
  (Z.to_nat (c + lo) + n <= length src)%nat ->
  map (fun j => g (array_get src (c + j) d)) (seqZ lo (Z.of_nat n)) =
  map g (take n (drop (Z.to_nat (c + lo)) src)).
Proof.
  revert lo. induction n as [|n IH]; intros lo Hlo Hlen.
  - rewrite seqZ_nil by lia. reflexivity.
  - rewrite seqZ_cons by lia. cbn [map].
    replace (Z.pred (Z.of_nat (Datatypes.S n))) with (Z.of_nat n) by lia.
    rewrite IH by lia.
    rewrite array_get_nonneg by lia.
    destruct (nth_lookup_or_length src (Z.to_nat (c + lo)) d) as [Hl|Hl]; [|lia].
    rewrite (drop_S _ _ _ Hl). cbn [take map].
    replace (Z.to_nat (c + Z.succ lo)) with (Datatypes.S (Z.to_nat (c + lo))) by lia.
    reflexivity.
Qed.

Lemma map_const_seqZ {A : Type} (v : A) (lo : Z) (n : nat) :
  map (fun _ => v) (seqZ lo (Z.of_nat n)) = replicate n v.
Proof.
  revert lo. induction n as [|n IH]; intros lo.
  - rewrite seqZ_nil by lia. reflexivity.
  - rewrite seqZ_cons by lia. cbn [map replicate].
    replace (Z.pred (Z.of_nat (Datatypes.S n))) with (Z.of_nat n) by lia.
    rewrite IH. reflexivity.
Qed.

Lemma for_loop_from_ext {S : Type} (f g : Z -> S -> S) (n : nat) (i : Z) (s : S) :
  (forall j t, f j t = g j t) ->
  for_loop_from n i f s = for_loop_from n i g s.
Proof.
  intros H. revert i s. induction n as [|n IH]; intros i s; [reflexivity|].
  cbn [for_loop_from]. rewrite H. apply IH.
Qed.

(** The same for a loop that starts at 0 and stores at index [j] itself. *)
Lemma fill_loop0 {A : Type} (f : Z -> A) (n : Z) (a : list A) :
  0 <= n -> (Z.to_nat n <= length a)%nat ->
  for_loop 0 n (fun j b => array_set b j (f j)) a =
  map f (seqZ 0 n) ++ drop (Z.to_nat n) a.
Proof.
  intros Hn Hlen. unfold for_loop. rewrite Z.sub_0_r.
  rewrite (for_loop_from_ext _ (fun j b => array_set b (0 + j) (f j)))
    by (intros; reflexivity).
  rewrite fill_loop by (cbn; lia).
  cbn [Z.add Z.to_nat take app Nat.add]. rewrite Z2Nat.id by lia. reflexivity.
Qed.

Lemma write_silence_spec (outs0 outs1 : list double) (sampleframes : Z) :
  0 <= sampleframes ->
  (Z.to_nat sampleframes <= length outs0)%nat ->
  (Z.to_nat sampleframes <= length outs1)%nat ->
  write_silence outs0 outs1 sampleframes =
  (replicate (Z.to_nat sampleframes) dzero ++ drop (Z.to_nat sampleframes) outs0,
   replicate (Z.to_nat sampleframes) dzero ++ drop (Z.to_nat sampleframes) outs1).
Proof.
  intros Hn H0 H1. unfold write_silence, for_loop.
  rewrite (for_loop_from_pair (fun i a => array_set a i dzero)
             (fun i a => array_set a i dzero)).
  change (for_loop_from (Z.to_nat (sampleframes - 0)) 0
            (fun i a => array_set a i dzero))
    with (for_loop 0 sampleframes (fun i (a : list double) => array_set a i dzero)).
  rewrite !(fill_loop0 (fun _ => dzero)) by assumption.
  rewrite <- (Z2Nat.id sampleframes) at 1 3 by lia.
  rewrite map_const_seqZ. reflexivity.
Qed.

Lemma map_array_get0 {A B : Type} (g : A -> B) (src : list A) (d : A) (n : nat) :
  (n <= length src)%nat ->
  map (fun j => g (array_get src j d)) (seqZ 0 (Z.of_nat n)) = map g (take n src).
Proof.
  intros Hlen.
  change (fun j => g (array_get src j d)) with (fun j => g (array_get src (0 + j) d)).
  rewrite map_array_get by (cbn; lia). reflexivity.
Qed.

(** An invariant of the body is an invariant of the loop. *)
Lemma for_loop_from_inv {S : Type} (P : S -> Prop) (body : Z -> S -> S)
    (n : nat) (i : Z) (s : S) :
  P s -> (forall j t, P t -> P (body j t)) -> P (for_loop_from n i body s).
Proof.
  intros Hs Hstep. revert i s Hs. induction n as [|n IH]; intros i s Hs; [exact Hs|].
  cbn [for_loop_from]. apply IH. apply Hstep. exact Hs.
Qed.

End Loops.

(** * The perform routine: the silent paths *)

Section Silence.
Context {lame : Engine}.

(** What the perform routine returns for an object that is not
    initialized. *)
Lemma perform64_uninitialized (fuel : nat) (x : t_mp3codec)
    (ins0 ins1 : list double) (numins : Z) (outs0 outs1 : list double)
    (numouts sampleframes dc : Z) (h : history) :
  initialized x = 0 ->
  mp3codec_perform64 fuel x ins0 ins1 numins outs0 outs1 numouts sampleframes dc h =
  Returns (x, fst (write_silence outs0 outs1 sampleframes),
           snd (write_silence outs0 outs1 sampleframes), dc + 1, h).
Proof. intros Hi. unfold mp3codec_perform64. rewrite Hi. reflexivity. Qed.

(** What it returns for an initialized object, not in bypass, one of whose
    four checked buffer pointers is NULL. *)
Lemma perform64_null_buffers (fuel : nat) (x : t_mp3codec)
    (ins0 ins1 : list double) (numins : Z) (outs0 outs1 : list double)
    (numouts sampleframes dc : Z) (h : history) :
  initialized x <> 0 -> bypass x = 0 ->
  encode_buffer_left x = None \/ encode_buffer_right x = None \/
  output_ring_left x = None \/ output_ring_right x = None ->
  mp3codec_perform64 fuel x ins0 ins1 numins outs0 outs1 numouts sampleframes dc h =
  Returns (x, fst (write_silence outs0 outs1 sampleframes),
           snd (write_silence outs0 outs1 sampleframes), dc + 1,
           post_if (Z.rem (dc + 1) 100 =? 0)
             "mp3codec~: ERROR - NULL buffer pointers (encode_l=%p, encode_r=%p, ring_l=%p, ring_r=%p)"
             (post_if (Z.rem (dc + 1) 200 =? 0)
                "mp3codec~: perform64 called - sampleframes: %ld, encode_buffer_fill: %d" h)).
Proof.
  intros Hi Hb Hnull. unfold mp3codec_perform64.
  destruct (Z.eqb_spec (initialized x) 0) as [|_]; [contradiction|].
  rewrite Hb. cbn [nonzero Z.eqb negb].
  destruct (encode_buffer_left x), (encode_buffer_right x),
    (output_ring_left x), (output_ring_right x); try reflexivity.
  destruct Hnull as [?|[?|[?|?]]]; discriminate.
Qed.

(** What it returns in bypass. *)
Lemma perform64_bypass (fuel : nat) (x : t_mp3codec)
    (ins0 ins1 : list double) (outs0 outs1 : list double)
    (sampleframes dc : Z) (h : history) :
  initialized x <> 0 -> bypass x <> 0 ->
  mp3codec_perform64 fuel x ins0 ins1 2 outs0 outs1 2 sampleframes dc h =
  Returns (x, fst (write_bypass x ins0 ins1 outs0 outs1 sampleframes),
           snd (write_bypass x ins0 ins1 outs0 outs1 sampleframes), dc + 1,
           post_if (Z.rem (dc + 1) 1000 =? 0)
             "mp3codec~: **BYPASS MODE** - passing input directly to output"
             (post_if (Z.rem (dc + 1) 200 =? 0)
                "mp3codec~: perform64 called - sampleframes: %ld, encode_buffer_fill: %d" h)).
Proof.
  intros Hi Hb. unfold mp3codec_perform64.
  destruct (Z.eqb_spec (initialized x) 0) as [|_]; [contradiction|].
  unfold nonzero. destruct (Z.eqb_spec (bypass x) 0) as [|_]; [contradiction|].
  reflexivity.
Qed.

End Silence.

(** * The perform routine: encoding and decoding one frame *)

Section Frame.
Context {lame : Engine}.

Lemma encoded_frames_post_if c s h :
  encoded_frames (post_if c s h) = encoded_frames h.
Proof. destruct c; reflexivity. Qed.

Lemma ring_write_returns (x : t_mp3codec) (decoded_samples : Z) :
  back_present x ->
  exists x', ring_write x decoded_samples = Returns x' /\
    same_front x x' /\ back_present x' /\
    mp3_accumulator x' = mp3_accumulator x /\
    mp3_accumulator_fill x' = mp3_accumulator_fill x.
Proof.
  intros (Hacc & (pl & Hpl) & (pr & Hpr) & (rl & Hrl) & (rr & Hrr)).
  unfold ring_write. rewrite Hrl, Hrr, Hpl, Hpr. cbn [deref mbind outcome_bind].
  destruct (for_loop _ _ _ _) as [[rl' rr'] w'].
  eexists. split; [reflexivity|].
  unfold same_front, back_present. fields. rewrite Hpl, Hpr.
  repeat split; eauto.
Qed.

(** The decode stage always returns; it leaves the encode side alone, keeps
    every buffer in place, hands no frame to the encoder and prints no
    error. *)
Lemma decode_chunk_returns (x : t_mp3codec) (mp3_buffer : list byte)
    (mp3_bytes dc : Z) (h : history) :
  back_present x ->
  exists x' h', decode_chunk x mp3_buffer mp3_bytes dc h = Returns (x', h') /\
    same_front x x' /\ back_present x' /\
    encoded_frames h' = encoded_frames h /\ errors h' = errors h.
Proof.
  intros Hb. pose proof Hb as ((acc & Hacc) & (pl & Hpl) & (pr & Hpr) & (rl & Hrl) & (rr & Hrr)).
  unfold decode_chunk. rewrite Hacc, Hpl, Hpr. cbn [deref mbind outcome_bind].
  destruct (append_chunk _ _ _ _) as [acc1 fill1].
  destruct (hip_decode _ _ _ _ _) as [[d pl1] pr1].
  match goal with |- context [ring_write ?y d] =>
    destruct (ring_write_returns y d) as (x1 & Hw & Hf1 & Hb1 & _) end.
  { unfold back_present. fields. rewrite Hrl, Hrr. repeat split; eauto. }
  destruct (d >? 0).
  - rewrite Hw. cbn [mbind outcome_bind]. do 2 eexists. split; [reflexivity|].
    rewrite encoded_frames_post_if, errors_post_if.
    unfold same_front, back_present in *. fields. fields_in Hf1. auto.
  - destruct (d =? 0).
    + do 2 eexists. split; [reflexivity|].
      rewrite encoded_frames_post_if, errors_post_if.
      unfold same_front, back_present. fields. rewrite Hrl, Hrr.
      repeat split; eauto.
    + do 2 eexists. split; [reflexivity|].
      rewrite encoded_frames_post_if, errors_post_if.
      unfold same_front, back_present. fields. rewrite Hrl, Hrr.
      repeat split; eauto.
Qed.

Lemma frame_to_pcm_spec (buf : list float) :
  (Z.to_nat MP3_FRAME_SIZE <= length buf)%nat ->
  frame_to_pcm buf = map float_to_short (take (Z.to_nat MP3_FRAME_SIZE) buf).
Proof.
  intros Hlen. unfold frame_to_pcm.
  rewrite (fill_loop0 (fun i => float_to_short (array_get buf i fzero)));
    [|unfold MP3_FRAME_SIZE; lia|rewrite length_replicate; lia].
  rewrite drop_ge by (rewrite length_replicate; lia). rewrite app_nil_r.
  rewrite <- (Z2Nat.id MP3_FRAME_SIZE) at 1 by (unfold MP3_FRAME_SIZE; lia).
  apply map_array_get0. exact Hlen.
Qed.

Lemma copy_to_encode_buffer_spec (x : t_mp3codec) (ins0 ins1 : list double)
    (samples_processed samples_to_copy : Z) (el er : list float) :
  encode_buffer_left x = Some el -> encode_buffer_right x = Some er ->
  0 <= encode_buffer_fill x -> 0 <= samples_processed -> 0 <= samples_to_copy ->
  (Z.to_nat (encode_buffer_fill x + samples_to_copy) <= length el)%nat ->
  (Z.to_nat (encode_buffer_fill x + samples_to_copy) <= length er)%nat ->
  (Z.to_nat (samples_processed + samples_to_copy) <= length ins0)%nat ->
  (Z.to_nat (samples_processed + samples_to_copy) <= length ins1)%nat ->
  copy_to_encode_buffer x ins0 ins1 samples_processed samples_to_copy =
  Returns
    (set_encode_buffer_right
       (Some (take (Z.to_nat (encode_buffer_fill x)) er
              ++ map (fun s => float_of_double (dmul s (input_gain x)))
                   (take (Z.to_nat samples_to_copy)
                      (drop (Z.to_nat samples_processed) ins1))
              ++ drop (Z.to_nat (encode_buffer_fill x) + Z.to_nat samples_to_copy) er))
       (set_encode_buffer_left
          (Some (take (Z.to_nat (encode_buffer_fill x)) el
                 ++ map (fun s => float_of_double (dmul s (input_gain x)))
                      (take (Z.to_nat samples_to_copy)
                         (drop (Z.to_nat samples_processed) ins0))
                 ++ drop (Z.to_nat (encode_buffer_fill x) + Z.to_nat samples_to_copy) el))
          x)).
Proof.
  intros Hel Her Hf Hsp Hc Hll Hlr Hi0 Hi1.
  unfold copy_to_encode_buffer. rewrite Hel, Her. cbn [deref mbind outcome_bind].
  unfold for_loop. rewrite Z.sub_0_r.
  rewrite (for_loop_from_pair
             (fun i b => array_set b (encode_buffer_fill x + i)
                (float_of_double (dmul (array_get ins0 (samples_processed + i) dzero)
                                   (input_gain x))))
             (fun i b => array_set b (encode_buffer_fill x + i)
                (float_of_double (dmul (array_get ins1 (samples_processed + i) dzero)
                                   (input_gain x))))).
  cbn [fst snd].
  rewrite !(fill_loop (fun i => float_of_double (dmul (array_get _ (samples_processed + i) dzero)
                                                  (input_gain x))))
    by lia.
  rewrite !Z.add_0_r.
  rewrite !Z2Nat.id by lia.
  pose proof (map_array_get (fun s => float_of_double (dmul s (input_gain x)))
                ins0 dzero samples_processed 0 (Z.to_nat samples_to_copy)) as H0.
  pose proof (map_array_get (fun s => float_of_double (dmul s (input_gain x)))
                ins1 dzero samples_processed 0 (Z.to_nat samples_to_copy)) as H1.
  rewrite Z.add_0_r, Z2Nat.id in H0, H1 by lia.
  rewrite H0, H1 by lia. reflexivity.
Qed.

(** Encoding a full buffer: the engine receives the first [MP3_FRAME_SIZE]
    entries of each encode buffer, converted to PCM; the fill goes back to 0
    and the decode stage runs if bytes came out. *)
Lemma encode_frame_spec (x : t_mp3codec) (g : lame_global_flags) (dc : Z)
    (h : history) (el er : list float) :
  encode_buffer_left x = Some el -> encode_buffer_right x = Some er ->
  (Z.to_nat MP3_FRAME_SIZE <= length el)%nat ->
  (Z.to_nat MP3_FRAME_SIZE <= length er)%nat ->
  back_present x ->
  exists x' h', encode_frame x g dc h = Returns (x', h') /\
    same_front (set_encode_buffer_fill 0 x) x' /\ back_present x' /\
    encoded_frames h' =
      encoded_frames h
      ++ [(map float_to_short (take (Z.to_nat MP3_FRAME_SIZE) el),
           map float_to_short (take (Z.to_nat MP3_FRAME_SIZE) er))] /\
    errors h' = errors h.
Proof.
  intros Hel Her Hll Hlr Hb.
  unfold encode_frame. rewrite Hel, Her. cbn [deref mbind outcome_bind].
  rewrite !frame_to_pcm_spec by assumption.
  destruct (lame_encode_buffer _ _ _ _ _ _) as [mp3_bytes mp3_buffer].
  destruct (mp3_bytes >? 0).
  - match goal with |- context [decode_chunk ?y ?b ?n ?d ?hh] =>
      destruct (decode_chunk_returns y b n d hh) as (x' & h' & Hd & Hf & Hb' & Hfr & He)
    end.
    { unfold back_present in *. fields. exact Hb. }
    exists x', h'. split; [exact Hd|]. split; [exact Hf|]. split; [exact Hb'|].
    rewrite Hfr, He, !encoded_frames_post_if, !errors_post_if. split; reflexivity.
  - do 2 eexists. split; [reflexivity|].
    rewrite !encoded_frames_post_if, !errors_post_if.
    split; [repeat split|]. split; [|split; reflexivity].
    unfold back_present in *. fields. exact Hb.
Qed.

Lemma take_filled {A : Type} (a vs rest : list A) (p n : nat) :
  (p <= length a)%nat -> n = (p + length vs)%nat ->
  take n (take p a ++ vs ++ rest) = take p a ++ vs.
Proof.
  intros Hp ->. rewrite app_assoc. apply take_app_length'.
  rewrite length_app, length_take_le by lia. reflexivity.
Qed.

Lemma length_filled {A : Type} (a vs : list A) (p : nat) :
  (p + length vs <= length a)%nat ->
  length (take p a ++ vs ++ drop (p + length vs) a) = length a.
Proof.
  intros H. rewrite !length_app, length_take_le, length_drop by lia. lia.
Qed.

Lemma length_take_drop {A : Type} (l : list A) (i n : nat) :
  (i + n <= length l)%nat -> length (take n (drop i l)) = n.
Proof. intros H. rewrite length_take_le; [reflexivity|]. rewrite length_drop. lia. Qed.

Lemma pipeline_ready_same_front (x x' : t_mp3codec) :
  front_ready x -> same_front x x' -> back_present x' -> pipeline_ready x'.
Proof.
  intros Hf Hs Hb. split; [|exact Hb].
  unfold front_ready, same_front in *.
  destruct Hs as (-> & -> & -> & -> & _ & _ & _ & -> & -> & _). exact Hf.
Qed.

(** One turn of the loop from a fill below the frame size: it consumes
    [min (what is left of the block) (what fits in the buffer)] samples, at
    least one, and does not leave the loop. *)
Lemma accumulate_spec (x : t_mp3codec) (ins0 ins1 : list double)
    (sampleframes samples_processed dc : Z) (h : history) :
  pipeline_ready x ->
  0 <= encode_buffer_fill x < MP3_FRAME_SIZE ->
  0 <= samples_processed < sampleframes ->
  (Z.to_nat sampleframes <= length ins0)%nat ->
  (Z.to_nat sampleframes <= length ins1)%nat ->
  exists c x' h',
    c = Z.min (sampleframes - samples_processed) (MP3_FRAME_SIZE - encode_buffer_fill x) /\
    accumulate x ins0 ins1 sampleframes samples_processed dc h =
      Returns (x', samples_processed + c, false, h') /\
    accumulated x h
      (take (Z.to_nat c) (drop (Z.to_nat samples_processed) ins0))
      (take (Z.to_nat c) (drop (Z.to_nat samples_processed) ins1))
      x' h'.
Proof.
  intros [Hfront Hback] Hfill Hsp Hl0 Hl1.
  pose proof Hfront as (Hinit & Hbyp & (g & Hg) & (d & Hd) &
                        (el & Hel & Hlel) & (er & Her & Hler)).
  set (c := Z.min (sampleframes - samples_processed)
              (MP3_FRAME_SIZE - encode_buffer_fill x)).
  assert (Hc : 0 < c /\ c <= sampleframes - samples_processed /\
               c <= MP3_FRAME_SIZE - encode_buffer_fill x) by (subst c; lia).
  assert (HF : 0 < MP3_FRAME_SIZE) by reflexivity.
  unfold accumulate.
  assert (Hif : (if sampleframes - samples_processed >? MP3_FRAME_SIZE - encode_buffer_fill x
                 then MP3_FRAME_SIZE - encode_buffer_fill x
                 else sampleframes - samples_processed) = c).
  { subst c. destruct (Z.gtb_spec (sampleframes - samples_processed)
                         (MP3_FRAME_SIZE - encode_buffer_fill x)); lia. }
  rewrite Hif. clearbody c.
  rewrite (copy_to_encode_buffer_spec x ins0 ins1 samples_processed c el er)
    by (try assumption; lia).
  cbn [mbind outcome_bind]. fields.
  set (sl := map (fun s => float_of_double (dmul s (input_gain x)))
               (take (Z.to_nat c) (drop (Z.to_nat samples_processed) ins0))).
  set (sr := map (fun s => float_of_double (dmul s (input_gain x)))
               (take (Z.to_nat c) (drop (Z.to_nat samples_processed) ins1))).
  assert (Hsl : length sl = Z.to_nat c).
  { subst sl. rewrite length_map. apply length_take_drop. lia. }
  assert (Hsr : length sr = Z.to_nat c).
  { subst sr. rewrite length_map. apply length_take_drop. lia. }
  set (el' := take _ el ++ sl ++ drop _ el).
  set (er' := take _ er ++ sr ++ drop _ er).
  assert (Hlel' : length el' = length el).
  { subst el'. rewrite <- Hsl. apply length_filled. lia. }
  assert (Hler' : length er' = length er).
  { subst er'. rewrite <- Hsr. apply length_filled. lia. }
  assert (Htl : take (Z.to_nat (encode_buffer_fill x + c)) el' =
                take (Z.to_nat (encode_buffer_fill x)) el ++ sl).
  { subst el'. apply take_filled; lia. }
  assert (Htr : take (Z.to_nat (encode_buffer_fill x + c)) er' =
                take (Z.to_nat (encode_buffer_fill x)) er ++ sr).
  { subst er'. apply take_filled; lia. }
  assert (Hpl : map float_to_short sl =
                map (pcm_of_input (input_gain x))
                  (take (Z.to_nat c) (drop (Z.to_nat samples_processed) ins0))).
  { subst sl. rewrite map_map. reflexivity. }
  assert (Hpr : map float_to_short sr =
                map (pcm_of_input (input_gain x))
                  (take (Z.to_nat c) (drop (Z.to_nat samples_processed) ins1))).
  { subst sr. rewrite map_map. reflexivity. }
  clearbody el' er' sl sr.
  exists c.
  destruct (Z.geb_spec (encode_buffer_fill x + c) MP3_FRAME_SIZE) as [Hfull|Hpart].
  - assert (Hsum : encode_buffer_fill x + c = MP3_FRAME_SIZE) by lia.
    destruct (Z.eqb_spec (initialized x) 0) as [|_]; [contradiction|].
    rewrite Hg, Hd.
    match goal with |- context [encode_frame ?y g ?dd ?hh] =>
      destruct (encode_frame_spec y g dd hh el' er')
        as (x' & h' & He & Hsf & Hb' & Hfr & _)
    end; try (fields; reflexivity); try lia.
    { unfold back_present in *. fields. exact Hback. }
    exists x', h'. split; [reflexivity|].
    rewrite He. cbn [mbind outcome_bind]. split; [reflexivity|].
    destruct Hsf as (Hi' & Hby' & Hg' & Hh' & Hgain & _ & _ & Hel' & Her' & Hfill').
    fields_in Hi'. fields_in Hby'. fields_in Hg'. fields_in Hh'. fields_in Hgain.
    fields_in Hel'. fields_in Her'. fields_in Hfill'.
    split; [|split; [exact Hgain|split; [rewrite Hfill'; lia|]]].
    { split; [|exact Hb']. unfold front_ready.
      rewrite Hi', Hby', Hg', Hh', Hel', Her'.
      repeat split; eauto; eexists; (split; [reflexivity|lia]). }
    rewrite encoded_frames_post_if in Hfr.
    eexists. split; [exact Hfr|]. split.
    { constructor; [|constructor]. unfold full_frame. cbn [fst snd].
      rewrite !length_map, !length_take_le by lia. split; reflexivity. }
    unfold pending_left, pending_right. rewrite Hel', Her', Hfill', Hel, Her.
    cbn [map fst snd concat take Z.to_nat]. rewrite !app_nil_r.
    rewrite <- Hsum, Htl, Htr, !map_app, Hpl, Hpr. split; reflexivity.
  - do 2 eexists. split; [reflexivity|]. split; [reflexivity|].
    split; [|split; [reflexivity|split; [fields; lia|]]].
    { split.
      - unfold front_ready. fields. rewrite Hg, Hd.
        repeat split; eauto; eexists; (split; [reflexivity|lia]).
      - unfold back_present in *. fields. exact Hback. }
    exists []. split; [rewrite app_nil_r; reflexivity|]. split; [constructor|].
    unfold pending_left, pending_right. fields. rewrite Hel, Her.
    cbn [map concat app]. rewrite Htl, Htr, !map_app, Hpl, Hpr. split; reflexivity.
Qed.

(** ** The accumulation loop *)

Lemma accumulated_refl (x : t_mp3codec) (h : history) :
  pipeline_ready x -> 0 <= encode_buffer_fill x < MP3_FRAME_SIZE ->
  accumulated x h [] [] x h.
Proof.
  intros Hr Hf. split; [exact Hr|]. split; [reflexivity|]. split; [exact Hf|].
  exists []. rewrite !app_nil_r. repeat split. constructor.
Qed.

Lemma accumulated_trans (x x1 x2 : t_mp3codec) (h h1 h2 : history)
    (a b a' b' : list double) :
  accumulated x h a b x1 h1 -> accumulated x1 h1 a' b' x2 h2 ->
  accumulated x h (a ++ a') (b ++ b') x2 h2.
Proof.
  intros (_ & Hg1 & _ & fs1 & Hh1 & Hfull1 & Hl1 & Hr1)
         (Hr2 & Hg2 & Hf2 & fs2 & Hh2 & Hfull2 & Hl2 & Hr2').
  split; [exact Hr2|]. split; [congruence|]. split; [exact Hf2|].
  exists (fs1 ++ fs2). split; [rewrite Hh2, Hh1, app_assoc; reflexivity|].
  split; [apply Forall_app; split; assumption|].
  rewrite Hg1 in Hl2, Hr2'.
  rewrite !map_app, !concat_app, <- !app_assoc, Hl2, Hr2', !app_assoc, Hl1, Hr1.
  split; reflexivity.
Qed.

(** Steps that neither hand a frame to the encoder nor touch the encode
    side do not count. *)
Lemma accumulated_proper (x x' x'' : t_mp3codec) (h0 h h' h'' : history)
    (a b : list double) :
  encoded_frames h0 = encoded_frames h ->
  encoded_frames h'' = encoded_frames h' ->
  same_front x' x'' -> back_present x'' ->
  accumulated x h0 a b x' h' -> accumulated x h a b x'' h''.
Proof.
  intros Hh Hh' Hs Hb ([Hfr _] & Hg & Hf & fs & Hfs & Hfull & Hl & Hr).
  pose proof Hs as (Hi & Hby & Hgf & Hhp & Hgain & _ & _ & Hel & Her & Hfill).
  split; [apply (pipeline_ready_same_front x'); assumption|].
  split; [congruence|]. split; [rewrite Hfill; exact Hf|].
  exists fs. split; [congruence|]. split; [exact Hfull|].
  unfold pending_left, pending_right in *. rewrite Hel, Her, Hfill. auto.
Qed.

Lemma process_input_spec (ins0 ins1 : list double) (sampleframes dc : Z) (fuel : nat) :
  forall (x : t_mp3codec) (samples_processed : Z) (h : history),
  pipeline_ready x ->
  0 <= encode_buffer_fill x < MP3_FRAME_SIZE ->
  0 <= samples_processed <= sampleframes ->
  (Z.to_nat sampleframes <= length ins0)%nat ->
  (Z.to_nat sampleframes <= length ins1)%nat ->
  (Z.to_nat (sampleframes - samples_processed) <= fuel)%nat ->
  exists x' h',
    process_input fuel x ins0 ins1 sampleframes samples_processed dc h =
      Returns (x', h') /\
    accumulated x h
      (take (Z.to_nat (sampleframes - samples_processed))
         (drop (Z.to_nat samples_processed) ins0))
      (take (Z.to_nat (sampleframes - samples_processed))
         (drop (Z.to_nat samples_processed) ins1))
      x' h'.
Proof.
  induction fuel as [|fuel IH]; intros x sp h Hready Hfill Hsp Hl0 Hl1 Hfuel.
  - assert (sp = sampleframes) as -> by lia.
    cbn [process_input]. rewrite Z.ltb_irrefl. rewrite Z.sub_diag.
    exists x, h. split; [reflexivity|]. apply accumulated_refl; assumption.
  - cbn [process_input]. destruct (Z.ltb_spec sp sampleframes) as [Hlt|Hge].
    + destruct (accumulate_spec x ins0 ins1 sampleframes sp dc h)
        as (c & x1 & h1 & Hc & Hacc & Hstep); try assumption; try lia.
      rewrite Hacc. cbn [mbind outcome_bind].
      pose proof Hstep as (Hready1 & _ & Hfill1 & _).
      destruct (IH x1 (sp + c) h1) as (x' & h' & Hrun & Hrest);
        try assumption; try lia.
      exists x', h'. split; [exact Hrun|].
      pose proof (accumulated_trans _ _ _ _ _ _ _ _ _ _ Hstep Hrest) as Hall.
      replace (Z.to_nat (sp + c)) with (Z.to_nat sp + Z.to_nat c)%nat in Hall by lia.
      rewrite <- (drop_drop ins0), <- (drop_drop ins1), !take_take_drop in Hall.
      replace (Z.to_nat c + Z.to_nat (sampleframes - (sp + c)))%nat
        with (Z.to_nat (sampleframes - sp)) in Hall by lia.
      exact Hall.
    + assert (sp = sampleframes) as -> by lia. rewrite Z.sub_diag.
      exists x, h. split; [reflexivity|]. apply accumulated_refl; assumption.
Qed.

(** Reading the ring changes the read cursor and nothing else of the
    object; it prints at most console lines. *)
Lemma ring_read_returns (x : t_mp3codec) (outs0 outs1 : list double)
    (sampleframes dc : Z) (h : history) :
  (exists rl, output_ring_left x = Some rl) ->
  (exists rr, output_ring_right x = Some rr) ->
  exists rp o0 o1 h',
    ring_read x outs0 outs1 sampleframes dc h =
      Returns (set_ring_read_pos rp x, o0, o1, h') /\
    encoded_frames h' = encoded_frames h /\ errors h' = errors h.
Proof.
  intros (rl & Hrl) (rr & Hrr). unfold ring_read. rewrite Hrl, Hrr.
  cbn [deref mbind outcome_bind].
  match goal with |- context [for_loop ?lo ?hi ?body ?s] =>
    pose proof (for_loop_from_inv
                  (fun r : Z * list double * list double * history =>
                     encoded_frames (snd r) = encoded_frames h /\
                     errors (snd r) = errors h)
                  body (Z.to_nat (hi - lo)) lo s) as Hinv;
    change (for_loop_from (Z.to_nat (hi - lo)) lo body s)
      with (for_loop lo hi body s) in Hinv;
    destruct (for_loop lo hi body s) as [[[rp o0] o1] h']
  end.
  exists rp, o0, o1, h'. split; [reflexivity|]. apply Hinv; [split; reflexivity|].
  intros j [[[rp0 a0] a1] h0] [Hf He]. cbn [snd] in *.
  destruct (_ || _); cbn [snd];
    rewrite ?encoded_frames_post_if, ?errors_post_if; auto.
Qed.

(** A call of the perform routine on a working pipeline returns, and
    accumulates the block. *)
Lemma perform64_accumulates (fuel : nat) (x : t_mp3codec)
    (ins0 ins1 : list double) (numins : Z) (outs0 outs1 : list double)
    (numouts sampleframes dc : Z) (h : history) :
  pipeline_ready x ->
  0 <= encode_buffer_fill x < MP3_FRAME_SIZE ->
  0 <= sampleframes ->
  (Z.to_nat sampleframes <= length ins0)%nat ->
  (Z.to_nat sampleframes <= length ins1)%nat ->
  (Z.to_nat sampleframes <= fuel)%nat ->
  exists x' o0 o1 h',
    mp3codec_perform64 fuel x ins0 ins1 numins outs0 outs1 numouts sampleframes dc h =
      Returns (x', o0, o1, dc + 1, h') /\
    accumulated x h (take (Z.to_nat sampleframes) ins0)
      (take (Z.to_nat sampleframes) ins1) x' h'.
Proof.
  intros Hready Hfill Hsf Hl0 Hl1 Hfuel.
  pose proof Hready as ((Hinit & Hbyp & _ & _ & (el & Hel & _) & (er & Her & _)) &
                        (_ & _ & _ & (rl & Hrl) & (rr & Hrr))).
  unfold mp3codec_perform64.
  destruct (Z.eqb_spec (initialized x) 0) as [|_]; [contradiction|].
  rewrite Hbyp. cbn [nonzero Z.eqb negb]. rewrite Hel, Her, Hrl, Hrr.
  match goal with |- context [process_input fuel x ins0 ins1 sampleframes 0 ?d ?hh] =>
    destruct (process_input_spec ins0 ins1 sampleframes d fuel x 0 hh)
      as (x1 & h1 & Hrun & Hacc); try assumption; try lia
  end.
  rewrite Hrun. cbn [mbind outcome_bind].
  rewrite Z.sub_0_r in Hacc. cbn [Z.to_nat drop] in Hacc.
  pose proof Hacc as ((_ & (_ & _ & _ & Hrl1 & Hrr1)) & _).
  destruct (ring_read_returns x1 outs0 outs1 sampleframes (dc + 1) h1 Hrl1 Hrr1)
    as (rp & o0 & o1 & h' & Hread & Hfr & _).
  rewrite Hread. cbn [mbind outcome_bind].
  exists (set_ring_read_pos rp x1), o0, o1, h'. split; [reflexivity|].
  eapply accumulated_proper; [| | | |exact Hacc].
  - apply encoded_frames_post_if.
  - exact Hfr.
  - repeat split.
  - destruct Hacc as ((_ & Hb) & _). unfold back_present in *. fields. exact Hb.
Qed.

Lemma host_run_accumulates (blocks : list (list double * list double)) :
  forall (x : t_mp3codec) (dc : Z) (h : history),
  Forall (fun b => length (fst b) = length (snd b)) blocks ->
  pipeline_ready x ->
  0 <= encode_buffer_fill x < MP3_FRAME_SIZE ->
  exists x' dc' h',
    host_run x dc h blocks = Returns (x', dc', h') /\
    accumulated x h (concat (map fst blocks)) (concat (map snd blocks)) x' h'.
Proof.
  induction blocks as [|[b0 b1] blocks IH]; intros x dc h Hlen Hready Hfill.
  - exists x, dc, h. split; [reflexivity|]. apply accumulated_refl; assumption.
  - apply Forall_cons in Hlen as [Hb Hlen]. cbn [fst snd] in Hb.
    cbn [host_run fst snd].
    destruct (perform64_accumulates (length b0) x b0 b1 2
                (replicate (length b0) dzero) (replicate (length b0) dzero) 2
                (Z.of_nat (length b0)) dc h)
      as (x1 & o0 & o1 & h1 & Hrun & Hacc); try assumption; try lia.
    rewrite Hrun. cbn [mbind outcome_bind].
    rewrite Nat2Z.id in Hacc. rewrite (take_ge b0), (take_ge b1) in Hacc by lia.
    pose proof Hacc as (Hready1 & _ & Hfill1 & _).
    destruct (IH x1 (dc + 1) h1 Hlen Hready1 Hfill1) as (x' & dc' & h' & Hrest & Hacc').
    exists x', dc', h'. split; [exact Hrest|].
    cbn [map concat fst snd].
    apply (accumulated_trans _ _ _ _ _ _ _ _ _ _ Hacc Hacc').
Qed.

Lemma length_concat_full (fs : list (list short * list short)) :
  Forall full_frame fs ->
  length (concat (map fst fs)) = (length fs * Z.to_nat MP3_FRAME_SIZE)%nat /\
  length (concat (map snd fs)) = (length fs * Z.to_nat MP3_FRAME_SIZE)%nat.
Proof.
  induction 1 as [|f fs [Hl Hr] _ [IHl IHr]]; [split; reflexivity|].
  cbn [map concat length]. rewrite !length_app, Hl, Hr, IHl, IHr. split; lia.
Qed.

Lemma length_pending (x : t_mp3codec) :
  front_ready x -> 0 <= encode_buffer_fill x < MP3_FRAME_SIZE ->
  length (pending_left x) = Z.to_nat (encode_buffer_fill x) /\
  length (pending_right x) = Z.to_nat (encode_buffer_fill x).
Proof.
  intros (_ & _ & _ & _ & (el & Hel & Hlel) & (er & Her & Hler)) Hfill.
  unfold pending_left, pending_right. rewrite Hel, Her.
  rewrite !length_take_le by lia. split; reflexivity.
Qed.

(** A successful initialization leaves a working pipeline with an empty
    encode buffer, unless the object is in bypass. *)
Lemma freshly_initialized_ready (x : t_mp3codec) :
  freshly_initialized x -> bypass x = 0 ->
  pipeline_ready x /\ encode_buffer_fill x = 0.
Proof.
  intros (Hi & Hg & Hh & Hel & Her & Hacc & Hpl & Hpr & Hrl & Hrr & _ & Hfill & _) Hb.
  split; [|exact Hfill]. split.
  - split; [rewrite Hi; discriminate|]. split; [exact Hb|]. split; [exact Hg|].
    split; [eauto|]. unfold sysmem_newptrclear in *.
    split; eexists; (split; [eassumption|]); rewrite length_replicate;
      unfold PCM_BUFFER_SIZE, MP3_FRAME_SIZE; lia.
  - unfold back_present, sysmem_newptrclear in *. repeat split; eauto.
Qed.

(** C1.  On a working pipeline, for every sequence of host blocks whose
    lengths sum to [k] frames the perform routine returns on every block and
    hands exactly [k] frames to the encoder.  Every frame is complete (1152
    samples per channel).  Read in order, the frames followed by the samples
    still waiting in the encode buffer are the samples that were waiting
    before followed by the input samples in their original order, each scaled
    by the input gain and converted to PCM; the fill ends where it started.
    In particular, from an empty encode buffer (as after initialization) the
    frames are exactly the gain-scaled input, in order. *)
Theorem C1_frame_accumulator (x : t_mp3codec) (dc : Z) (h : history)
    (blocks : list (list double * list double)) (k : nat) :
  pipeline_ready x ->
  0 <= encode_buffer_fill x < MP3_FRAME_SIZE ->
  Forall (fun b => length (fst b) = length (snd b)) blocks ->
  length (concat (map fst blocks)) = (k * Z.to_nat MP3_FRAME_SIZE)%nat ->
  exists x' dc' h' fs,
    host_run x dc h blocks = Returns (x', dc', h') /\
    encoded_frames h' = encoded_frames h ++ fs /\
    length fs = k /\
    Forall full_frame fs /\
    concat (map fst fs) ++ map float_to_short (pending_left x') =
      map float_to_short (pending_left x)
      ++ map (pcm_of_input (input_gain x)) (concat (map fst blocks)) /\
    concat (map snd fs) ++ map float_to_short (pending_right x') =
      map float_to_short (pending_right x)
      ++ map (pcm_of_input (input_gain x)) (concat (map snd blocks)) /\
    encode_buffer_fill x' = encode_buffer_fill x /\
    (encode_buffer_fill x = 0 ->
     concat (map fst fs) =
       map (pcm_of_input (input_gain x)) (concat (map fst blocks)) /\
     concat (map snd fs) =
       map (pcm_of_input (input_gain x)) (concat (map snd blocks))).
Proof.
  intros Hready Hfill Hlen Hsum.
  assert (HF : Z.to_nat MP3_FRAME_SIZE = 1152%nat) by reflexivity.
  destruct (host_run_accumulates blocks x dc h Hlen Hready Hfill)
    as (x' & dc' & h' & Hrun & Hacc).
  destruct Hacc as (Hready' & _ & Hfill' & fs & Hfs & Hfull & Hl & Hr).
  exists x', dc', h', fs. split; [exact Hrun|]. split; [exact Hfs|].
  destruct (length_pending x (proj1 Hready) Hfill) as [Hp _].
  destruct (length_pending x' (proj1 Hready') Hfill') as [Hp' _].
  destruct (length_concat_full fs Hfull) as [Hcl _].
  assert (Hcount : (length fs * 1152 + Z.to_nat (encode_buffer_fill x') =
                    Z.to_nat (encode_buffer_fill x) + k * 1152)%nat).
  { pose proof (f_equal (@length _) Hl) as Hll.
    rewrite !length_app, !length_map, Hcl, Hsum, Hp, Hp' in Hll. lia. }
  assert (Hsame : encode_buffer_fill x' = encode_buffer_fill x /\ length fs = k)
    by (unfold MP3_FRAME_SIZE in *; nia).
  destruct Hsame as [Hsame Hk].
  split; [exact Hk|]. split; [exact Hfull|]. split; [exact Hl|].
  split; [exact Hr|]. split; [exact Hsame|].
  intros Hzero.
  assert (Hnil : pending_left x = [] /\ pending_right x = [] /\
                 pending_left x' = [] /\ pending_right x' = []).
  { destruct (length_pending x (proj1 Hready) Hfill) as [H1 H2].
    destruct (length_pending x' (proj1 Hready') Hfill') as [H3 H4].
    rewrite Hsame in H3, H4. rewrite Hzero in H1, H2, H3, H4.
    repeat split; apply length_zero_iff_nil; assumption. }
  destruct Hnil as (Hn1 & Hn2 & Hn3 & Hn4).
  rewrite Hn1, Hn3 in Hl. rewrite Hn2, Hn4 in Hr.
  cbn [map app] in Hl, Hr. rewrite !app_nil_r in Hl, Hr. split; assumption.
Qed.


(** ** The byte accumulator *)

Lemma length_memcpy (dst : list byte) (off : Z) (src : list byte) (n : Z) :
  length (memcpy dst off src n) = length dst.
Proof. unfold memcpy, for_loop. apply length_for_loop_fill. Qed.

(** [memcpy] at offset [off] leaves the first [off] bytes alone. *)
Lemma take_memcpy (dst : list byte) (off : Z) (src : list byte) (n : Z) :
  0 <= off -> off + n <= Z.of_nat (length dst) ->
  take (Z.to_nat off) (memcpy dst off src n) = take (Z.to_nat off) dst.
Proof.
  intros Hoff Hlen. unfold memcpy.
  destruct (Z.le_gt_cases n 0) as [Hn|Hn]; [rewrite for_loop_nonpos by lia; reflexivity|].
  unfold for_loop. rewrite Z.sub_0_r.
  rewrite fill_loop by lia. rewrite Z.add_0_r.
  rewrite take_app_length'; [reflexivity|]. rewrite length_take_le; lia.
Qed.

Lemma length_append_chunk (acc : list byte) (fill : Z) (buf : list byte) (n : Z) :
  length (fst (append_chunk acc fill buf n)) = length acc.
Proof.
  unfold append_chunk. destruct (_ <? _); cbn [fst]; [apply length_memcpy|reflexivity].
Qed.

(** Appending a chunk keeps the bytes already staged where they are. *)
Lemma take_append_chunk (acc : list byte) (fill : Z) (buf : list byte) (n : Z) :
  0 <= fill -> length acc = Z.to_nat DECODE_BUFFER_SIZE ->
  take (Z.to_nat fill) (fst (append_chunk acc fill buf n)) = take (Z.to_nat fill) acc.
Proof.
  intros Hfill Hlen. unfold append_chunk.
  destruct (Z.ltb_spec (fill + n) DECODE_BUFFER_SIZE); cbn [fst]; [|reflexivity].
  apply take_memcpy; unfold DECODE_BUFFER_SIZE in *; lia.
Qed.

Lemma post_if_app (c : bool) (s : string) (h : history) :
  post_if c s h = post_if c s [] ++ h.
Proof. destruct c; reflexivity. Qed.

Lemma post_if_console (c : bool) (s : string) :
  forallb (fun e => negb (is_engine_call e)) (post_if c s []) = true.
Proof. destruct c; reflexivity. Qed.

(** What the decode stage does, case by case on the decoder's answer [d]:
    the accumulator holds the staged bytes afterwards, and its fill is the
    staged fill if [d = 0] and 0 otherwise. *)
Lemma decode_chunk_spec (x : t_mp3codec) (mp3_buffer : list byte)
    (mp3_bytes dc : Z) (h : history) (acc : list byte) (pl pr : list short)
    (rl rr : list float) :
  mp3_accumulator x = Some acc ->
  decode_pcm_left x = Some pl -> decode_pcm_right x = Some pr ->
  output_ring_left x = Some rl -> output_ring_right x = Some rr ->
  exists x' hp,
    decode_chunk x mp3_buffer mp3_bytes dc h =
      Returns
        (x', hp ++ Ev_hip_decode
                     (fst (append_chunk acc (mp3_accumulator_fill x) mp3_buffer mp3_bytes))
                     (snd (append_chunk acc (mp3_accumulator_fill x) mp3_buffer mp3_bytes))
                     (fst (fst (hip_decode h
                        (fst (append_chunk acc (mp3_accumulator_fill x) mp3_buffer mp3_bytes))
                        (snd (append_chunk acc (mp3_accumulator_fill x) mp3_buffer mp3_bytes))
                        pl pr)))
                   :: h) /\
    forallb (fun e => negb (is_engine_call e)) hp = true /\
    errors hp = O /\
    same_front x x' /\
    mp3_accumulator x' =
      Some (fst (append_chunk acc (mp3_accumulator_fill x) mp3_buffer mp3_bytes)) /\
    mp3_accumulator_fill x' =
      (if fst (fst (hip_decode h
                 (fst (append_chunk acc (mp3_accumulator_fill x) mp3_buffer mp3_bytes))
                 (snd (append_chunk acc (mp3_accumulator_fill x) mp3_buffer mp3_bytes))
                 pl pr)) =? 0
       then snd (append_chunk acc (mp3_accumulator_fill x) mp3_buffer mp3_bytes)
       else 0).
Proof.
  intros Hacc Hpl Hpr Hrl Hrr.
  unfold decode_chunk. rewrite Hacc, Hpl, Hpr. cbn [deref mbind outcome_bind].
  destruct (append_chunk _ _ _ _) as [acc1 fill1]. cbn [fst snd].
  destruct (hip_decode _ _ _ _ _) as [[d pl1] pr1]. cbn [fst snd].
  destruct (Z.gtb_spec d 0) as [Hpos|Hnpos].
  - match goal with |- context [ring_write ?y d] =>
      destruct (ring_write_returns y d) as (x1 & Hw & Hf1 & _ & Ha1 & _) end.
    { unfold back_present. fields. rewrite Hrl, Hrr. repeat split; eauto. }
    rewrite Hw. cbn [mbind outcome_bind]. rewrite post_if_app.
    do 2 eexists. split; [reflexivity|]. split; [apply post_if_console|]. split; [apply errors_post_if|].
    destruct (Z.eqb_spec d 0); [lia|].
    unfold same_front in *. fields. fields_in Hf1. fields_in Ha1. auto.
  - destruct (Z.eqb_spec d 0) as [Hz|Hnz].
    + rewrite post_if_app. do 2 eexists. split; [reflexivity|].
      split; [apply post_if_console|]. split; [apply errors_post_if|]. unfold same_front. fields. repeat split.
    + rewrite post_if_app. do 2 eexists. split; [reflexivity|].
      split; [apply post_if_console|]. split; [apply errors_post_if|]. unfold same_front. fields. repeat split.
Qed.

(** The decode stage is what follows an encode that produced bytes, and only
    that. *)
Lemma encode_frame_decodes (x : t_mp3codec) (g : lame_global_flags) (dc : Z)
    (h : history) (el er : list float) :
  encode_buffer_left x = Some el -> encode_buffer_right x = Some er ->
  exists h_enc,
    encode_frame x g dc h =
      (if fst (lame_encode_buffer h g (frame_to_pcm el) (frame_to_pcm er)
                 MP3_FRAME_SIZE MP3_BUFFER_SIZE) >? 0
       then decode_chunk (set_encode_buffer_fill 0 x)
              (snd (lame_encode_buffer h g (frame_to_pcm el) (frame_to_pcm er)
                      MP3_FRAME_SIZE MP3_BUFFER_SIZE))
              (fst (lame_encode_buffer h g (frame_to_pcm el) (frame_to_pcm er)
                      MP3_FRAME_SIZE MP3_BUFFER_SIZE))
              dc h_enc
       else Returns (set_encode_buffer_fill 0 x, h_enc)).
Proof.
  intros Hel Her. unfold encode_frame. rewrite Hel, Her.
  cbn [deref mbind outcome_bind].
  destruct (lame_encode_buffer _ _ _ _ _ _) as [mp3_bytes mp3_buffer].
  cbn [fst snd]. eexists. reflexivity.
Qed.

(** C3.  For the decode call that follows an encode which produced bytes:
    a positive result resets the accumulator fill to 0; a zero result keeps
    the accumulator contents and the fill as staged, and the next chunk goes
    after the staged bytes; a negative result resets the fill to 0.  In every
    case the routine carries on (it returns, with the encode side and the
    [initialized] flag as they were). *)
Theorem C3_decode_result_policy (x : t_mp3codec) (mp3_buffer : list byte)
    (mp3_bytes dc : Z) (h : history) (acc : list byte) (pl pr : list short)
    (rl rr : list float) :
  mp3_accumulator x = Some acc ->
  length acc = Z.to_nat DECODE_BUFFER_SIZE ->
  0 <= mp3_accumulator_fill x ->
  decode_pcm_left x = Some pl -> decode_pcm_right x = Some pr ->
  output_ring_left x = Some rl -> output_ring_right x = Some rr ->
  0 < mp3_bytes ->
  exists x' h' staged fill d,
    (staged, fill) = append_chunk acc (mp3_accumulator_fill x) mp3_buffer mp3_bytes /\
    d = fst (fst (hip_decode h staged fill pl pr)) /\
    decode_chunk x mp3_buffer mp3_bytes dc h = Returns (x', h') /\
    same_front x x' /\
    mp3_accumulator x' = Some staged /\
    (0 < d -> mp3_accumulator_fill x' = 0) /\
    (d = 0 -> mp3_accumulator_fill x' = fill /\
       forall next_buffer next_bytes,
         take (Z.to_nat fill)
           (fst (append_chunk staged (mp3_accumulator_fill x') next_buffer next_bytes)) =
         take (Z.to_nat fill) staged) /\
    (d < 0 -> mp3_accumulator_fill x' = 0).
Proof.
  intros Hacc Hlen Hfill Hpl Hpr Hrl Hrr Hbytes.
  destruct (decode_chunk_spec x mp3_buffer mp3_bytes dc h acc pl pr rl rr)
    as (x' & hp & Hrun & _ & _ & Hsf & Ha & Hf); try assumption.
  pose proof (length_append_chunk acc (mp3_accumulator_fill x) mp3_buffer mp3_bytes) as Hl.
  assert (Hfill1 : 0 <= snd (append_chunk acc (mp3_accumulator_fill x) mp3_buffer mp3_bytes)).
  { unfold append_chunk. destruct (_ <? _); cbn [snd]; lia. }
  destruct (append_chunk acc (mp3_accumulator_fill x) mp3_buffer mp3_bytes)
    as [staged fill] eqn:Hst.
  cbn [fst snd] in *.
  eexists x', _, staged, fill, _. split; [reflexivity|]. split; [reflexivity|].
  split; [exact Hrun|]. split; [exact Hsf|]. split; [exact Ha|].
  destruct (Z.eqb_spec (fst (fst (hip_decode h staged fill pl pr))) 0) as [Hz|Hnz].
  - split; [lia|]. split; [|lia].
    intros _. split; [exact Hf|]. intros nb nn. rewrite Hf.
    apply take_append_chunk; [exact Hfill1|]. congruence.
  - split; [intros _; exact Hf|]. split; [contradiction|]. intros _; exact Hf.
Qed.

(** C8.  When the chunk would bring the accumulator fill to its capacity or
    beyond, nothing of it is staged: the accumulator contents and fill are
    what they were when the decoder is called, the contents are still the
    same afterwards, no error is raised and the routine carries on. *)
Theorem C8_accumulator_overflow (x : t_mp3codec) (mp3_buffer : list byte)
    (mp3_bytes dc : Z) (h : history) (acc : list byte) (pl pr : list short)
    (rl rr : list float) :
  mp3_accumulator x = Some acc ->
  decode_pcm_left x = Some pl -> decode_pcm_right x = Some pr ->
  output_ring_left x = Some rl -> output_ring_right x = Some rr ->
  DECODE_BUFFER_SIZE <= mp3_accumulator_fill x + mp3_bytes ->
  append_chunk acc (mp3_accumulator_fill x) mp3_buffer mp3_bytes =
    (acc, mp3_accumulator_fill x) /\
  exists x' hp,
    decode_chunk x mp3_buffer mp3_bytes dc h =
      Returns (x', hp ++ Ev_hip_decode acc (mp3_accumulator_fill x)
                           (fst (fst (hip_decode h acc (mp3_accumulator_fill x) pl pr)))
                         :: h) /\
    forallb (fun e => negb (is_engine_call e)) hp = true /\
    errors hp = O /\
    same_front x x' /\
    mp3_accumulator x' = Some acc /\
    mp3_accumulator_fill x' =
      (if fst (fst (hip_decode h acc (mp3_accumulator_fill x) pl pr)) =? 0
       then mp3_accumulator_fill x else 0).
Proof.
  intros Hacc Hpl Hpr Hrl Hrr Hover.
  assert (Happ : append_chunk acc (mp3_accumulator_fill x) mp3_buffer mp3_bytes =
                 (acc, mp3_accumulator_fill x)).
  { unfold append_chunk. destruct (Z.ltb_spec (mp3_accumulator_fill x + mp3_bytes)
                                     DECODE_BUFFER_SIZE); [lia|reflexivity]. }
  split; [exact Happ|].
  destruct (decode_chunk_spec x mp3_buffer mp3_bytes dc h acc pl pr rl rr)
    as (x' & hp & Hrun & Hcons & Herr & Hsf & Ha & Hf); try assumption.
  rewrite Happ in Hrun, Ha, Hf. cbn [fst snd] in Hrun, Ha, Hf.
  exists x', hp. auto 10.
Qed.

(** ** The output ring *)

Lemma ring_wrap_range (size p k : Z) :
  0 <= p < size -> 0 <= k < size -> 0 <= ring_wrap size (p + k) < size.
Proof. intros Hp Hk. unfold ring_wrap. destruct (Z.ltb_spec (p + k) size); lia. Qed.

Lemma ring_wrap_step (size p k : Z) :
  0 <= p < size -> 0 <= k < size ->
  (if ring_wrap size (p + k) + 1 >=? size then 0 else ring_wrap size (p + k) + 1) =
  ring_wrap size (p + (k + 1)).
Proof.
  intros Hp Hk. unfold ring_wrap.
  destruct (Z.ltb_spec (p + k) size), (Z.ltb_spec (p + (k + 1)) size);
    match goal with |- context [?a >=? ?b] => destruct (Z.geb_spec a b) end; lia.
Qed.

Lemma ring_wrap_inj (size p j k : Z) :
  0 <= p < size -> 0 <= j < k -> k < size ->
  ring_wrap size (p + j) <> ring_wrap size (p + k).
Proof.
  intros Hp Hj Hk. unfold ring_wrap.
  destruct (Z.ltb_spec (p + j) size), (Z.ltb_spec (p + k) size); lia.
Qed.

(** After writing [n] samples (no more than the ring holds) from cursor [p],
    the [j]-th of them sits [j] places after [p], and the cursor stands [n]
    places after [p]. *)
Lemma ring_write_loop (size : Z) (pl pr : list short) (rl0 rr0 : list float)
    (p : Z) (n : nat)
    (body : Z -> list float * list float * Z -> list float * list float * Z) :
  (forall i rl rr w,
     body i (rl, rr, w) =
     (array_set rl w (short_to_float (array_get pl i 0)),
      array_set rr w (short_to_float (array_get pr i 0)),
      if w + 1 >=? size then 0 else w + 1)) ->
  0 <= p < size -> length rl0 = Z.to_nat size -> length rr0 = Z.to_nat size ->
  Z.of_nat n <= size ->
  exists rl rr,
    for_loop_from n 0 body (rl0, rr0, p) = (rl, rr, ring_wrap size (p + Z.of_nat n)) /\
    length rl = Z.to_nat size /\ length rr = Z.to_nat size /\
    forall j : nat, (j < n)%nat ->
      rl !! Z.to_nat (ring_wrap size (p + Z.of_nat j)) =
        Some (short_to_float (array_get pl (Z.of_nat j) 0)) /\
      rr !! Z.to_nat (ring_wrap size (p + Z.of_nat j)) =
        Some (short_to_float (array_get pr (Z.of_nat j) 0)).
Proof.
  intros Hbody Hp Hl Hr. induction n as [|n IH]; intros Hn.
  - exists rl0, rr0. cbn [for_loop_from]. rewrite Z.add_0_r.
    unfold ring_wrap. destruct (Z.ltb_spec p size); [|lia].
    repeat split; auto; lia.
  - destruct IH as (rl & rr & Hrun & Hll & Hlr & Hget); [lia|].
    rewrite for_loop_from_snoc, Hrun, Hbody. rewrite !Z.add_0_l.
    pose proof (ring_wrap_range size p (Z.of_nat n) Hp ltac:(lia)) as Hw.
    rewrite !array_set_nonneg by lia.
    rewrite (ring_wrap_step size p (Z.of_nat n)) by lia.
    replace (Z.of_nat n + 1) with (Z.of_nat (S n)) by lia.
    do 2 eexists. split; [reflexivity|].
    rewrite !length_insert. split; [exact Hll|]. split; [exact Hlr|].
    intros j Hj. destruct (decide (j = n)) as [->|Hne].
    + rewrite !list_lookup_insert_eq by lia. split; reflexivity.
    + assert (Hjn : (j < n)%nat) by lia.
      rewrite !list_lookup_insert_ne; [apply Hget; exact Hjn| |].
      all: intros Heq; apply Z2Nat.inj in Heq;
        [symmetry in Heq; revert Heq; apply ring_wrap_inj; lia
        | apply ring_wrap_range; lia | apply ring_wrap_range; lia].
Qed.

(** With every read let through, reading [n] samples (no more than the ring
    holds) from cursor [p] gives, in order, the ring entries [0], [1], ...
    places after [p], each scaled by the output gain. *)
Lemma ring_read_loop (x : t_mp3codec) (rl rr : list float)
    (outs0 outs1 : list double) (h : history) (n : nat)
    (body : Z -> Z * list double * list double * history ->
            Z * list double * list double * history) :
  (forall i rp o0 o1 h, exists h',
     body i (rp, o0, o1, h) =
     (if rp + 1 >=? ring_size x then 0 else rp + 1,
      array_set o0 i (dmul (double_of_float (array_get rl rp fzero)) (output_gain x)),
      array_set o1 i (dmul (double_of_float (array_get rr rp fzero)) (output_gain x)),
      h')) ->
  0 <= ring_read_pos x < ring_size x ->
  Z.of_nat n <= ring_size x ->
  (n <= length outs0)%nat -> (n <= length outs1)%nat ->
  exists o0 o1 h',
    for_loop_from n 0 body (ring_read_pos x, outs0, outs1, h) =
      (ring_wrap (ring_size x) (ring_read_pos x + Z.of_nat n), o0, o1, h') /\
    length o0 = length outs0 /\ length o1 = length outs1 /\
    forall j : nat, (j < n)%nat ->
      o0 !! j =
        Some (dmul (double_of_float
                      (array_get rl (ring_wrap (ring_size x)
                                       (ring_read_pos x + Z.of_nat j)) fzero))
                (output_gain x)) /\
      o1 !! j =
        Some (dmul (double_of_float
                      (array_get rr (ring_wrap (ring_size x)
                                       (ring_read_pos x + Z.of_nat j)) fzero))
                (output_gain x)).
Proof.
  intros Hbody Hp. induction n as [|n IH]; intros Hn H0 H1.
  - exists outs0, outs1, h. cbn [for_loop_from]. rewrite Z.add_0_r.
    unfold ring_wrap. destruct (Z.ltb_spec (ring_read_pos x) (ring_size x)); [|lia].
    repeat split; auto; lia.
  - destruct IH as (o0 & o1 & h' & Hrun & Hl0 & Hl1 & Hget); [lia|lia|lia|].
    rewrite for_loop_from_snoc, Hrun.
    destruct (Hbody (0 + Z.of_nat n) (ring_wrap (ring_size x) (ring_read_pos x + Z.of_nat n))
                o0 o1 h') as (h'' & ->).
    rewrite !array_set_nonneg by lia.
    rewrite (ring_wrap_step (ring_size x) (ring_read_pos x) (Z.of_nat n)) by lia.
    replace (Z.of_nat n + 1) with (Z.of_nat (S n)) by lia.
    rewrite !Z.add_0_l, Nat2Z.id.
    do 3 eexists. split; [reflexivity|].
    rewrite !length_insert. split; [exact Hl0|]. split; [exact Hl1|].
    intros j Hj. destruct (decide (j = n)) as [->|Hne].
    + rewrite !list_lookup_insert_eq by lia. split; reflexivity.
    + rewrite !list_lookup_insert_ne by lia. apply Hget. lia.
Qed.

Lemma ring_write_spec (x : t_mp3codec) (n : Z)
    (pl pr : list short) (rl rr : list float) :
  output_ring_left x = Some rl -> output_ring_right x = Some rr ->
  length rl = Z.to_nat (ring_size x) -> length rr = Z.to_nat (ring_size x) ->
  decode_pcm_left x = Some pl -> decode_pcm_right x = Some pr ->
  0 <= n <= ring_size x ->
  0 <= ring_write_pos x < ring_size x ->
  exists rl' rr',
    ring_write x n =
      Returns (set_ring_write_pos (ring_wrap (ring_size x) (ring_write_pos x + n))
                 (set_output_ring_right (Some rr')
                    (set_output_ring_left (Some rl') x))) /\
    length rl' = Z.to_nat (ring_size x) /\ length rr' = Z.to_nat (ring_size x) /\
    forall j : nat, (j < Z.to_nat n)%nat ->
      rl' !! Z.to_nat (ring_wrap (ring_size x) (ring_write_pos x + Z.of_nat j)) =
        Some (short_to_float (array_get pl (Z.of_nat j) 0)) /\
      rr' !! Z.to_nat (ring_wrap (ring_size x) (ring_write_pos x + Z.of_nat j)) =
        Some (short_to_float (array_get pr (Z.of_nat j) 0)).
Proof.
  intros Hrl Hrr Hll Hlr Hpl Hpr Hn Hw.
  unfold ring_write. rewrite Hrl, Hrr, Hpl, Hpr. cbn [deref mbind outcome_bind].
  unfold for_loop. rewrite Z.sub_0_r.
  match goal with |- context [for_loop_from _ 0 ?body (rl, rr, _)] =>
    destruct (ring_write_loop (ring_size x) pl pr rl rr (ring_write_pos x) (Z.to_nat n) body)
      as (rl' & rr' & Hwrite & Hll' & Hlr' & Hput);
      [intros; reflexivity|try assumption; try lia..]
  end.
  rewrite Hwrite. rewrite Z2Nat.id by lia.
  exists rl', rr'. auto.
Qed.

Lemma ring_read_spec (x : t_mp3codec) (n : Z) (rl rr : list float)
    (outs0 outs1 : list double) (dc : Z) (h : history) :
  decode_delay_compensation x = 0 ->
  output_ring_left x = Some rl -> output_ring_right x = Some rr ->
  0 <= n <= ring_size x ->
  (Z.to_nat n <= length outs0)%nat -> (Z.to_nat n <= length outs1)%nat ->
  0 <= ring_read_pos x < ring_size x ->
  exists o0 o1 h',
    ring_read x outs0 outs1 n dc h =
      Returns (set_ring_read_pos (ring_wrap (ring_size x) (ring_read_pos x + n)) x,
               o0, o1, h') /\
    length o0 = length outs0 /\ length o1 = length outs1 /\
    forall j : nat, (j < Z.to_nat n)%nat ->
      o0 !! j =
        Some (dmul (double_of_float
                      (array_get rl (ring_wrap (ring_size x)
                                       (ring_read_pos x + Z.of_nat j)) fzero))
                (output_gain x)) /\
      o1 !! j =
        Some (dmul (double_of_float
                      (array_get rr (ring_wrap (ring_size x)
                                       (ring_read_pos x + Z.of_nat j)) fzero))
                (output_gain x)).
Proof.
  intros Hddc Hrl Hrr Hn Hno0 Hno1 Hp.
  unfold ring_read. rewrite Hrl, Hrr. cbn [deref mbind outcome_bind].
  unfold for_loop. rewrite Z.sub_0_r.
  match goal with |- context [for_loop_from _ 0 ?body (_, outs0, outs1, h)] =>
    destruct (ring_read_loop x rl rr outs0 outs1 h (Z.to_nat n) body)
      as (o0 & o1 & h' & Hread & Hlo0 & Hlo1 & Hget);
      [|try assumption; try lia..]
  end.
  { intros i rp a0 a1 h0. rewrite Hddc. cbn [Z.eqb]. rewrite orb_true_r.
    eexists. reflexivity. }
  rewrite Hread. rewrite Z2Nat.id by lia.
  exists o0, o1, h'. auto.
Qed.

(** C4 (amended).  With delay compensation off and the read cursor standing
    on the write cursor, writing [n] decoded samples, [n] no more than the
    ring holds, and then reading [n] samples returns exactly those samples,
    in the order written, each scaled by the output gain; afterwards the two
    cursors stand together again. *)
Theorem C4_ring_write_then_read (x : t_mp3codec) (n : Z)
    (pl pr : list short) (rl rr : list float) (outs0 outs1 : list double)
    (dc : Z) (h : history) :
  decode_delay_compensation x = 0 ->
  output_ring_left x = Some rl -> output_ring_right x = Some rr ->
  length rl = Z.to_nat (ring_size x) -> length rr = Z.to_nat (ring_size x) ->
  decode_pcm_left x = Some pl -> decode_pcm_right x = Some pr ->
  0 <= n <= ring_size x ->
  (Z.to_nat n <= length pl)%nat -> (Z.to_nat n <= length pr)%nat ->
  (Z.to_nat n <= length outs0)%nat -> (Z.to_nat n <= length outs1)%nat ->
  0 <= ring_write_pos x < ring_size x ->
  ring_read_pos x = ring_write_pos x ->
  exists x1 x2 o0 o1 h',
    ring_write x n = Returns x1 /\
    ring_read x1 outs0 outs1 n dc h = Returns (x2, o0, o1, h') /\
    take (Z.to_nat n) o0 = map (output_sample (output_gain x)) (take (Z.to_nat n) pl) /\
    take (Z.to_nat n) o1 = map (output_sample (output_gain x)) (take (Z.to_nat n) pr) /\
    ring_read_pos x2 = ring_write_pos x1.
Proof.
  intros Hddc Hrl Hrr Hll Hlr Hpl Hpr Hn Hnpl Hnpr Hno0 Hno1 Hw Hrw.
  destruct (ring_write_spec x n pl pr rl rr) as (rl' & rr' & Hwrite & _ & _ & Hput);
    try assumption.
  destruct (ring_read_spec
              (set_ring_write_pos (ring_wrap (ring_size x) (ring_write_pos x + n))
                 (set_output_ring_right (Some rr')
                    (set_output_ring_left (Some rl') x)))
              n rl' rr' outs0 outs1 dc h)
    as (o0 & o1 & h' & Hread & Hlo0 & Hlo1 & Hget);
    try (fields; assumption); try (fields; reflexivity); try (fields; lia).
  fields_in Hget.
  do 5 eexists. split; [exact Hwrite|]. split; [exact Hread|].
  assert (Hval : forall j : nat, (j < Z.to_nat n)%nat ->
            o0 !! j = Some (output_sample (output_gain x) (array_get pl (Z.of_nat j) 0)) /\
            o1 !! j = Some (output_sample (output_gain x) (array_get pr (Z.of_nat j) 0))).
  { intros j Hj. destruct (Hget j Hj) as [Hg0 Hg1]. destruct (Hput j Hj) as [Hp0 Hp1].
    rewrite Hg0, Hg1, Hrw. unfold output_sample.
    pose proof (ring_wrap_range (ring_size x) (ring_write_pos x) (Z.of_nat j) Hw ltac:(lia)).
    rewrite (array_get_nonneg rl'), (array_get_nonneg rr') by lia.
    rewrite (nth_lookup_Some _ _ _ _ Hp0), (nth_lookup_Some _ _ _ _ Hp1).
    split; reflexivity. }
  split; [|split].
  - apply (list_eq_same_length _ _ (Z.to_nat n)).
    + rewrite length_map, length_take_le; lia.
    + rewrite length_take_le; lia.
    + intros i a b Hi Ha Hb. rewrite lookup_take_lt in Ha by lia.
      destruct (Hval i Hi) as [H0 _]. rewrite H0 in Ha. injection Ha as <-.
      rewrite list_lookup_fmap, lookup_take_lt in Hb by lia.
      rewrite array_get_nonneg, Nat2Z.id by lia.
      destruct (nth_lookup_or_length pl i 0) as [Hl|Hl]; [|lia].
      rewrite Hl in Hb. injection Hb as <-. reflexivity.
  - apply (list_eq_same_length _ _ (Z.to_nat n)).
    + rewrite length_map, length_take_le; lia.
    + rewrite length_take_le; lia.
    + intros i a b Hi Ha Hb. rewrite lookup_take_lt in Ha by lia.
      destruct (Hval i Hi) as [_ H1]. rewrite H1 in Ha. injection Ha as <-.
      rewrite list_lookup_fmap, lookup_take_lt in Hb by lia.
      rewrite array_get_nonneg, Nat2Z.id by lia.
      destruct (nth_lookup_or_length pr i 0) as [Hl|Hl]; [|lia].
      rewrite Hl in Hb. injection Hb as <-. reflexivity.
  - fields. rewrite Hrw. reflexivity.
Qed.

End Frame.

(** * The claims on the control plane and on the silent paths *)

Section Claims.
Context {lame : Engine}.

(** C2.  After every successful initialization the stored encoder delay is
    the one the engine reports for the accepted settings, the stored decoder
    delay is 528, the stored total latency is
    [MP3_FRAME_SIZE + encoder delay + 528] samples, and a latency query sends
    one list out of the analysis outlet: total milliseconds, total samples,
    encoder delay, decoder delay, in that order. *)
Theorem C2_latency_summary (x x' : t_mp3codec) (h h' hq : history) (o : outlet) :
  analysis_outlet x = Some o ->
  mp3codec_init_processor x h = (0, x', h') ->
  (exists g hd, gfp x' = Some g /\ hd `suffix_of` h' /\
     lame_encoder_delay x' = lame_get_encoder_delay hd g) /\
  lame_decoder_delay x' = 528 /\
  total_latency_samples x' = MP3_FRAME_SIZE + lame_encoder_delay x' + 528 /\
  total_latency_ms x' =
    dmul (ddiv (double_of_long (total_latency_samples x'))
               (double_of_long (sample_rate x')))
         (double_of_long 1000) /\
  emitted (mp3codec_latency x' hq) =
    (o, [A_FLOAT (total_latency_ms x');
         A_LONG (total_latency_samples x');
         A_LONG (lame_encoder_delay x');
         A_LONG (lame_decoder_delay x')]) :: emitted hq.
Proof.
  intros Ho Hinit.
  pose proof (init_processor_ok x h) as Hok.
  pose proof (init_processor_spec x h) as Hspec.
  rewrite Hinit in Hok, Hspec.
  destruct (Hok eq_refl) as (Hfresh & g & hd & Hg & Hsuf & Hdelay).
  destruct Hspec as ((_ & _ & _ & Hout & _) & _).
  destruct Hfresh as (Hi & _ & _ & _ & _ & _ & _ & _ & _ & _ & _ & _ & _ & _ & _ &
                      Hdec & Hbuf & Htot & Hms & _).
  split; [exists g, hd; auto|]. split; [exact Hdec|].
  split; [rewrite Htot, Hdec, Hbuf; lia|]. split; [exact Hms|].
  unfold mp3codec_latency. rewrite Hi, Hout, Ho. reflexivity.
Qed.

(** C6 (amended).  The retry with the 32 kbps fallback is guarded by
    [QUALITY_BITRATES[quality] <= 16], which holds for no quality ordinal 0
    through 9.  So whenever the engine rejects the configuration of such a
    quality, the initializer declares failure at once: [lame_init_params] has
    been called exactly once, with the table bitrate of the quality; the
    encoder is closed, -1 is returned, the object is left silent and
    uninitialized, and one error is printed. *)
Theorem C6_rejection_is_final (x : t_mp3codec) (h h1 : history)
    (g : lame_global_flags) :
  0 <= quality x <= 9 ->
  lame_init (snd (mp3codec_cleanup_processor x h)) = true ->
  first_init_params_call x h = (h1, g) ->
  lame_init_params h1 g < 0 ->
  exists x' h',
    mp3codec_init_processor x h = (-1, x', h') /\
    failed_state x' /\
    init_params_calls h' = init_params_calls h ++ [g] /\
    In (brate, QUALITY_BITRATES (quality x)) g /\
    errors h' = S (errors h) /\
    h' = Ev_lame_close
           :: Ev_error "mp3codec~: Failed to set LAME parameters for %d kbps"
           :: Ev_lame_init_params g (lame_init_params h1 g) :: h1.
Proof.
  intros Hq Hli Hcall Hrej.
  pose proof (init_processor_rejected x h Hq Hli) as Hrun.
  pose proof (init_processor_spec x h) as Hspec.
  rewrite Hcall in Hrun. specialize (Hrun Hrej). rewrite Hrun in Hspec.
  destruct Hspec as (_ & _ & [(Habs & _)|(_ & Hfail & Herr)]); [discriminate|].
  do 2 eexists. split; [exact Hrun|]. split; [exact Hfail|].
  unfold first_init_params_call in Hcall.
  pose proof (cleanup_spec x h) as Hc.
  destruct (mp3codec_cleanup_processor x h) as [x0 h0].
  destruct Hc as (((Hqual & _) & _) & _ & _ & _ & _ & _ & _ & _ & _ & Hcalls0).
  pose proof (configure_encoder_spec x0 (Ev_lame_init true :: h0)) as (_ & _ & Hcalls1).
  pose proof (configure_encoder_brate x0 (Ev_lame_init true :: h0)) as Hbr.
  destruct (configure_encoder x0 (Ev_lame_init true :: h0)) as [g' h1'].
  injection Hcall as <- <-. cbn [fst snd init_params_calls] in *.
  split; [rewrite Hcalls1, Hcalls0; reflexivity|].
  split; [rewrite <- Hqual; exact Hbr|]. split; [exact Herr|reflexivity].
Qed.


(** C9.  A quality message whose clamped value is the current quality does
    not rebuild anything: the codec handles, the buffer pointers, the fill
    levels and the cursors are as before, the configuration is as before, no
    call reaches the engine, and [initialized] is 1 when the handler
    returns. *)
Theorem C9_unchanged_quality_is_noop (x : t_mp3codec) (n : Z) (h : history) :
  CLAMP n 0 9 = quality x ->
  exists x' hc,
    mp3codec_quality x n h = (x', hc ++ h) /\
    same_pipeline x x' /\ same_config x x' /\
    initialized x' = 1 /\
    forallb (fun e => negb (is_engine_call e)) hc = true /\
    rebuilds (hc ++ h) = rebuilds h.
Proof.
  intros Hq. rewrite (quality_unchanged x n h Hq).
  exists (set_initialized 1 (set_quality (quality x) (set_initialized 0 x))),
    [Ev_post "mp3codec~: Quality unchanged at %ld (%d kbps CBR)"; Ev_systhread_sleep 50].
  split; [reflexivity|].
  unfold same_pipeline, same_config. fields. repeat split.
Qed.

(** C5.  A call of the perform routine that finds [initialized] equal to 0
    returns with the first [sampleframes] entries of both output vectors set
    to zero.  The object comes back as it was and nothing is added to the
    history: no buffer, fill, cursor or handle is written and the engine is
    not called.  The outputs depend on the block length and the output
    vectors only: nothing of the object is read beyond the flag. *)
Theorem C5_uninitialized_is_silent (fuel : nat) (x : t_mp3codec)
    (ins0 ins1 : list double) (numins : Z) (outs0 outs1 : list double)
    (numouts sampleframes dc : Z) (h : history) :
  initialized x = 0 ->
  0 <= sampleframes ->
  (Z.to_nat sampleframes <= length outs0)%nat ->
  (Z.to_nat sampleframes <= length outs1)%nat ->
  mp3codec_perform64 fuel x ins0 ins1 numins outs0 outs1 numouts sampleframes dc h =
  Returns (x,
           replicate (Z.to_nat sampleframes) dzero ++ drop (Z.to_nat sampleframes) outs0,
           replicate (Z.to_nat sampleframes) dzero ++ drop (Z.to_nat sampleframes) outs1,
           dc + 1, h).
Proof.
  intros Hi Hn H0 H1. rewrite perform64_uninitialized by exact Hi.
  rewrite write_silence_spec by assumption. reflexivity.
Qed.

(** C10 (amended).  After a failed initialization (handles and buffers
    NULL) a quality message carrying the current quality still sets
    [initialized] to 1, the handles and buffers staying NULL.  In that state,
    and provided bypass is off, every call of the perform routine takes the
    NULL-buffer branch: it returns without a crash, with the first
    [sampleframes] entries of both output vectors set to zero, the object
    untouched and no call to the engine. *)
Theorem C10_initialized_without_pipeline (x : t_mp3codec) (n : Z) (h : history)
    (fuel : nat) (ins0 ins1 : list double) (numins : Z) (outs0 outs1 : list double)
    (numouts sampleframes dc : Z) (hp : history) :
  failed_state x ->
  CLAMP n 0 9 = quality x ->
  bypass x = 0 ->
  0 <= sampleframes ->
  (Z.to_nat sampleframes <= length outs0)%nat ->
  (Z.to_nat sampleframes <= length outs1)%nat ->
  exists x1 h1 hc,
    mp3codec_quality x n h = (x1, h1) /\
    initialized x1 = 1 /\ torn_down x1 /\
    mp3codec_perform64 fuel x1 ins0 ins1 numins outs0 outs1 numouts sampleframes dc hp =
      Returns (x1,
               replicate (Z.to_nat sampleframes) dzero
                 ++ drop (Z.to_nat sampleframes) outs0,
               replicate (Z.to_nat sampleframes) dzero
                 ++ drop (Z.to_nat sampleframes) outs1,
               dc + 1, hc ++ hp) /\
    forallb (fun e => negb (is_engine_call e)) hc = true.
Proof.
  intros [_ Htorn] Hq Hb Hn H0 H1.
  rewrite (quality_unchanged x n h Hq).
  do 3 eexists. split; [reflexivity|]. split; [reflexivity|].
  split; [unfold torn_down in *; fields; exact Htorn|].
  rewrite perform64_null_buffers;
    [|fields; discriminate|fields; exact Hb
     |left; fields; apply Htorn].
  rewrite write_silence_spec by assumption. cbn [fst snd].
  rewrite (post_if_app _ _ (post_if _ _ hp)), (post_if_app _ _ hp), app_assoc.
  split; [reflexivity|].
  rewrite forallb_app, !post_if_console. reflexivity.
Qed.

End Claims.

(** * The claims at concrete inputs *)

Lemma working_object_ready : pipeline_ready working_object.
Proof.
  split; [split; [|split; [|split; [|split; [|split]]]]|split; [|split; [|split; [|split]]]].
  - vm_compute. discriminate.
  - vm_compute. reflexivity.
  - eexists. vm_compute. reflexivity.
  - eexists. vm_compute. reflexivity.
  - eexists. split; [vm_compute; reflexivity|vm_compute; lia].
  - eexists. split; [vm_compute; reflexivity|vm_compute; lia].
  - eexists. vm_compute. reflexivity.
  - eexists. vm_compute. reflexivity.
  - eexists. vm_compute. reflexivity.
  - eexists. vm_compute. reflexivity.
  - eexists. vm_compute. reflexivity.
Defined.

Lemma C1_witness :
  exists x' dc' h' fs,
    @host_run accepting_engine working_object 0 [] two_blocks = Returns (x', dc', h') /\
    encoded_frames h' = encoded_frames [] ++ fs /\
    length fs = 1%nat /\
    Forall full_frame fs /\
    concat (map fst fs) ++ map float_to_short (pending_left x') =
      map float_to_short (pending_left working_object)
      ++ map (pcm_of_input (input_gain working_object)) (concat (map fst two_blocks)) /\
    concat (map snd fs) ++ map float_to_short (pending_right x') =
      map float_to_short (pending_right working_object)
      ++ map (pcm_of_input (input_gain working_object)) (concat (map snd two_blocks)) /\
    encode_buffer_fill x' = encode_buffer_fill working_object /\
    (encode_buffer_fill working_object = 0 ->
     concat (map fst fs) =
       map (pcm_of_input (input_gain working_object)) (concat (map fst two_blocks)) /\
     concat (map snd fs) =
       map (pcm_of_input (input_gain working_object)) (concat (map snd two_blocks))).
Proof.
  apply (@C1_frame_accumulator accepting_engine working_object 0 [] two_blocks 1).
  - exact working_object_ready.
  - vm_compute. split; [discriminate|reflexivity].
  - repeat constructor.
  - vm_compute. reflexivity.
Defined.

Lemma C2_witness :
  (exists g hd, gfp (snd (fst reinitialized)) = Some g /\
     hd `suffix_of` snd reinitialized /\
     lame_encoder_delay (snd (fst reinitialized)) =
       @lame_get_encoder_delay accepting_engine hd g) /\
  lame_decoder_delay (snd (fst reinitialized)) = 528 /\
  total_latency_samples (snd (fst reinitialized)) =
    MP3_FRAME_SIZE + lame_encoder_delay (snd (fst reinitialized)) + 528 /\
  total_latency_ms (snd (fst reinitialized)) =
    dmul (ddiv (double_of_long (total_latency_samples (snd (fst reinitialized))))
               (double_of_long (sample_rate (snd (fst reinitialized)))))
         (double_of_long 1000) /\
  emitted (mp3codec_latency (snd (fst reinitialized)) []) =
    (outlet_analysis,
     [A_FLOAT (total_latency_ms (snd (fst reinitialized)));
      A_LONG (total_latency_samples (snd (fst reinitialized)));
      A_LONG (lame_encoder_delay (snd (fst reinitialized)));
      A_LONG (lame_decoder_delay (snd (fst reinitialized)))]) :: emitted [].
Proof.
  apply (@C2_latency_summary accepting_engine working_object
           (snd (fst reinitialized)) [] (snd reinitialized) [] outlet_analysis).
  - vm_compute. reflexivity.
  - vm_compute. reflexivity.
Defined.

(** The total latency of the working object: 1152 + 576 + 528 samples,
    51 ms and a fraction at 44.1 kHz. *)
Example working_object_latency :
  total_latency_samples working_object = 2256 /\
  long_of_double (total_latency_ms working_object) = 51.
Proof. split; vm_compute; reflexivity. Qed.

(** Quality 5 is 112 kbps; full scale converts to 32767, and the conversion
    to PCM saturates. *)
Example sample_conversions :
  QUALITY_BITRATES (quality working_object) = 112 /\
  float_to_short (float_of_double done) = 32767 /\
  float_to_short (float_of_double (double_of_long 4)) = 32767 /\
  float_to_short (float_of_double (double_of_long (-4))) = -32768 /\
  double_of_float (short_to_float 32767) = done.
Proof.
  split; [vm_compute; reflexivity|]. split; [vm_compute; reflexivity|].
  split; [vm_compute; reflexivity|]. split; vm_compute; reflexivity.
Qed.

(** The two blocks on the working object: two calls, one frame of full-scale
    samples encoded, one decode of the four staged bytes, 1152 samples
    written to the ring and 500 + 652 read from it. *)
Example two_blocks_run :
  match @host_run accepting_engine working_object 0 [] two_blocks with
  | Returns (x', dc', h') =>
      dc' = 2 /\
      encoded_frames h' = [(replicate 1152 32767, replicate 1152 32767)] /\
      encode_buffer_fill x' = 0 /\ mp3_accumulator_fill x' = 0 /\
      ring_write_pos x' = 1152 /\ ring_read_pos x' = 1152
  | _ => False
  end.
Proof. vm_compute. repeat split. Qed.

Lemma C3_witness :
  exists x' h' staged fill d,
    (staged, fill) =
      append_chunk (replicate (Z.to_nat DECODE_BUFFER_SIZE) x00)
        (mp3_accumulator_fill working_object) chunk 4 /\
    d = fst (fst (@hip_decode accepting_engine [] staged fill
                    (replicate (Z.to_nat PCM_BUFFER_SIZE) 0)
                    (replicate (Z.to_nat PCM_BUFFER_SIZE) 0))) /\
    @decode_chunk accepting_engine working_object chunk 4 0 [] = Returns (x', h') /\
    same_front working_object x' /\
    mp3_accumulator x' = Some staged /\
    (0 < d -> mp3_accumulator_fill x' = 0) /\
    (d = 0 -> mp3_accumulator_fill x' = fill /\
       forall next_buffer next_bytes,
         take (Z.to_nat fill)
           (fst (append_chunk staged (mp3_accumulator_fill x') next_buffer next_bytes)) =
         take (Z.to_nat fill) staged) /\
    (d < 0 -> mp3_accumulator_fill x' = 0).
Proof.
  apply (@C3_decode_result_policy accepting_engine working_object chunk 4 0 []
           (replicate (Z.to_nat DECODE_BUFFER_SIZE) x00)
           (replicate (Z.to_nat PCM_BUFFER_SIZE) 0)
           (replicate (Z.to_nat PCM_BUFFER_SIZE) 0)
           (replicate (Z.to_nat (MP3_FRAME_SIZE * 4)) fzero)
           (replicate (Z.to_nat (MP3_FRAME_SIZE * 4)) fzero)).
  - vm_compute. reflexivity.
  - vm_compute. reflexivity.
  - vm_compute. discriminate.
  - vm_compute. reflexivity.
  - vm_compute. reflexivity.
  - vm_compute. reflexivity.
  - vm_compute. reflexivity.
  - lia.
Defined.

Lemma C4_witness :
  exists x1 x2 o0 o1 h',
    ring_write decoded_object 2 = Returns x1 /\
    ring_read x1 [dzero; dzero] [dzero; dzero] 2 0 [] = Returns (x2, o0, o1, h') /\
    take (Z.to_nat 2) o0 =
      map (output_sample (output_gain decoded_object)) (take (Z.to_nat 2) [100; 200]) /\
    take (Z.to_nat 2) o1 =
      map (output_sample (output_gain decoded_object)) (take (Z.to_nat 2) [100; 200]) /\
    ring_read_pos x2 = ring_write_pos x1.
Proof.
  apply (C4_ring_write_then_read decoded_object 2 [100; 200] [100; 200]
           (replicate (Z.to_nat (MP3_FRAME_SIZE * 4)) fzero)
           (replicate (Z.to_nat (MP3_FRAME_SIZE * 4)) fzero)).
  - vm_compute. reflexivity.
  - vm_compute. reflexivity.
  - vm_compute. reflexivity.
  - vm_compute. reflexivity.
  - vm_compute. reflexivity.
  - vm_compute. reflexivity.
  - vm_compute. reflexivity.
  - vm_compute. split; discriminate.
  - vm_compute. lia.
  - vm_compute. lia.
  - vm_compute. lia.
  - vm_compute. lia.
  - vm_compute. split; [discriminate|reflexivity].
  - vm_compute. reflexivity.
Defined.

(** The claim C4 as it is worded asks only that the write does not lap the
    read cursor.  That is so for [read_ahead_object], where 4544 samples
    count as available; yet the sample read after writing one sample is the
    stale ring entry, not the sample written. *)
Lemma C4_counterexample :
  decode_delay_compensation read_ahead_object = 0 /\
  ring_size read_ahead_object = 4 * 1152 /\
  ring_available read_ahead_object (ring_read_pos read_ahead_object) + 1
    <= ring_size read_ahead_object /\
  exists x1 x2 h',
    ring_write read_ahead_object 1 = Returns x1 /\
    ring_read x1 [done] [done] 1 0 [] = Returns (x2, [dzero], [dzero], h') /\
    map (output_sample (output_gain read_ahead_object)) [32767] = [done] /\
    [dzero] <> [done].
Proof.
  split; [vm_compute; reflexivity|]. split; [vm_compute; reflexivity|].
  split; [vm_compute; discriminate|].
  do 3 eexists. split; [vm_compute; reflexivity|].
  split; [vm_compute; reflexivity|]. split; [vm_compute; reflexivity|].
  vm_compute. discriminate.
Qed.

Lemma C5_witness :
  @mp3codec_perform64 rejecting_engine 2 silent_object [done; done] [done; done] 2
    [done; done; done] [done; done; done] 2 2 0 [] =
  Returns (silent_object,
           replicate (Z.to_nat 2) dzero ++ drop (Z.to_nat 2) [done; done; done],
           replicate (Z.to_nat 2) dzero ++ drop (Z.to_nat 2) [done; done; done],
           0 + 1, []).
Proof.
  apply (@C5_uninitialized_is_silent rejecting_engine).
  - vm_compute. reflexivity.
  - lia.
  - vm_compute. lia.
  - vm_compute. lia.
Defined.

Lemma C6_witness :
  exists x' h',
    @mp3codec_init_processor rejecting_engine working_object [] = (-1, x', h') /\
    failed_state x' /\
    init_params_calls h' = init_params_calls [] ++ [snd first_call] /\
    In (brate, QUALITY_BITRATES (quality working_object)) (snd first_call) /\
    errors h' = S (errors []) /\
    h' = Ev_lame_close
           :: Ev_error "mp3codec~: Failed to set LAME parameters for %d kbps"
           :: Ev_lame_init_params (snd first_call)
                (@lame_init_params rejecting_engine (fst first_call) (snd first_call))
           :: fst first_call.
Proof.
  apply (@C6_rejection_is_final rejecting_engine working_object []).
  - vm_compute. split; discriminate.
  - reflexivity.
  - vm_compute. reflexivity.
  - vm_compute. reflexivity.
Defined.

(** The claim C6 as it is worded promises a second [lame_init_params] call
    at 32 kbps for every quality.  At quality 5 (112 kbps) the rejecting
    engine is asked once, and never for 32 kbps. *)
Lemma C6_counterexample :
  quality working_object = 5 /\
  fst (fst (@mp3codec_init_processor rejecting_engine working_object [])) = -1 /\
  length (init_params_calls
            (snd (@mp3codec_init_processor rejecting_engine working_object []))) = 1%nat /\
  ~ In (brate, 32)
      (concat (init_params_calls
                 (snd (@mp3codec_init_processor rejecting_engine working_object [])))).
Proof.
  split; [vm_compute; reflexivity|]. split; [vm_compute; reflexivity|].
  split; [vm_compute; reflexivity|].
  vm_compute. intros H.
  repeat (destruct H as [H|H]; [discriminate H|]). exact H.
Qed.



Lemma C8_witness :
  append_chunk (replicate (Z.to_nat DECODE_BUFFER_SIZE) x00)
    (mp3_accumulator_fill nearly_full_object) chunk 4 =
    (replicate (Z.to_nat DECODE_BUFFER_SIZE) x00, mp3_accumulator_fill nearly_full_object) /\
  exists x' hp,
    @decode_chunk accepting_engine nearly_full_object chunk 4 0 [] =
      Returns (x', hp ++ Ev_hip_decode (replicate (Z.to_nat DECODE_BUFFER_SIZE) x00)
                           (mp3_accumulator_fill nearly_full_object)
                           (fst (fst (@hip_decode accepting_engine []
                              (replicate (Z.to_nat DECODE_BUFFER_SIZE) x00)
                              (mp3_accumulator_fill nearly_full_object)
                              (replicate (Z.to_nat PCM_BUFFER_SIZE) 0)
                              (replicate (Z.to_nat PCM_BUFFER_SIZE) 0))))
                         :: []) /\
    forallb (fun e => negb (is_engine_call e)) hp = true /\
    errors hp = O /\
    same_front nearly_full_object x' /\
    mp3_accumulator x' = Some (replicate (Z.to_nat DECODE_BUFFER_SIZE) x00) /\
    mp3_accumulator_fill x' =
      (if fst (fst (@hip_decode accepting_engine []
                      (replicate (Z.to_nat DECODE_BUFFER_SIZE) x00)
                      (mp3_accumulator_fill nearly_full_object)
                      (replicate (Z.to_nat PCM_BUFFER_SIZE) 0)
                      (replicate (Z.to_nat PCM_BUFFER_SIZE) 0))) =? 0
       then mp3_accumulator_fill nearly_full_object else 0).
Proof.
  apply (@C8_accumulator_overflow accepting_engine nearly_full_object chunk 4 0 []
           (replicate (Z.to_nat DECODE_BUFFER_SIZE) x00)
           (replicate (Z.to_nat PCM_BUFFER_SIZE) 0)
           (replicate (Z.to_nat PCM_BUFFER_SIZE) 0)
           (replicate (Z.to_nat (MP3_FRAME_SIZE * 4)) fzero)
           (replicate (Z.to_nat (MP3_FRAME_SIZE * 4)) fzero)).
  - vm_compute. reflexivity.
  - vm_compute. reflexivity.
  - vm_compute. reflexivity.
  - vm_compute. reflexivity.
  - vm_compute. reflexivity.
  - vm_compute. discriminate.
Defined.

Lemma C9_witness :
  exists x' hc,
    @mp3codec_quality accepting_engine working_object 5 [] = (x', hc ++ []) /\
    same_pipeline working_object x' /\ same_config working_object x' /\
    initialized x' = 1 /\
    forallb (fun e => negb (is_engine_call e)) hc = true /\
    rebuilds (hc ++ []) = rebuilds [].
Proof.
  apply (@C9_unchanged_quality_is_noop accepting_engine working_object 5 []).
  vm_compute. reflexivity.
Defined.

Lemma silent_object_failed : failed_state silent_object.
Proof. vm_compute. repeat split. Defined.

Lemma C10_witness :
  exists x1 h1 hc,
    @mp3codec_quality rejecting_engine silent_object 5 [] = (x1, h1) /\
    initialized x1 = 1 /\ torn_down x1 /\
    @mp3codec_perform64 rejecting_engine 2 x1 [done; done] [done; done] 2
      [done; done] [done; done] 2 2 0 [] =
      Returns (x1,
               replicate (Z.to_nat 2) dzero ++ drop (Z.to_nat 2) [done; done],
               replicate (Z.to_nat 2) dzero ++ drop (Z.to_nat 2) [done; done],
               0 + 1, hc ++ []) /\
    forallb (fun e => negb (is_engine_call e)) hc = true.
Proof.
  apply (@C10_initialized_without_pipeline rejecting_engine silent_object 5 []).
  - exact silent_object_failed.
  - vm_compute. reflexivity.
  - vm_compute. reflexivity.
  - lia.
  - vm_compute. lia.
  - vm_compute. lia.
Defined.

(** The claim C10 as it is worded has every perform call in that state emit
    zeros.  With bypass on, the routine never looks at the buffer pointers
    and passes the input through: one sample of 1.0 in, 1.0 out. *)
Lemma C10_counterexample :
  failed_state silent_bypassed_object /\
  CLAMP 5 0 9 = quality silent_bypassed_object /\
  exists x1 h1,
    @mp3codec_quality rejecting_engine silent_bypassed_object 5 [] = (x1, h1) /\
    initialized x1 = 1 /\ torn_down x1 /\
    @mp3codec_perform64 rejecting_engine 1 x1 [done] [done] 2 [dzero] [dzero] 2 1 0 [] =
      Returns (x1, [done], [done], 1, []) /\
    [done] <> [dzero].
Proof.
  split; [vm_compute; repeat split|]. split; [vm_compute; reflexivity|].
  do 2 eexists. split; [vm_compute; reflexivity|]. split; [vm_compute; reflexivity|].
  split; [vm_compute; repeat split|].
  split; [vm_compute; reflexivity|]. vm_compute. discriminate.
Qed.

(** * The life cycle of the codec handles *)

Section Lifecycle.
Context {lame : Engine}.

Lemma live_encoders_post_if c s h : live_encoders (post_if c s h) = live_encoders h.
Proof. destruct c; reflexivity. Qed.
Lemma live_decoders_post_if c s h : live_decoders (post_if c s h) = live_decoders h.
Proof. destruct c; reflexivity. Qed.

Lemma handles_conserved_refl (x : t_mp3codec) (h : history) :
  handles_conserved x h x h.
Proof. split; reflexivity. Qed.

Lemma handles_conserved_trans (x y z : t_mp3codec) (h hy hz : history) :
  handles_conserved x h y hy -> handles_conserved y hy z hz ->
  handles_conserved x h z hz.
Proof. unfold handles_conserved. intros [? ?] [? ?]. split; lia. Qed.

Lemma handles_conserved_balanced (x y : t_mp3codec) (h hy : history) :
  handles_conserved x h y hy -> handles_balanced x h -> handles_balanced y hy.
Proof. unfold handles_conserved, handles_balanced. intros [? ?] [? ?]. split; lia. Qed.

Lemma cleanup_conserves (x : t_mp3codec) (h : history) :
  let (x', h') := mp3codec_cleanup_processor x h in
  handles_conserved x h x' h' /\ gfp x' = None /\ hip x' = None.
Proof.
  unfold handles_conserved, held_encoders, held_decoders, mp3codec_cleanup_processor.
  fields.
  destruct (gfp x), (hip x); cbn [live_encoders live_decoders]; repeat split; lia.
Qed.

Lemma configure_encoder_live (x : t_mp3codec) (h : history) :
  live_encoders (snd (configure_encoder x h)) = live_encoders h /\
  live_decoders (snd (configure_encoder x h)) = live_decoders h.
Proof.
  unfold configure_encoder. cbn [snd].
  rewrite !live_encoders_post_if, !live_decoders_post_if. auto.
Qed.

Lemma finish_init_conserves (x : t_mp3codec) (g : lame_global_flags) (h : history) :
  gfp x = Some g -> hip x = None ->
  let '(rc, x', h') := finish_init x g h in
  live_encoders h' - held_encoders x' = live_encoders h - 1 /\
  live_decoders h' - held_decoders x' = live_decoders h.
Proof.
  intros Hg Hh. unfold finish_init, held_encoders, held_decoders.
  destruct (hip_decode_init _); cbn [negb]; fields;
    cbn [live_encoders live_decoders post error].
  - rewrite Hg. split; lia.
  - rewrite Hh. split; lia.
Qed.

Lemma init_processor_conserves (x : t_mp3codec) (h : history) :
  let '(rc, x', h') := mp3codec_init_processor x h in handles_conserved x h x' h'.
Proof.
  unfold mp3codec_init_processor.
  pose proof (cleanup_conserves x h) as Hc.
  destruct (mp3codec_cleanup_processor x h) as [x0 h0].
  destruct Hc as ((He0 & Hd0) & Hg0 & Hh0).
  assert (Hx0 : held_encoders x0 = 0 /\ held_decoders x0 = 0).
  { unfold held_encoders, held_decoders. rewrite Hg0, Hh0. auto. }
  destruct Hx0 as [Hhe0 Hhd0].
  destruct (lame_init h0) eqn:Hli; cbn [negb].
  - pose proof (configure_encoder_live x0 (Ev_lame_init true :: h0)) as (Hce & Hcd).
    destruct (configure_encoder x0 (Ev_lame_init true :: h0)) as [g h1].
    cbn [snd live_encoders live_decoders] in Hce, Hcd.
    assert (Hfail : forall y hy, hip y = None ->
              live_encoders hy = live_encoders h0 ->
              live_decoders hy = live_decoders h0 ->
              handles_conserved x h (set_gfp None y) hy).
    { intros y hy Hy H1 H2. unfold handles_conserved.
      replace (held_encoders (set_gfp None y)) with 0 by reflexivity.
      replace (held_decoders (set_gfp None y)) with 0
        by (unfold held_decoders; fields; rewrite Hy; reflexivity).
      split; lia. }
    assert (Hfin : forall y g' hy, gfp y = Some g' -> hip y = None ->
              live_encoders hy = live_encoders h0 + 1 ->
              live_decoders hy = live_decoders h0 ->
              let '(rc, x', h') := finish_init y g' hy in handles_conserved x h x' h').
    { intros y g' hy Hy1 Hy2 H1 H2.
      pose proof (finish_init_conserves y g' hy Hy1 Hy2) as Hf.
      destruct (finish_init y g' hy) as [[rc x'] h'].
      unfold handles_conserved. destruct Hf. split; lia. }
    match goal with |- context [if ?c then _ else _] => destruct c eqn:Hrc end.
    + match goal with |- context [if ?c then _ else _] => destruct c eqn:Hq end.
      * match goal with |- context [if ?c then _ else _] => destruct c eqn:Hrc2 end.
        -- cbv beta iota zeta. apply Hfail; [fields; exact Hh0 | |];
             cbn [live_encoders live_decoders post error]; lia.
        -- apply Hfin; [reflexivity | fields; exact Hh0 | |];
             cbn [live_encoders live_decoders post error]; lia.
      * cbv beta iota zeta. apply Hfail; [fields; exact Hh0 | |];
          cbn [live_encoders live_decoders post error]; lia.
    + apply Hfin; [reflexivity | fields; exact Hh0 | |];
        cbn [live_encoders live_decoders post error]; lia.
  - cbv beta iota zeta. unfold handles_conserved.
    cbn [live_encoders live_decoders post error]. split; lia.
Qed.

Lemma init_processor_balanced (x : t_mp3codec) (h : history) :
  handles_balanced x h ->
  let '(rc, x', h') := mp3codec_init_processor x h in handles_balanced x' h'.
Proof.
  intros Hb. pose proof (init_processor_conserves x h) as Hi.
  destruct (mp3codec_init_processor x h) as [[rc x'] h'].
  exact (handles_conserved_balanced _ _ _ _ Hi Hb).
Qed.

Lemma reinitialize_balanced (x : t_mp3codec) (h : history) :
  handles_balanced x h ->
  handles_balanced (fst (reinitialize x h)) (snd (reinitialize x h)).
Proof.
  intros Hb. unfold reinitialize.
  pose proof (init_processor_balanced (set_initialized 0 x) (Ev_systhread_sleep 50 :: h)) as Hi.
  destruct (mp3codec_init_processor _ _) as [[rc x'] h'].
  cbn [fst snd]. apply Hi. exact Hb.
Qed.

Ltac toggle_balanced Hb :=
  unfold post; apply reinitialize_balanced; exact Hb.

(** X1.  Across every message and the destructor, the object holds exactly the
    codec handles that are live: every encoder and decoder the engine hands
    out is either stored in the object or has been given back, none is given
    back twice, and at most one of each is live.  After the destructor no
    handle is live. *)
Theorem handles_stay_balanced (x : t_mp3codec) (n : Z) (samplerate : double)
    (h : history) :
  handles_balanced x h ->
  handles_balanced (snd (fst (mp3codec_init_processor x h)))
    (snd (mp3codec_init_processor x h)) /\
  handles_balanced (fst (mp3codec_quality x n h)) (snd (mp3codec_quality x n h)) /\
  handles_balanced (fst (mp3codec_reset x h)) (snd (mp3codec_reset x h)) /\
  handles_balanced (fst (mp3codec_lowpass x n h)) (snd (mp3codec_lowpass x n h)) /\
  handles_balanced (fst (mp3codec_highpass x n h)) (snd (mp3codec_highpass x n h)) /\
  handles_balanced (fst (mp3codec_msstereo x n h)) (snd (mp3codec_msstereo x n h)) /\
  handles_balanced (fst (mp3codec_athonly x n h)) (snd (mp3codec_athonly x n h)) /\
  handles_balanced (fst (mp3codec_experimental x n h))
    (snd (mp3codec_experimental x n h)) /\
  handles_balanced (fst (mp3codec_emphasis x n h)) (snd (mp3codec_emphasis x n h)) /\
  handles_balanced (fst (mp3codec_dsp64 x samplerate h))
    (snd (mp3codec_dsp64 x samplerate h)) /\
  handles_balanced (mp3codec_bypass x n) h /\
  handles_balanced (fst (mp3codec_free x h)) (snd (mp3codec_free x h)) /\
  live_encoders (snd (mp3codec_free x h)) = 0 /\
  live_decoders (snd (mp3codec_free x h)) = 0.
Proof.
  intros Hb.
  split.
  { pose proof (init_processor_balanced x h Hb) as Hi.
    destruct (mp3codec_init_processor x h) as [[rc x'] h']. exact Hi. }
  split.
  { unfold mp3codec_quality. fields.
    match goal with |- context [if ?c then _ else _] => destruct c eqn:Hq end.
    - pose proof (init_processor_balanced
                    (set_quality (CLAMP n 0 9) (set_initialized 0 x))
                    (Ev_systhread_sleep 50 :: h) Hb) as Hi.
      destruct (mp3codec_init_processor _ _) as [[rc x1] h1].
      destruct (rc <? 0).
      + pose proof (init_processor_balanced (set_quality (quality x) x1)
                      (error "mp3codec~: Failed to change quality to %ld" h1) Hi) as Hi2.
        destruct (mp3codec_init_processor _ _) as [[rc2 x2] h2].
        destruct (rc2 <? 0); exact Hi2.
      + exact Hi.
    - exact Hb. }
  split.
  { unfold mp3codec_reset.
    pose proof (init_processor_balanced (set_initialized 0 x)
                  (Ev_systhread_sleep 50 :: h) Hb) as Hi.
    destruct (mp3codec_init_processor _ _) as [[rc x1] h1].
    destruct (rc <? 0); exact Hi. }
  split; [unfold mp3codec_lowpass; toggle_balanced Hb|].
  split; [unfold mp3codec_highpass; toggle_balanced Hb|].
  split; [unfold mp3codec_msstereo; toggle_balanced Hb|].
  split; [unfold mp3codec_athonly; toggle_balanced Hb|].
  split; [unfold mp3codec_experimental; toggle_balanced Hb|].
  split; [unfold mp3codec_emphasis; toggle_balanced Hb|].
  split.
  { unfold mp3codec_dsp64.
    destruct (negb _).
    - pose proof (init_processor_balanced
                    (set_sample_rate (long_of_double samplerate) x) h Hb) as Hi.
      destruct (mp3codec_init_processor _ _) as [[rc x1] h1]. exact Hi.
    - exact Hb. }
  split; [exact Hb|].
  unfold mp3codec_free.
  pose proof (cleanup_conserves x h) as Hc.
  destruct (mp3codec_cleanup_processor x h) as [x0 h0]. cbn [fst snd].
  destruct Hc as ((He & Hd) & Hg & Hh).
  destruct Hb as [Hb1 Hb2].
  unfold handles_balanced, held_encoders, held_decoders in *.
  rewrite Hg, Hh in *. repeat split; lia.
Qed.

Lemma cleanup_noop (x : t_mp3codec) (h : history) :
  failed_state x ->
  encode_buffer_fill x = 0 -> mp3_accumulator_fill x = 0 ->
  ring_write_pos x = 0 -> ring_read_pos x = 0 ->
  mp3codec_cleanup_processor x h = (x, h).
Proof.
  unfold failed_state, torn_down, mp3codec_cleanup_processor.
  destruct x. fields.
  intros (Hi & H1 & H2 & H3 & H4 & H5 & H6 & H7 & H8 & H9) F1 F2 F3 F4.
  subst. reflexivity.
Qed.

(** X2.  Tearing down twice is tearing down once: the destructor leaves every
    handle and buffer NULL and the configuration as it was, and on an object
    that was just torn down it changes nothing and calls nothing, so no
    handle is closed and no buffer freed a second time. *)
Theorem free_is_idempotent (x : t_mp3codec) (h : history) :
  let (x', h') := mp3codec_free x h in
  failed_state x' /\ kept x x' /\ mp3codec_free x' h' = (x', h').
Proof.
  unfold mp3codec_free.
  pose proof (cleanup_spec x h) as Hc.
  destruct (mp3codec_cleanup_processor x h) as [x' h'].
  destruct Hc as (Hk & Hi & Ht & F1 & F2 & F3 & F4 & _).
  split; [split; assumption|]. split; [exact Hk|].
  apply cleanup_noop; try assumption. split; assumption.
Qed.

End Lifecycle.

(** * How the configuration reaches the encoder *)

Section Configuration.
Context {lame : Engine}.

(** X3.  Initialization is all or nothing, whatever state it starts from and
    whatever the engine answers: it returns 0 with the object freshly
    initialized and no error printed, or -1 with every handle and buffer NULL,
    [initialized] 0 and exactly one error printed.  In both cases the
    configuration, the sample rate, the channel count and the outlets are
    untouched, and [lame_init] has been called exactly once. *)
Theorem init_processor_all_or_nothing (x : t_mp3codec) (h : history) :
  let '(rc, x', h') := mp3codec_init_processor x h in
  kept x x' /\ rebuilds h' = S (rebuilds h) /\
  ((rc = 0 /\ freshly_initialized x' /\ errors h' = errors h) \/
   (rc = -1 /\ failed_state x' /\ errors h' = S (errors h))).
Proof.
  pose proof (init_processor_spec x h) as Hs.
  pose proof (init_processor_ok x h) as Ho.
  destruct (mp3codec_init_processor x h) as [[rc x'] h'].
  destruct Hs as (Hk & Hr & Hcase).
  split; [exact Hk|]. split; [exact Hr|].
  destruct Hcase as [(Hrc & Hi & He) | (Hrc & Hf & He)].
  - left. split; [exact Hrc|]. split; [|exact He]. apply Ho. exact Hrc.
  - right. auto.
Qed.

Lemma CLAMP_range (a lo hi : Z) : lo <= hi -> lo <= CLAMP a lo hi <= hi.
Proof.
  intros H. unfold CLAMP.
  destruct (a >? lo) eqn:H1; [destruct (a <? hi) eqn:H2|]; lia.
Qed.

Lemma CLAMP_inside (a lo hi : Z) : lo <= a <= hi -> CLAMP a lo hi = a.
Proof.
  intros H. unfold CLAMP.
  destruct (a >? lo) eqn:H1; [destruct (a <? hi) eqn:H2|]; lia.
Qed.

Lemma SFltb_SFleb (a b : spec_float) : SFltb a b = true -> SFleb a b = true.
Proof.
  unfold SFltb, SFleb. destruct (SFcompare a b) as [[| |]|]; congruence.
Qed.

Lemma CLAMP_double_range (a : double) :
  gain_in_range (CLAMP_double a dzero (double_of_long 4)).
Proof.
  unfold gain_in_range, CLAMP_double, dle, dlt.
  destruct (SFltb dzero a) eqn:H1.
  - destruct (SFltb a (double_of_long 4)) eqn:H2.
    + split; apply SFltb_SFleb; assumption.
    + split; vm_compute; reflexivity.
  - split; vm_compute; reflexivity.
Qed.

Lemma c_bool_range (b : bool) : c_bool b = 0 \/ c_bool b = 1.
Proof. destruct b; auto. Qed.

Lemma encoder_settings_any_history (x : t_mp3codec) (h : history) :
  fst (configure_encoder x h) = encoder_settings x.
Proof. reflexivity. Qed.

Lemma encoder_settings_kept (x y : t_mp3codec) :
  kept x y -> encoder_settings y = encoder_settings x.
Proof.
  unfold kept, same_config.
  intros ((Hq & _ & _ & _ & Hlp & Hhp & Hms & Hath & Hex & Hem) & Hsr & Hch & _).
  unfold encoder_settings, configure_encoder. cbn [fst].
  rewrite Hq, Hlp, Hhp, Hms, Hath, Hex, Hem, Hsr, Hch. reflexivity.
Qed.

Lemma kept_refl (x : t_mp3codec) : kept x x.
Proof. unfold kept, same_config. repeat split. Qed.

Lemma kept_sym (x y : t_mp3codec) : kept x y -> kept y x.
Proof.
  unfold kept, same_config. intros H.
  repeat match goal with H : _ /\ _ |- _ => destruct H end.
  repeat split; congruence.
Qed.

Lemma setting_lame_set (p q : lame_param) (v : Z) (g : lame_global_flags) :
  setting p (lame_set q v g) = if same_param p q then Some v else setting p g.
Proof.
  unfold lame_set. induction g as [|[r w] g IH]; cbn [app setting].
  - destruct (same_param p q); reflexivity.
  - rewrite IH. destruct (same_param p q); [reflexivity|].
    reflexivity.
Qed.

Lemma setting_set_if (p : lame_param) (c : bool) (q : lame_param) (v : Z)
    (g : lame_global_flags) :
  setting p (if c then lame_set q v g else g) =
  if c && same_param p q then Some v else setting p g.
Proof. destruct c; [apply setting_lame_set|reflexivity]. Qed.

Lemma setting_set_if2 (p : lame_param) (c : bool) (q1 q2 : lame_param) (v1 v2 : Z)
    (g : lame_global_flags) :
  setting p (if c then lame_set q2 v2 (lame_set q1 v1 g) else g) =
  if c && same_param p q2 then Some v2
  else if c && same_param p q1 then Some v1 else setting p g.
Proof. destruct c; [rewrite !setting_lame_set|]; reflexivity. Qed.

Lemma setting_set_if3 (p : lame_param) (c : bool) (q1 q2 q3 : lame_param)
    (v1 v2 v3 : Z) (g : lame_global_flags) :
  setting p (if c then lame_set q3 v3 (lame_set q2 v2 (lame_set q1 v1 g)) else g) =
  if c && same_param p q3 then Some v3
  else if c && same_param p q2 then Some v2
  else if c && same_param p q1 then Some v1 else setting p g.
Proof. destruct c; [rewrite !setting_lame_set|]; reflexivity. Qed.

Lemma lame_set_if (c : bool) (q : lame_param) (v w : Z) (g : lame_global_flags) :
  (if c then lame_set q v g else lame_set q w g) = lame_set q (if c then v else w) g.
Proof. destruct c; reflexivity. Qed.

Ltac peel_setting :=
  first [rewrite setting_lame_set | rewrite setting_set_if3
        | rewrite setting_set_if2 | rewrite setting_set_if];
  cbn [same_param lame_param_index Z.eqb Pos.eqb];
  rewrite ?andb_false_r, ?andb_true_r; cbv iota.

(** X4.  What the encoder is configured with, setting by setting: constant
    bitrate at the table entry of the quality, the object's sample rate on
    both sides, joint stereo at 128 kbps and below, the bit reservoir off; and
    each toggle decides on exactly its own settings, which are absent when the
    toggle is off. *)
Theorem encoder_settings_spec (x : t_mp3codec) :
  let g := encoder_settings x in
  let kbps := QUALITY_BITRATES (quality x) in
  setting num_channels g = Some (channels x) /\
  setting in_samplerate g = Some (sample_rate x) /\
  setting out_samplerate g = Some (sample_rate x) /\
  setting VBR g = Some vbr_off /\
  setting brate g = Some kbps /\
  setting lame_quality g = Some (quality x) /\
  setting mode g =
    Some (if kbps <=? 128 then JOINT_STEREO
          else if channels x =? 2 then STEREO else MONO) /\
  setting force_ms g = (if nonzero (enable_ms_stereo x) then Some 1 else None) /\
  setting ATHonly g = (if nonzero (enable_ath_only x) then Some 1 else None) /\
  setting ATHshort g = (if nonzero (enable_ath_only x) then Some 1 else None) /\
  setting no_short_blocks g =
    (if nonzero (enable_ath_only x) then Some 0 else None) /\
  setting emphasis g = (if nonzero (enable_emphasis x) then Some 1 else None) /\
  setting experimentalX g =
    (if nonzero (enable_experimental x) then Some 9 else None) /\
  setting experimentalY g =
    (if nonzero (enable_experimental x) then Some 1 else None) /\
  setting lowpassfreq g =
    (if nonzero (enable_lowpass x) then Some (lowpass_for kbps) else None) /\
  setting highpassfreq g =
    (if nonzero (enable_highpass x) then Some 100 else None) /\
  setting disable_reservoir g = Some 1.
Proof.
  cbv zeta. unfold encoder_settings, configure_encoder. cbn [fst].
  rewrite lame_set_if.
  repeat split; repeat peel_setting; try reflexivity.
Qed.

Lemma finish_init_gfp (x : t_mp3codec) (g : lame_global_flags) (h : history) :
  gfp x = Some g ->
  let '(rc, x', h') := finish_init x g h in
  init_params_calls h' = init_params_calls h /\
  (gfp x' = None \/ gfp x' = Some g).
Proof.
  intros Hg. unfold finish_init.
  destruct (hip_decode_init _); cbn [negb]; fields;
    cbn [init_params_calls post error]; auto.
Qed.

(** With a quality of the table, the initializer asks the engine once, for
    the settings of the object's configuration, and the encoder it leaves in
    the object (if any) has those settings. *)
Lemma init_processor_gfp (x : t_mp3codec) (h : history) :
  0 <= quality x <= 9 ->
  let '(rc, x', h') := mp3codec_init_processor x h in
  (gfp x' = None \/ gfp x' = Some (encoder_settings x)) /\
  (rc = 0 -> gfp x' = Some (encoder_settings x) /\
             init_params_calls h' = init_params_calls h ++ [encoder_settings x]).
Proof.
  intros Hq.
  pose proof (init_processor_spec x h) as Hs.
  pose proof (init_processor_ok x h) as Ho.
  unfold mp3codec_init_processor in *.
  pose proof (cleanup_spec x h) as Hc.
  destruct (mp3codec_cleanup_processor x h) as [x0 h0].
  destruct Hc as (Hk & _ & (Hg0 & _) & _ & _ & _ & _ & _ & _ & Hp0).
  pose proof (encoder_settings_kept _ _ Hk) as Hes.
  assert (Hq0 : quality x0 = quality x) by apply Hk.
  destruct (lame_init h0) eqn:Hli; cbn [negb] in *.
  - pose proof (configure_encoder_spec x0 (Ev_lame_init true :: h0)) as (_ & _ & Hcp).
    pose proof (encoder_settings_any_history x0 (Ev_lame_init true :: h0)) as Hg.
    destruct (configure_encoder x0 (Ev_lame_init true :: h0)) as [g h1].
    cbn [fst snd init_params_calls] in Hcp, Hg. rewrite Hes in Hg. subst g.
    fields_in Hs. fields_in Ho. fields. rewrite Hq0 in *.
    rewrite (no_fallback_bitrate _ Hq) in *.
    match goal with |- context [if ?c then _ else _] => destruct c eqn:Hrc end.
    + cbv beta iota zeta. split; [left; reflexivity|].
      intros Hz. destruct Hs as (_ & _ & [(Hs0 & _)|(Hs0 & _)]); lia.
    + pose proof (finish_init_gfp (set_gfp (Some (encoder_settings x)) x0)
                    (encoder_settings x)
                    (Ev_lame_init_params (encoder_settings x)
                       (lame_init_params h1 (encoder_settings x)) :: h1)
                    eq_refl) as Hf.
      destruct (finish_init _ _ _) as [[rc x'] h'].
      destruct Hf as (Hp & Hgf). split; [exact Hgf|].
      intros Hz. destruct (Ho Hz) as ((_ & (g' & Hg') & _) & _).
      split.
      * destruct Hgf as [Hn|Hsome]; [congruence|exact Hsome].
      * rewrite Hp. cbn [init_params_calls]. rewrite Hcp, Hp0. reflexivity.
  - cbv beta iota zeta. split; [left; exact Hg0|].
    intros Hz. destruct Hs as (_ & _ & [(Hs0 & _)|(Hs0 & _)]); lia.
Qed.

Lemma init_processor_in_sync (x : t_mp3codec) (h : history) :
  0 <= quality x <= 9 ->
  let '(rc, x', h') := mp3codec_init_processor x h in
  encoder_in_sync x' /\ quality x' = quality x.
Proof.
  intros Hq.
  pose proof (init_processor_gfp x h Hq) as Hg.
  pose proof (init_processor_spec x h) as Hs.
  destruct (mp3codec_init_processor x h) as [[rc x'] h'].
  destruct Hs as (Hk & _). destruct Hg as (Hg & _).
  split; [|apply Hk].
  unfold encoder_in_sync. intros g Hgx.
  rewrite (encoder_settings_kept _ _ Hk).
  destruct Hg as [Hn|Hsome]; congruence.
Qed.

Lemma encoder_in_sync_ext (x y : t_mp3codec) :
  kept x y -> gfp y = gfp x -> encoder_in_sync x -> encoder_in_sync y.
Proof.
  unfold encoder_in_sync. intros Hk Hg Hs g Hy.
  rewrite (encoder_settings_kept _ _ Hk). apply Hs. congruence.
Qed.

Lemma reinitialize_in_sync (x : t_mp3codec) (h : history) :
  0 <= quality x <= 9 ->
  encoder_in_sync (fst (reinitialize x h)) /\
  quality (fst (reinitialize x h)) = quality x.
Proof.
  intros Hq. unfold reinitialize.
  pose proof (init_processor_in_sync (set_initialized 0 x)
                (Ev_systhread_sleep 50 :: h) Hq) as Hi.
  destruct (mp3codec_init_processor _ _) as [[rc x'] h']. exact Hi.
Qed.

Ltac toggle_in_sync Hq :=
  unfold post;
  match goal with
  | |- context [reinitialize ?y ?hh] => exact (reinitialize_in_sync y hh Hq)
  end.

(** X5.  The stored quality never leaves the bitrate table, and the encoder never
    lags behind the configuration: if the quality is between 0 and 9 and the
    encoder the object holds (if any) has the settings of the object's
    configuration, the same is true after every message.  This is what makes
    a message take effect: after [lowpass 0] an encoder in the object has no
    low-pass setting, after [quality 7] it runs at 64 kbps, and so on. *)
Theorem encoder_stays_in_sync (x : t_mp3codec) (n : Z) (samplerate : double)
    (h : history) :
  0 <= quality x <= 9 ->
  encoder_in_sync x ->
  (encoder_in_sync (fst (mp3codec_quality x n h)) /\
   0 <= quality (fst (mp3codec_quality x n h)) <= 9) /\
  (encoder_in_sync (fst (mp3codec_reset x h)) /\
   quality (fst (mp3codec_reset x h)) = quality x) /\
  (encoder_in_sync (fst (mp3codec_lowpass x n h)) /\
   quality (fst (mp3codec_lowpass x n h)) = quality x) /\
  (encoder_in_sync (fst (mp3codec_highpass x n h)) /\
   quality (fst (mp3codec_highpass x n h)) = quality x) /\
  (encoder_in_sync (fst (mp3codec_msstereo x n h)) /\
   quality (fst (mp3codec_msstereo x n h)) = quality x) /\
  (encoder_in_sync (fst (mp3codec_athonly x n h)) /\
   quality (fst (mp3codec_athonly x n h)) = quality x) /\
  (encoder_in_sync (fst (mp3codec_experimental x n h)) /\
   quality (fst (mp3codec_experimental x n h)) = quality x) /\
  (encoder_in_sync (fst (mp3codec_emphasis x n h)) /\
   quality (fst (mp3codec_emphasis x n h)) = quality x) /\
  (encoder_in_sync (fst (mp3codec_dsp64 x samplerate h)) /\
   quality (fst (mp3codec_dsp64 x samplerate h)) = quality x) /\
  (encoder_in_sync (mp3codec_bypass x n) /\
   quality (mp3codec_bypass x n) = quality x).
Proof.
  intros Hq Hsync.
  split.
  { unfold mp3codec_quality. fields.
    match goal with |- context [if ?c then _ else _] => destruct c eqn:Hc end.
    - pose proof (init_processor_in_sync
                    (set_quality (CLAMP n 0 9) (set_initialized 0 x))
                    (Ev_systhread_sleep 50 :: h)) as Hi.
      destruct (mp3codec_init_processor _ _) as [[rc x1] h1].
      fields_in Hi.
      destruct Hi as (Hs1 & Hq1); [apply CLAMP_range; lia|].
      assert (Hr : 0 <= quality x1 <= 9) by (rewrite Hq1; apply CLAMP_range; lia).
      destruct (rc <? 0).
      + pose proof (init_processor_in_sync (set_quality (quality x) x1)
                      (error "mp3codec~: Failed to change quality to %ld" h1)) as Hi2.
        destruct (mp3codec_init_processor _ _) as [[rc2 x2] h2].
        fields_in Hi2. destruct (Hi2 Hq) as (Hs2 & Hq2).
        destruct (rc2 <? 0); cbn [fst]; (split; [exact Hs2|lia]).
      + cbn [fst]. split; [exact Hs1|exact Hr].
    - assert (Heq : CLAMP n 0 9 = quality x)
        by (apply negb_false_iff in Hc; lia).
      cbn [fst]. split.
      + apply (encoder_in_sync_ext x); [|reflexivity|exact Hsync].
        unfold kept, same_config. fields. repeat split. exact Heq.
      + fields. rewrite Heq. exact Hq. }
  split.
  { unfold mp3codec_reset.
    pose proof (init_processor_in_sync (set_initialized 0 x)
                  (Ev_systhread_sleep 50 :: h) Hq) as Hi.
    destruct (mp3codec_init_processor _ _) as [[rc x1] h1].
    destruct (rc <? 0); exact Hi. }
  split; [unfold mp3codec_lowpass; toggle_in_sync Hq|].
  split; [unfold mp3codec_highpass; toggle_in_sync Hq|].
  split; [unfold mp3codec_msstereo; toggle_in_sync Hq|].
  split; [unfold mp3codec_athonly; toggle_in_sync Hq|].
  split; [unfold mp3codec_experimental; toggle_in_sync Hq|].
  split; [unfold mp3codec_emphasis; toggle_in_sync Hq|].
  split.
  { unfold mp3codec_dsp64.
    destruct (negb _).
    - pose proof (init_processor_in_sync
                    (set_sample_rate (long_of_double samplerate) x) h Hq) as Hi.
      destruct (mp3codec_init_processor _ _) as [[rc x1] h1]. exact Hi.
    - split; [exact Hsync|reflexivity]. }
  split; [|reflexivity].
  unfold encoder_in_sync, mp3codec_bypass. fields. intros g Hg.
  rewrite (Hsync g Hg). reflexivity.
Qed.

Lemma constructor_config_kept (x y : t_mp3codec) :
  kept x y -> constructor_config x -> constructor_config y.
Proof.
  unfold kept, same_config, constructor_config.
  intros ((Hq & Hig & Hog & Hb & Hlp & Hhp & Hms & Hath & Hex & Hem)
          & Hsr & Hch & Hao & Hso) Hc.
  rewrite Hq, Hig, Hog, Hb, Hlp, Hhp, Hms, Hath, Hex, Hem, Hsr, Hch, Hao, Hso.
  exact Hc.
Qed.

Lemma new_tail (y : t_mp3codec) (h : history) :
  constructor_config y -> gfp y = None -> hip y = None ->
  let (x, h') :=
    (let '(rc, x, h1) := mp3codec_init_processor y h in
     let (x, h2) :=
       if rc <? 0 then
         mp3codec_cleanup_processor x
           (error "mp3codec~: Failed to initialize MP3 processor" h1)
       else (x, h1) in
     (x, post "mp3codec~: Initialized - Quality %ld (%d kbps CBR)" h2)) in
  constructor_config x /\ encoder_in_sync x /\
  live_encoders h' = live_encoders h + held_encoders x /\
  live_decoders h' = live_decoders h + held_decoders x /\
  ((freshly_initialized x /\ errors h' = errors h) \/
   (failed_state x /\ errors h' = (2 + errors h)%nat)) /\
  exists hp, h' = Ev_post "mp3codec~: Initialized - Quality %ld (%d kbps CBR)" :: hp.
Proof.
  intros Hcfg Hg Hh.
  assert (Hq : 0 <= quality y <= 9) by apply Hcfg.
  pose proof (init_processor_spec y h) as Hs.
  pose proof (init_processor_ok y h) as Ho.
  pose proof (init_processor_in_sync y h Hq) as Hsy.
  pose proof (init_processor_conserves y h) as Hco.
  destruct (mp3codec_init_processor y h) as [[rc x1] h1].
  destruct Hs as (Hk & _ & Hcase). destruct Hsy as (Hsy & _).
  destruct Hco as (Hce & Hcd).
  assert (Hy0 : held_encoders y = 0 /\ held_decoders y = 0).
  { unfold held_encoders, held_decoders. rewrite Hg, Hh. auto. }
  destruct Hy0 as [Hye Hyd].
  destruct Hcase as [(Hrc & Hi & He) | (Hrc & Hf & He)].
  - subst rc. change (0 <? 0) with false. cbv beta iota.
    split; [exact (constructor_config_kept _ _ Hk Hcfg)|].
    split; [exact Hsy|].
    cbn [live_encoders live_decoders errors post].
    split; [lia|]. split; [lia|].
    split; [left; split; [apply Ho; reflexivity|exact He]|].
    eexists. reflexivity.
  - subst rc. change (-1 <? 0) with true. cbv beta iota.
    pose proof (cleanup_spec x1
                  (error "mp3codec~: Failed to initialize MP3 processor" h1)) as Hc.
    pose proof (cleanup_conserves x1
                  (error "mp3codec~: Failed to initialize MP3 processor" h1)) as Hcc.
    destruct (mp3codec_cleanup_processor x1 _) as [x2 h2].
    destruct Hc as (Hk2 & Hi2 & Ht2 & _ & _ & _ & _ & He2 & _).
    destruct Hcc as ((Hce2 & Hcd2) & Hg2 & Hh2).
    split; [exact (constructor_config_kept _ _ (kept_trans _ _ _ Hk Hk2) Hcfg)|].
    split; [unfold encoder_in_sync; intros g Hgx; congruence|].
    cbn [live_encoders live_decoders errors post error] in *.
    split; [lia|]. split; [lia|].
    split; [right; split; [split; assumption|lia]|].
    eexists. reflexivity.
Qed.

(** X6.  What the constructor leaves behind, whatever the arguments and whatever
    the engine answers: a quality between 0 and 9 and gains between 0.0 and
    4.0 (out-of-range arguments are clamped, a NaN gain becomes 0.0), a
    bypass flag that is 0 or 1, every toggle on, 44.1 kHz, two channels and
    both outlets; and a pipeline that is either freshly initialized, with no
    error printed, or fully torn down, with two errors printed.  The handles
    the object holds are exactly the ones it obtained and did not give back,
    and its encoder, if any, has the settings of its configuration.  The last
    console line is the "Initialized" line in both cases, also when the
    initialization failed. *)
Theorem new_postcondition (argv : list t_atom) (h : history) :
  let (x, h') := mp3codec_new argv h in
  constructor_config x /\ encoder_in_sync x /\
  live_encoders h' = live_encoders h + held_encoders x /\
  live_decoders h' = live_decoders h + held_decoders x /\
  ((freshly_initialized x /\ errors h' = errors h) \/
   (failed_state x /\ errors h' = (2 + errors h)%nat)) /\
  exists hp, h' = Ev_post "mp3codec~: Initialized - Quality %ld (%d kbps CBR)" :: hp.
Proof.
  unfold mp3codec_new. cbv zeta.
  apply new_tail.
  - unfold constructor_config.
    destruct (Z.of_nat (length argv) >=? 1), (Z.of_nat (length argv) >=? 2),
      (Z.of_nat (length argv) >=? 3), (Z.of_nat (length argv) >=? 4); fields;
      repeat match goal with
        | |- _ <= CLAMP _ _ _ <= _ => apply CLAMP_range; lia
        | |- _ <= _ <= _ => lia
        | |- gain_in_range (CLAMP_double _ _ _) => apply CLAMP_double_range
        | |- gain_in_range _ => split; vm_compute; reflexivity
        | |- c_bool _ = 0 \/ _ => apply c_bool_range
        | |- 0 = 0 \/ _ => left; reflexivity
        | |- _ = _ => reflexivity
        | |- _ /\ _ => split
        end.
  - destruct (Z.of_nat (length argv) >=? 1), (Z.of_nat (length argv) >=? 2),
      (Z.of_nat (length argv) >=? 3), (Z.of_nat (length argv) >=? 4); reflexivity.
  - destruct (Z.of_nat (length argv) >=? 1), (Z.of_nat (length argv) >=? 2),
      (Z.of_nat (length argv) >=? 3), (Z.of_nat (length argv) >=? 4); reflexivity.
Qed.

(** X7.  After a rebuild that failed, a latency query reports nothing: it prints
    that the object is not initialized and sends no list out of the analysis
    outlet. *)
Theorem latency_after_failed_rebuild (x x' : t_mp3codec) (h h' hq : history) :
  mp3codec_init_processor x h = (-1, x', h') ->
  mp3codec_latency x' hq =
    post "mp3codec~: Not initialized - cannot report latency" hq /\
  emitted (mp3codec_latency x' hq) = emitted hq.
Proof.
  intros Hinit.
  pose proof (init_processor_spec x h) as Hs. rewrite Hinit in Hs.
  destruct Hs as (_ & _ & [(Hrc & _) | (_ & (Hi & _) & _)]); [discriminate|].
  unfold mp3codec_latency. rewrite Hi. split; reflexivity.
Qed.

Lemma encoder_settings_samplerate (x : t_mp3codec) :
  setting in_samplerate (encoder_settings x) = Some (sample_rate x) /\
  setting out_samplerate (encoder_settings x) = Some (sample_rate x).
Proof.
  unfold encoder_settings, configure_encoder. cbn [fst].
  rewrite lame_set_if.
  split; repeat peel_setting; reflexivity.
Qed.

(** X8.  The DSP chain being (re)started: at the object's current sample rate
    (the host's rate truncated to an integer) nothing is touched and nothing
    is called; at a different rate the new rate is stored and the processor
    is rebuilt once, and if the rebuild succeeds the pipeline is freshly
    initialized, with an encoder set to the new rate on both sides and the
    latency in milliseconds computed from the new rate. *)
Theorem dsp64_sample_rate (x : t_mp3codec) (samplerate : double) (h : history) :
  0 <= quality x <= 9 ->
  (sample_rate x = long_of_double samplerate ->
   mp3codec_dsp64 x samplerate h = (x, h)) /\
  (sample_rate x <> long_of_double samplerate ->
   let (x', h') := mp3codec_dsp64 x samplerate h in
   sample_rate x' = long_of_double samplerate /\
   rebuilds h' = S (rebuilds h) /\
   (initialized x' = 1 ->
    freshly_initialized x' /\
    exists g, gfp x' = Some g /\
      setting in_samplerate g = Some (long_of_double samplerate) /\
      setting out_samplerate g = Some (long_of_double samplerate))).
Proof.
  intros Hq. unfold mp3codec_dsp64. split.
  - intros ->. rewrite Z.eqb_refl. reflexivity.
  - intros Hne. apply Z.eqb_neq in Hne. rewrite Hne. cbn [negb].
    pose proof (init_processor_spec (set_sample_rate (long_of_double samplerate) x) h) as Hs.
    pose proof (init_processor_ok (set_sample_rate (long_of_double samplerate) x) h) as Ho.
    pose proof (init_processor_gfp (set_sample_rate (long_of_double samplerate) x) h Hq) as Hg.
    destruct (mp3codec_init_processor _ _) as [[rc x'] h'].
    destruct Hs as ((_ & Hsr & _) & Hr & Hcase). fields_in Hsr.
    split; [exact Hsr|]. split; [exact Hr|].
    intros Hi.
    destruct Hcase as [(Hrc & _) | (_ & (Hi0 & _) & _)]; [|lia].
    split; [apply Ho; exact Hrc|].
    destruct Hg as (_ & Hg). destruct (Hg Hrc) as (Hgx & _).
    eexists. split; [exact Hgx|].
    apply (encoder_settings_samplerate (set_sample_rate (long_of_double samplerate) x)).
Qed.

(** X9.  A successful initialization of an object whose quality is in the table
    asks the engine exactly once, for exactly the settings of the object's
    configuration, and leaves an encoder with those settings in the object. *)
Theorem init_asks_for_configuration (x x' : t_mp3codec) (h h' : history) :
  0 <= quality x <= 9 ->
  mp3codec_init_processor x h = (0, x', h') ->
  gfp x' = Some (encoder_settings x') /\
  init_params_calls h' = init_params_calls h ++ [encoder_settings x'] /\
  encoder_settings x' = encoder_settings x.
Proof.
  intros Hq Hinit.
  pose proof (init_processor_gfp x h Hq) as Hg.
  pose proof (init_processor_spec x h) as Hs.
  rewrite Hinit in Hg, Hs.
  destruct Hs as (Hk & _). destruct Hg as (_ & Hg).
  destruct (Hg eq_refl) as (Hgx & Hcalls).
  rewrite (encoder_settings_kept _ _ Hk). auto.
Qed.

Lemma reinitialize_fresh (x : t_mp3codec) (h : history) :
  initialized (fst (reinitialize x h)) = 1 ->
  freshly_initialized (fst (reinitialize x h)).
Proof.
  unfold reinitialize.
  pose proof (init_processor_spec (set_initialized 0 x) (Ev_systhread_sleep 50 :: h)) as Hs.
  pose proof (init_processor_ok (set_initialized 0 x) (Ev_systhread_sleep 50 :: h)) as Ho.
  destruct (mp3codec_init_processor _ _) as [[rc x'] h'].
  cbn [fst]. intros Hi.
  destruct Hs as (_ & _ & [(Hrc & _) | (_ & (Hi0 & _) & _)]); [|lia].
  apply Ho. exact Hrc.
Qed.

(** X10.  A rebuild starts the pipeline from scratch.  Whenever a toggle message,
    a reset or a quality change leaves the object initialized, the pipeline
    is freshly initialized: the samples that were waiting in the encode
    buffer, the bytes staged for the decoder and the decoded audio in the
    ring are gone (the buffers are new and zeroed), and both fills and both
    ring cursors are 0. *)
Theorem rebuild_discards_pending_audio (x : t_mp3codec) (n : Z) (h : history) :
  (initialized (fst (mp3codec_reset x h)) = 1 ->
   freshly_initialized (fst (mp3codec_reset x h))) /\
  (initialized (fst (mp3codec_lowpass x n h)) = 1 ->
   freshly_initialized (fst (mp3codec_lowpass x n h))) /\
  (initialized (fst (mp3codec_highpass x n h)) = 1 ->
   freshly_initialized (fst (mp3codec_highpass x n h))) /\
  (initialized (fst (mp3codec_msstereo x n h)) = 1 ->
   freshly_initialized (fst (mp3codec_msstereo x n h))) /\
  (initialized (fst (mp3codec_athonly x n h)) = 1 ->
   freshly_initialized (fst (mp3codec_athonly x n h))) /\
  (initialized (fst (mp3codec_experimental x n h)) = 1 ->
   freshly_initialized (fst (mp3codec_experimental x n h))) /\
  (initialized (fst (mp3codec_emphasis x n h)) = 1 ->
   freshly_initialized (fst (mp3codec_emphasis x n h))) /\
  (quality x <> CLAMP n 0 9 ->
   initialized (fst (mp3codec_quality x n h)) = 1 ->
   freshly_initialized (fst (mp3codec_quality x n h))).
Proof.
  split.
  { unfold mp3codec_reset.
    pose proof (init_processor_spec (set_initialized 0 x) (Ev_systhread_sleep 50 :: h)) as Hs.
    pose proof (init_processor_ok (set_initialized 0 x) (Ev_systhread_sleep 50 :: h)) as Ho.
    destruct (mp3codec_init_processor _ _) as [[rc x'] h'].
    destruct Hs as (_ & _ & [(Hrc & _) | (Hrc & (Hi0 & _) & _)]); subst rc.
    - intros _. apply Ho. reflexivity.
    - cbn [fst]. intros Hi. change (-1 <? 0) with true in Hi. cbn [fst] in Hi. lia. }
  split; [apply reinitialize_fresh|]. split; [apply reinitialize_fresh|].
  split; [apply reinitialize_fresh|]. split; [apply reinitialize_fresh|].
  split; [apply reinitialize_fresh|]. split; [apply reinitialize_fresh|].
  intros Hne. unfold mp3codec_quality. fields.
  destruct (Z.eqb_spec (quality x) (CLAMP n 0 9)) as [|_]; [contradiction|].
  cbn [negb].
  pose proof (init_processor_spec (set_quality (CLAMP n 0 9) (set_initialized 0 x))
                (Ev_systhread_sleep 50 :: h)) as Hs.
  pose proof (init_processor_ok (set_quality (CLAMP n 0 9) (set_initialized 0 x))
                (Ev_systhread_sleep 50 :: h)) as Ho.
  destruct (mp3codec_init_processor _ _) as [[rc x1] h1].
  destruct Hs as (_ & _ & [(Hrc & _) | (Hrc & _)]); subst rc.
  - change (0 <? 0) with false. cbv iota. cbn [fst]. intros _. apply Ho. reflexivity.
  - change (-1 <? 0) with true. cbv iota.
    pose proof (init_processor_spec (set_quality (quality x) x1)
                  (error "mp3codec~: Failed to change quality to %ld" h1)) as Hs2.
    pose proof (init_processor_ok (set_quality (quality x) x1)
                  (error "mp3codec~: Failed to change quality to %ld" h1)) as Ho2.
    destruct (mp3codec_init_processor _ _) as [[rc2 x2] h2].
    destruct Hs2 as (_ & _ & [(Hrc2 & _) | (Hrc2 & (Hi0 & _) & _)]); subst rc2.
    + change (0 <? 0) with false. cbv iota. cbn [fst]. intros _. apply Ho2. reflexivity.
    + change (-1 <? 0) with true. cbv iota. cbn [fst]. intros Hi. lia.
Qed.

(** X11.  Message arguments are normalised on the way in.  A quality argument
    outside 0..9 acts exactly as the nearest end of the range ([quality 100]
    is [quality 9], [quality -5] is [quality 0]); and every non-zero argument
    of a toggle message or of [bypass] acts exactly as 1. *)
Theorem message_arguments_are_normalised (x : t_mp3codec) (n : Z) (h : history) :
  n <> 0 ->
  mp3codec_quality x n h = mp3codec_quality x (CLAMP n 0 9) h /\
  mp3codec_lowpass x n h = mp3codec_lowpass x 1 h /\
  mp3codec_highpass x n h = mp3codec_highpass x 1 h /\
  mp3codec_msstereo x n h = mp3codec_msstereo x 1 h /\
  mp3codec_athonly x n h = mp3codec_athonly x 1 h /\
  mp3codec_experimental x n h = mp3codec_experimental x 1 h /\
  mp3codec_emphasis x n h = mp3codec_emphasis x 1 h /\
  mp3codec_bypass x n = mp3codec_bypass x 1.
Proof.
  intros Hn.
  assert (Hnz : nonzero n = nonzero 1).
  { unfold nonzero. destruct (Z.eqb_spec n 0); [contradiction|reflexivity]. }
  split.
  { unfold mp3codec_quality.
    rewrite (CLAMP_inside (CLAMP n 0 9)) by (apply CLAMP_range; lia). reflexivity. }
  unfold mp3codec_lowpass, mp3codec_highpass, mp3codec_msstereo, mp3codec_athonly,
    mp3codec_experimental, mp3codec_emphasis, mp3codec_bypass.
  rewrite Hnz. repeat split.
Qed.

End Configuration.

(** * The perform routine: bypass, frame counts, sample ranges *)

Section Blocks.
Context {lame : Engine}.

Lemma write_bypass_spec (x : t_mp3codec) (ins0 ins1 outs0 outs1 : list double)
    (sampleframes : Z) :
  0 <= sampleframes ->
  (Z.to_nat sampleframes <= length ins0)%nat ->
  (Z.to_nat sampleframes <= length ins1)%nat ->
  (Z.to_nat sampleframes <= length outs0)%nat ->
  (Z.to_nat sampleframes <= length outs1)%nat ->
  write_bypass x ins0 ins1 outs0 outs1 sampleframes =
  (map (fun s => dmul (dmul s (input_gain x)) (output_gain x))
     (take (Z.to_nat sampleframes) ins0) ++ drop (Z.to_nat sampleframes) outs0,
   map (fun s => dmul (dmul s (input_gain x)) (output_gain x))
     (take (Z.to_nat sampleframes) ins1) ++ drop (Z.to_nat sampleframes) outs1).
Proof.
  intros Hn Hi0 Hi1 Ho0 Ho1. unfold write_bypass, for_loop.
  rewrite (for_loop_from_pair
             (fun i a => array_set a i
                (dmul (dmul (array_get ins0 i dzero) (input_gain x)) (output_gain x)))
             (fun i a => array_set a i
                (dmul (dmul (array_get ins1 i dzero) (input_gain x)) (output_gain x)))).
  change (for_loop_from (Z.to_nat (sampleframes - 0)) 0
            (fun i a => array_set a i
               (dmul (dmul (array_get ins0 i dzero) (input_gain x)) (output_gain x))))
    with (for_loop 0 sampleframes
            (fun i (a : list double) => array_set a i
               (dmul (dmul (array_get ins0 i dzero) (input_gain x)) (output_gain x)))).
  change (for_loop_from (Z.to_nat (sampleframes - 0)) 0
            (fun i a => array_set a i
               (dmul (dmul (array_get ins1 i dzero) (input_gain x)) (output_gain x))))
    with (for_loop 0 sampleframes
            (fun i (a : list double) => array_set a i
               (dmul (dmul (array_get ins1 i dzero) (input_gain x)) (output_gain x)))).
  rewrite (fill_loop0
             (fun i => dmul (dmul (array_get ins0 i dzero) (input_gain x)) (output_gain x)))
    by assumption.
  rewrite (fill_loop0
             (fun i => dmul (dmul (array_get ins1 i dzero) (input_gain x)) (output_gain x)))
    by assumption.
  rewrite <- (Z2Nat.id sampleframes) at 1 3 by lia.
  rewrite (map_array_get0 (fun s => dmul (dmul s (input_gain x)) (output_gain x)) ins0)
    by assumption.
  rewrite (map_array_get0 (fun s => dmul (dmul s (input_gain x)) (output_gain x)) ins1)
    by assumption.
  reflexivity.
Qed.

(** X12.  Bypass.  After a [bypass] message with a non-zero argument, a call of the
    perform routine on an initialized object copies the block from input to
    output, each sample multiplied by the input gain and then by the output
    gain; the output beyond the block is not written.  The object comes back
    untouched (no buffer, fill or cursor moves), the engine is not called,
    and this holds whether or not the pipeline exists. *)
Theorem bypass_passes_input_through (fuel : nat) (x : t_mp3codec) (k : Z)
    (ins0 ins1 outs0 outs1 : list double) (sampleframes dc : Z) (h : history) :
  initialized x <> 0 -> k <> 0 ->
  0 <= sampleframes ->
  (Z.to_nat sampleframes <= length ins0)%nat ->
  (Z.to_nat sampleframes <= length ins1)%nat ->
  (Z.to_nat sampleframes <= length outs0)%nat ->
  (Z.to_nat sampleframes <= length outs1)%nat ->
  exists hc,
    mp3codec_perform64 fuel (mp3codec_bypass x k) ins0 ins1 2 outs0 outs1 2
      sampleframes dc h =
    Returns (mp3codec_bypass x k,
             map (fun s => dmul (dmul s (input_gain x)) (output_gain x))
               (take (Z.to_nat sampleframes) ins0)
               ++ drop (Z.to_nat sampleframes) outs0,
             map (fun s => dmul (dmul s (input_gain x)) (output_gain x))
               (take (Z.to_nat sampleframes) ins1)
               ++ drop (Z.to_nat sampleframes) outs1,
             dc + 1, hc ++ h) /\
    forallb (fun e => negb (is_engine_call e)) hc = true.
Proof.
  intros Hi Hk Hn Hi0 Hi1 Ho0 Ho1.
  rewrite perform64_bypass.
  - rewrite (write_bypass_spec (mp3codec_bypass x k)) by assumption.
    cbn [fst snd]. unfold mp3codec_bypass at 2 3 4 5. fields.
    eexists. split.
    + rewrite post_if_app. rewrite (post_if_app _ _ h). rewrite app_assoc. reflexivity.
    + rewrite forallb_app, !post_if_console. reflexivity.
  - unfold mp3codec_bypass. fields. exact Hi.
  - unfold mp3codec_bypass, c_bool, nonzero. fields.
    destruct (Z.eqb_spec k 0); [contradiction|]. discriminate.
Qed.

(** X13.  The empty block.  On an initialized object with its buffers in place
    and bypass off, a call with [sampleframes] 0 touches nothing: no sample
    is staged, the engine is not called, the output vectors are not written,
    and fills and cursors are where they were; only the call counter moves.
    No iteration budget is needed. *)
Theorem empty_block_is_noop (fuel : nat) (x : t_mp3codec)
    (ins0 ins1 : list double) (numins : Z) (outs0 outs1 : list double)
    (numouts dc : Z) (h : history) :
  pipeline_ready x ->
  exists hc,
    mp3codec_perform64 fuel x ins0 ins1 numins outs0 outs1 numouts 0 dc h =
      Returns (set_ring_read_pos (ring_read_pos x) x, outs0, outs1, dc + 1, hc ++ h) /\
    forallb (fun e => negb (is_engine_call e)) hc = true.
Proof.
  intros ((Hi & Hb & _ & _ & (el & Hel & _) & (er & Her & _)) &
          (_ & _ & _ & (rl & Hrl) & (rr & Hrr))).
  unfold mp3codec_perform64.
  destruct (Z.eqb_spec (initialized x) 0) as [|_]; [contradiction|].
  rewrite Hb. cbn [nonzero Z.eqb negb]. rewrite Hel, Her, Hrl, Hrr.
  assert (Hproc : forall d hh, process_input fuel x ins0 ins1 0 0 d hh = Returns (x, hh)).
  { intros d hh. destruct fuel; reflexivity. }
  rewrite Hproc. cbn [mbind outcome_bind].
  unfold ring_read. rewrite Hrl, Hrr. cbn [deref mbind outcome_bind].
  cbv zeta. rewrite for_loop_nonpos by lia.
  eexists. split; [rewrite post_if_app; reflexivity|apply post_if_console].
Qed.

(** X14.  How many frames one call encodes.  On a working pipeline a call with a
    block of [n] samples returns and hands exactly
    [(fill + n) / MP3_FRAME_SIZE] frames to the encoder, [fill] being the
    level of the encode buffer before the call; afterwards the level is
    [(fill + n) mod MP3_FRAME_SIZE].  So a call may encode no frame, one
    frame or several. *)
Theorem frames_per_call (fuel : nat) (x : t_mp3codec)
    (ins0 ins1 : list double) (numins : Z) (outs0 outs1 : list double)
    (numouts sampleframes dc : Z) (h : history) :
  pipeline_ready x ->
  0 <= encode_buffer_fill x < MP3_FRAME_SIZE ->
  0 <= sampleframes ->
  (Z.to_nat sampleframes <= length ins0)%nat ->
  (Z.to_nat sampleframes <= length ins1)%nat ->
  (Z.to_nat sampleframes <= fuel)%nat ->
  exists x' o0 o1 h' fs,
    mp3codec_perform64 fuel x ins0 ins1 numins outs0 outs1 numouts sampleframes dc h =
      Returns (x', o0, o1, dc + 1, h') /\
    encoded_frames h' = encoded_frames h ++ fs /\
    Z.of_nat (length fs) = (encode_buffer_fill x + sampleframes) / MP3_FRAME_SIZE /\
    encode_buffer_fill x' = (encode_buffer_fill x + sampleframes) mod MP3_FRAME_SIZE.
Proof.
  intros Hready Hfill Hn Hl0 Hl1 Hfuel.
  destruct (perform64_accumulates fuel x ins0 ins1 numins outs0 outs1 numouts
              sampleframes dc h Hready Hfill Hn Hl0 Hl1 Hfuel)
    as (x' & o0 & o1 & h' & Hrun & (Hready' & _ & Hfill' & fs & Hfs & Hfull & Hleft & _)).
  exists x', o0, o1, h', fs. split; [exact Hrun|]. split; [exact Hfs|].
  apply (f_equal (@length short)) in Hleft.
  rewrite !length_app, !length_map in Hleft.
  destruct (length_concat_full fs Hfull) as [Hc _]. rewrite Hc in Hleft.
  destruct (length_pending x' (proj1 Hready') Hfill') as [Hp' _].
  destruct (length_pending x (proj1 Hready) Hfill) as [Hp _].
  rewrite Hp, Hp', length_take_le in Hleft by lia.
  assert (Heq : encode_buffer_fill x + sampleframes =
                MP3_FRAME_SIZE * Z.of_nat (length fs) + encode_buffer_fill x').
  { unfold MP3_FRAME_SIZE in *. lia. }
  split.
  - apply (Z.div_unique_pos _ _ _ (encode_buffer_fill x')); [lia|exact Heq].
  - apply (Z.mod_unique_pos _ _ (Z.of_nat (length fs))); [lia|exact Heq].
Qed.

Lemma float_to_short_range (sample : float) : is_short (float_to_short sample).
Proof.
  unfold float_to_short, is_short.
  generalize (int_of_float (fmul sample (float_of_int 32767))). intros v.
  cbv zeta.
  destruct (v >? 32767) eqn:H1.
  - change (32767 <? -32768) with false. cbv iota. lia.
  - destruct (v <? -32768) eqn:H2; lia.
Qed.

Lemma Forall_concat_inv {A : Type} (P : A -> Prop) (ls : list (list A)) :
  Forall P (concat ls) -> Forall (Forall P) ls.
Proof.
  induction ls as [|l ls IH]; cbn [concat]; intros H; [constructor|].
  apply Forall_app in H as [H1 H2]. constructor; auto.
Qed.

(** X15.  Every sample the encoder receives is a 16-bit value: whatever the input
    samples and the input gain (out-of-range values, infinities, NaN), each
    sample of each frame handed to [lame_encode_buffer] during a run of host
    blocks on a working pipeline lies between -32768 and 32767. *)
Theorem encoder_receives_shorts (x : t_mp3codec) (dc : Z) (h : history)
    (blocks : list (list double * list double)) :
  pipeline_ready x ->
  0 <= encode_buffer_fill x < MP3_FRAME_SIZE ->
  Forall (fun b => length (fst b) = length (snd b)) blocks ->
  exists x' dc' h' fs,
    host_run x dc h blocks = Returns (x', dc', h') /\
    encoded_frames h' = encoded_frames h ++ fs /\
    Forall (fun f => Forall is_short (fst f) /\ Forall is_short (snd f)) fs.
Proof.
  intros Hready Hfill Hlen.
  destruct (host_run_accumulates blocks x dc h Hlen Hready Hfill)
    as (x' & dc' & h' & Hrun & (_ & _ & _ & fs & Hfs & _ & Hleft & Hright)).
  exists x', dc', h', fs. split; [exact Hrun|]. split; [exact Hfs|].
  assert (Hall : forall (a : list float) (b : list double) g,
            Forall is_short (map float_to_short a ++ map (pcm_of_input g) b)).
  { intros a b g. apply Forall_app. split; apply Forall_map, Forall_forall;
      intros v _; apply float_to_short_range. }
  assert (Hl : Forall (Forall is_short) (map fst fs)).
  { apply Forall_concat_inv.
    pose proof (Hall (pending_left x) (concat (map fst blocks)) (input_gain x)) as Ha.
    rewrite <- Hleft in Ha. apply Forall_app in Ha. apply Ha. }
  assert (Hr : Forall (Forall is_short) (map snd fs)).
  { apply Forall_concat_inv.
    pose proof (Hall (pending_right x) (concat (map snd blocks)) (input_gain x)) as Ha.
    rewrite <- Hright in Ha. apply Forall_app in Ha. apply Ha. }
  rewrite Forall_map in Hl, Hr.
  rewrite Forall_forall in *. intros f Hf. split; [apply Hl|apply Hr]; exact Hf.
Qed.

(** ** The byte accumulator *)

Lemma memcpy_spec (dst : list byte) (off : Z) (src : list byte) (n : Z) :
  0 <= off -> 0 <= n ->
  (Z.to_nat (off + n) <= length dst)%nat -> (Z.to_nat n <= length src)%nat ->
  memcpy dst off src n =
  take (Z.to_nat off) dst ++ take (Z.to_nat n) src ++ drop (Z.to_nat (off + n)) dst.
Proof.
  intros Hoff Hn Hd Hs. unfold memcpy, for_loop. rewrite Z.sub_0_r.
  rewrite (fill_loop (fun i => array_get src i x00) off) by lia.
  rewrite Z.add_0_r. rewrite Z2Nat.id by lia.
  rewrite <- (Z2Nat.id n) at 1 by lia.
  rewrite (map_array_get0 (fun b => b) src x00) by assumption.
  rewrite map_id. repeat f_equal. lia.
Qed.

(** X16.  What the decoder is given.  When the chunk fits, the bytes already
    staged stay where they are, the new chunk follows them, and the decoder
    is called on exactly that, with the fill grown by the chunk length:
    chunks the decoder answered 0 to are presented again, in order, in front
    of the new one. *)
Theorem decoder_sees_staged_chunks (x : t_mp3codec) (mp3_buffer : list byte)
    (mp3_bytes dc : Z) (h : history) (acc : list byte) (pl pr : list short)
    (rl rr : list float) :
  mp3_accumulator x = Some acc ->
  length acc = Z.to_nat DECODE_BUFFER_SIZE ->
  decode_pcm_left x = Some pl -> decode_pcm_right x = Some pr ->
  output_ring_left x = Some rl -> output_ring_right x = Some rr ->
  0 <= mp3_accumulator_fill x -> 0 < mp3_bytes ->
  mp3_accumulator_fill x + mp3_bytes < DECODE_BUFFER_SIZE ->
  (Z.to_nat mp3_bytes <= length mp3_buffer)%nat ->
  exists x' hp staged,
    staged = take (Z.to_nat (mp3_accumulator_fill x)) acc
             ++ take (Z.to_nat mp3_bytes) mp3_buffer
             ++ drop (Z.to_nat (mp3_accumulator_fill x + mp3_bytes)) acc /\
    decode_chunk x mp3_buffer mp3_bytes dc h =
      Returns (x', hp ++ Ev_hip_decode staged (mp3_accumulator_fill x + mp3_bytes)
                            (fst (fst (hip_decode h staged
                                         (mp3_accumulator_fill x + mp3_bytes) pl pr)))
                          :: h) /\
    forallb (fun e => negb (is_engine_call e)) hp = true /\
    mp3_accumulator x' = Some staged.
Proof.
  intros Hacc Hlen Hpl Hpr Hrl Hrr Hfill Hbytes Hfit Hbuf.
  destruct (decode_chunk_spec x mp3_buffer mp3_bytes dc h acc pl pr rl rr
              Hacc Hpl Hpr Hrl Hrr) as (x' & hp & Hrun & Hcons & _ & _ & Hacc' & _).
  assert (Happ : append_chunk acc (mp3_accumulator_fill x) mp3_buffer mp3_bytes =
                 (take (Z.to_nat (mp3_accumulator_fill x)) acc
                  ++ take (Z.to_nat mp3_bytes) mp3_buffer
                  ++ drop (Z.to_nat (mp3_accumulator_fill x + mp3_bytes)) acc,
                  mp3_accumulator_fill x + mp3_bytes)).
  { unfold append_chunk.
    destruct (Z.ltb_spec (mp3_accumulator_fill x + mp3_bytes) DECODE_BUFFER_SIZE); [|lia].
    rewrite memcpy_spec; [reflexivity|lia|lia| |exact Hbuf].
    rewrite Hlen. lia. }
  rewrite Happ in Hrun, Hacc'. cbn [fst snd] in Hrun, Hacc'.
  eexists x', hp, _. split; [reflexivity|]. split; [exact Hrun|].
  split; [exact Hcons|exact Hacc'].
Qed.

(** ** The backlog of the ring *)

(** X17.  The backlog the read gate looks at is the distance from the read cursor
    to the write cursor, going round the ring: [(write - read) mod size],
    which is 0 when the cursors coincide and never reaches the ring size. *)
Theorem ring_available_is_distance (x : t_mp3codec) (rp : Z) :
  0 <= rp < ring_size x ->
  0 <= ring_write_pos x < ring_size x ->
  ring_available x rp = (ring_write_pos x - rp) mod ring_size x /\
  0 <= ring_available x rp < ring_size x.
Proof.
  intros Hr Hw. unfold ring_available.
  destruct (Z.geb_spec (ring_write_pos x) rp) as [Hge|Hlt].
  - rewrite Z.mod_small by lia. lia.
  - split; [|lia].
    apply (Z.mod_unique_pos _ _ (-1)); lia.
Qed.

End Blocks.

(** * What the perform routine can and cannot touch *)

Section Confinement.
Context {lame : Engine}.

Lemma same_control_refl (x : t_mp3codec) : same_control x x.
Proof. unfold same_control, kept, same_config. repeat split. Qed.

Lemma same_control_trans (x y z : t_mp3codec) :
  same_control x y -> same_control y z -> same_control x z.
Proof.
  unfold same_control.
  intros (K1 & A1 & B1 & C1 & D1 & E1 & F1 & G1 & H1 & I1 & J1)
         (K2 & A2 & B2 & C2 & D2 & E2 & F2 & G2 & H2 & I2 & J2).
  split; [exact (kept_trans _ _ _ K1 K2)|].
  repeat split; congruence.
Qed.

Lemma realtime_extension_refl (h : history) : realtime_extension h h.
Proof. exists []. split; reflexivity. Qed.

Lemma realtime_extension_trans (h1 h2 h3 : history) :
  realtime_extension h1 h2 -> realtime_extension h2 h3 -> realtime_extension h1 h3.
Proof.
  intros (a & -> & Ha) (b & -> & Hb). exists (b ++ a).
  split; [apply app_assoc|]. rewrite forallb_app, Ha, Hb. reflexivity.
Qed.

Lemma realtime_extension_cons (e : event) (h h' : history) :
  is_realtime_event e = true -> realtime_extension h h' ->
  realtime_extension h (e :: h').
Proof.
  intros He (a & -> & Ha). exists (e :: a). split; [reflexivity|].
  cbn [forallb]. rewrite He, Ha. reflexivity.
Qed.

Lemma realtime_extension_post_if (c : bool) (s : string) (h h' : history) :
  realtime_extension h h' -> realtime_extension h (post_if c s h').
Proof.
  intros H. destruct c; [|exact H]. apply realtime_extension_cons; [reflexivity|exact H].
Qed.

Ltac rt_ext :=
  repeat first
    [ apply realtime_extension_post_if
    | apply realtime_extension_cons; [reflexivity|] ];
  try apply realtime_extension_refl; try assumption.

(** Events of the real-time routine open and close nothing, and are no
    errors. *)
Lemma realtime_extension_live (h h' : history) :
  realtime_extension h h' ->
  live_encoders h' = live_encoders h /\ live_decoders h' = live_decoders h /\
  errors h' = errors h /\ rebuilds h' = rebuilds h /\ emitted h' = emitted h.
Proof.
  intros (a & -> & Ha). induction a as [|e a IH]; [repeat split|].
  cbn [forallb] in Ha. apply andb_prop in Ha as [He Ha].
  destruct (IH Ha) as (I1 & I2 & I3 & I4 & I5).
  destruct e; try discriminate He;
    cbn [app live_encoders live_decoders errors rebuilds emitted]; auto.
Qed.

Lemma sized_some {A : Type} (a b : list A) (n : Z) :
  sized (Some a) n -> length b = length a -> sized (Some b) n.
Proof.
  intros (a' & [= <-] & Ha) Hb. exists b. split; [reflexivity|congruence].
Qed.

(** ** Decoding *)

Lemma ring_write_step (x : t_mp3codec) (decoded_samples : Z) (x' : t_mp3codec) :
  ring_write x decoded_samples = Returns x' ->
  same_control x x' /\ encode_buffer_fill x' = encode_buffer_fill x /\
  mp3_accumulator_fill x' = mp3_accumulator_fill x /\
  (storage_in_order x -> storage_in_order x').
Proof.
  unfold ring_write.
  destruct (output_ring_left x) as [rl|] eqn:Hrl; [|discriminate].
  destruct (output_ring_right x) as [rr|] eqn:Hrr; [|discriminate].
  destruct (decode_pcm_left x) as [pl|] eqn:Hpl; [|discriminate].
  destruct (decode_pcm_right x) as [pr|] eqn:Hpr; [|discriminate].
  cbn [deref mbind outcome_bind]. cbv zeta. unfold for_loop.
  match goal with |- context [for_loop_from ?n 0 ?body ?init] =>
    pose proof (for_loop_from_inv
                  (fun r : list float * list float * Z =>
                     length (fst (fst r)) = length rl /\
                     length (snd (fst r)) = length rr /\
                     (0 <= ring_write_pos x < ring_size x ->
                      0 <= snd r < ring_size x))
                  body n 0 init) as Hinv;
    destruct (for_loop_from n 0 body init) as [[rl' rr'] w']
  end.
  cbn [fst snd] in Hinv.
  destruct Hinv as (Hl & Hr & Hw).
  { repeat split; auto; lia. }
  { intros j [[a b] w] (H1 & H2 & H3). cbv beta iota. cbn [fst snd] in *.
    rewrite !length_array_set. split; [exact H1|]. split; [exact H2|].
    intros Hwp. specialize (H3 Hwp).
    destruct (Z.geb_spec (w + 1) (ring_size x)); lia. }
  intros [= <-].
  split; [unfold same_control, kept, same_config; fields; repeat split|].
  split; [reflexivity|]. split; [reflexivity|].
  unfold storage_in_order. fields. rewrite Hrl, Hrr.
  intros (A & B & C & D & E & F & G & H).
  repeat split; auto; try lia;
    first [ exact (sized_some _ _ _ G Hl) | exact (sized_some _ _ _ H Hr) | idtac ].
Qed.

Lemma append_chunk_fill (acc : list byte) (fill : Z) (buf : list byte) (n : Z) :
  0 < n -> 0 <= fill < DECODE_BUFFER_SIZE ->
  0 <= snd (append_chunk acc fill buf n) < DECODE_BUFFER_SIZE.
Proof.
  intros Hn Hf. unfold append_chunk.
  destruct (Z.ltb_spec (fill + n) DECODE_BUFFER_SIZE); cbn [snd]; lia.
Qed.

Lemma decode_chunk_step (x : t_mp3codec) (mp3_buffer : list byte)
    (mp3_bytes dc : Z) (h : history) (x' : t_mp3codec) (h' : history) :
  0 < mp3_bytes ->
  decode_chunk x mp3_buffer mp3_bytes dc h = Returns (x', h') ->
  same_control x x' /\ realtime_extension h h' /\
  encode_buffer_fill x' = encode_buffer_fill x /\
  (storage_in_order x -> storage_in_order x').
Proof.
  intros Hbytes. unfold decode_chunk.
  destruct (mp3_accumulator x) as [acc|] eqn:Hacc; [|discriminate].
  destruct (decode_pcm_left x) as [pl|] eqn:Hpl; [|discriminate].
  destruct (decode_pcm_right x) as [pr|] eqn:Hpr; [|discriminate].
  cbn [deref mbind outcome_bind].
  pose proof (length_append_chunk acc (mp3_accumulator_fill x) mp3_buffer mp3_bytes) as Hlen.
  pose proof (append_chunk_fill acc (mp3_accumulator_fill x) mp3_buffer mp3_bytes Hbytes)
    as Hfill.
  destruct (append_chunk acc (mp3_accumulator_fill x) mp3_buffer mp3_bytes)
    as [acc' fill'].
  cbn [fst snd] in Hlen, Hfill.
  destruct (hip_decode h acc' fill' pl pr) as [[d pl'] pr'].
  assert (Hstore : forall v, 0 <= v < DECODE_BUFFER_SIZE ->
            storage_in_order x ->
            storage_in_order
              (set_decode_pcm_right (Some pr')
                 (set_decode_pcm_left (Some pl')
                    (set_mp3_accumulator_fill v
                       (set_mp3_accumulator (Some acc') x))))).
  { intros v Hv. unfold storage_in_order. fields. rewrite Hacc.
    intros (A & B & C & D & E & F & G & H).
    repeat split; auto; try lia. exact (sized_some _ _ _ F Hlen). }
  destruct (d >? 0) eqn:Hd.
  - match goal with |- context [ring_write ?y d] =>
      destruct (ring_write y d) as [z| |] eqn:Hrw; [|discriminate..]
    end.
    apply ring_write_step in Hrw. destruct Hrw as (Hc & Hf & Haf & Hs).
    cbn [mbind outcome_bind]. intros [= <- <-].
    split.
    { apply (same_control_trans _ z _).
      - eapply same_control_trans; [|exact Hc].
        unfold same_control, kept, same_config. fields. repeat split.
      - unfold same_control, kept, same_config. fields. repeat split. }
    split; [rt_ext|].
    split; [fields; fields_in Hf; exact Hf|].
    intros Hx.
    assert (Hz : storage_in_order z).
    { apply Hs. apply (Hstore fill'); [|exact Hx].
      apply Hfill. apply Hx. }
    revert Hz. unfold storage_in_order. fields.
    intros (A & B & C & D & E & F & G & H).
    unfold DECODE_BUFFER_SIZE in *. repeat split; auto; lia.
  - destruct (d =? 0) eqn:Hd0; intros [= <- <-].
    + split; [unfold same_control, kept, same_config; fields; repeat split|].
      split; [rt_ext|]. split; [reflexivity|].
      intros Hx. apply Hstore; [|exact Hx]. apply Hfill. apply Hx.
    + split; [unfold same_control, kept, same_config; fields; repeat split|].
      split; [rt_ext|]. split; [reflexivity|].
      intros Hx.
      assert (Hy := Hstore 0 ltac:(unfold DECODE_BUFFER_SIZE; lia) Hx).
      revert Hy. unfold storage_in_order. fields. auto.
Qed.

(** ** Encoding *)

Lemma encode_frame_step (x : t_mp3codec) (g : lame_global_flags) (dc : Z)
    (h : history) (x' : t_mp3codec) (h' : history) :
  encode_frame x g dc h = Returns (x', h') ->
  same_control x x' /\ realtime_extension h h' /\
  encode_buffer_fill x' = 0 /\
  (storage_in_order x -> storage_in_order x').
Proof.
  unfold encode_frame.
  destruct (encode_buffer_left x) as [el|] eqn:Hel; [|discriminate].
  destruct (encode_buffer_right x) as [er|] eqn:Her; [|discriminate].
  cbn [deref mbind outcome_bind].
  destruct (lame_encode_buffer h g (frame_to_pcm el) (frame_to_pcm er)
              MP3_FRAME_SIZE MP3_BUFFER_SIZE) as [mp3_bytes mp3_buffer].
  destruct (mp3_bytes >? 0) eqn:Hb.
  - intros Hrun. apply decode_chunk_step in Hrun; [|lia].
    destruct Hrun as (Hc & Hrt & Hf & Hs).
    split.
    { eapply same_control_trans; [|exact Hc].
      unfold same_control, kept, same_config. fields. repeat split. }
    split.
    { eapply realtime_extension_trans; [|exact Hrt]. rt_ext. }
    split; [rewrite Hf; reflexivity|].
    intros Hx. apply Hs. revert Hx. unfold storage_in_order. fields. auto.
  - intros [= <- <-].
    split; [unfold same_control, kept, same_config; fields; repeat split|].
    split; [rt_ext|]. split; [reflexivity|].
    unfold storage_in_order. fields. auto.
Qed.

Lemma copy_to_encode_buffer_step (x : t_mp3codec) (ins0 ins1 : list double)
    (samples_processed samples_to_copy : Z) (x' : t_mp3codec) :
  copy_to_encode_buffer x ins0 ins1 samples_processed samples_to_copy = Returns x' ->
  same_control x x' /\ encode_buffer_fill x' = encode_buffer_fill x /\
  (storage_in_order x -> storage_in_order x').
Proof.
  unfold copy_to_encode_buffer.
  destruct (encode_buffer_left x) as [el|] eqn:Hel; [|discriminate].
  destruct (encode_buffer_right x) as [er|] eqn:Her; [|discriminate].
  cbn [deref mbind outcome_bind]. cbv zeta. unfold for_loop.
  match goal with |- context [for_loop_from ?n 0 ?body ?init] =>
    pose proof (for_loop_from_inv
                  (fun b : list float * list float =>
                     length (fst b) = length el /\ length (snd b) = length er)
                  body n 0 init) as Hinv;
    destruct (for_loop_from n 0 body init) as [el' er']
  end.
  cbn [fst snd] in Hinv. destruct Hinv as (Hl & Hr).
  { split; reflexivity. }
  { intros j [a b] (H1 & H2). cbv beta iota. cbn [fst snd] in *.
    rewrite !length_array_set. auto. }
  intros [= <-].
  split; [unfold same_control, kept, same_config; fields; repeat split|].
  split; [reflexivity|].
  unfold storage_in_order. fields. rewrite Hel, Her.
  intros (A & B & C & D & E & F & G & H).
  repeat split; auto; try lia;
    first [ exact (sized_some _ _ _ D Hl) | exact (sized_some _ _ _ E Hr) | idtac ].
Qed.

Lemma accumulate_step (x : t_mp3codec) (ins0 ins1 : list double)
    (sampleframes samples_processed dc : Z) (h : history)
    (x' : t_mp3codec) (sp' : Z) (stop : bool) (h' : history) :
  accumulate x ins0 ins1 sampleframes samples_processed dc h =
    Returns (x', sp', stop, h') ->
  same_control x x' /\ realtime_extension h h' /\
  (storage_in_order x -> storage_in_order x') /\
  (samples_processed < sampleframes ->
   0 <= encode_buffer_fill x < MP3_FRAME_SIZE ->
   0 <= encode_buffer_fill x' < MP3_FRAME_SIZE).
Proof.
  unfold accumulate. cbv zeta.
  match goal with |- context [copy_to_encode_buffer x ins0 ins1 samples_processed ?c] =>
    set (c0 := c);
    destruct (copy_to_encode_buffer x ins0 ins1 samples_processed c0)
      as [x1| |] eqn:Hcopy; [|discriminate..]
  end.
  apply copy_to_encode_buffer_step in Hcopy. destruct Hcopy as (Hc1 & Hf1 & Hs1).
  cbn [mbind outcome_bind]. fields. rewrite Hf1.
  assert (Hc0 : samples_processed < sampleframes ->
                0 <= encode_buffer_fill x < MP3_FRAME_SIZE ->
                0 < c0 /\ encode_buffer_fill x + c0 <= MP3_FRAME_SIZE).
  { intros Hsp Hfill. unfold c0.
    destruct (Z.gtb_spec (sampleframes - samples_processed)
                (MP3_FRAME_SIZE - encode_buffer_fill x)); lia. }
  assert (Hctl : forall v, same_control x (set_encode_buffer_fill v x1)).
  { intros v. eapply same_control_trans; [exact Hc1|].
    unfold same_control, kept, same_config. fields. repeat split. }
  assert (Hsto : forall v, storage_in_order x ->
                   storage_in_order (set_encode_buffer_fill v x1)).
  { intros v Hx. apply Hs1 in Hx. revert Hx. unfold storage_in_order. fields. auto. }
  destruct (encode_buffer_fill x + c0 >=? MP3_FRAME_SIZE) eqn:Hfull.
  - destruct (initialized x1 =? 0) eqn:Hi.
    + intros [= <- <- <- <-].
      split; [eapply same_control_trans; [apply (Hctl (encode_buffer_fill x + c0))|];
              unfold same_control, kept, same_config; fields; repeat split|].
      split; [rt_ext|].
      split; [intros Hx; apply (Hsto (encode_buffer_fill x + c0)) in Hx; revert Hx;
              unfold storage_in_order; fields; auto|].
      intros _ _. fields. unfold MP3_FRAME_SIZE. lia.
    + destruct (gfp x1) as [g|] eqn:Hg.
      * destruct (hip x1) as [d|] eqn:Hh.
        -- match goal with |- context [encode_frame ?y g dc ?hh] =>
             destruct (encode_frame y g dc hh) as [[x2 h2]| |] eqn:Henc; [|discriminate..]
           end.
           apply encode_frame_step in Henc. destruct Henc as (Hc2 & Hrt2 & Hf2 & Hs2).
           cbn [mbind outcome_bind]. intros [= <- <- <- <-].
           split; [eapply same_control_trans; [apply Hctl|exact Hc2]|].
           split; [eapply realtime_extension_trans; [|exact Hrt2]; rt_ext|].
           split; [intros Hx; apply Hs2, Hsto, Hx|].
           intros _ _. rewrite Hf2. unfold MP3_FRAME_SIZE. lia.
        -- intros [= <- <- <- <-].
           split; [eapply same_control_trans; [apply (Hctl (encode_buffer_fill x + c0))|];
                   unfold same_control, kept, same_config; fields; repeat split|].
           split; [rt_ext|].
           split; [intros Hx; apply (Hsto (encode_buffer_fill x + c0)) in Hx; revert Hx;
                   unfold storage_in_order; fields; auto|].
           intros _ _. fields. unfold MP3_FRAME_SIZE. lia.
      * intros [= <- <- <- <-].
        split; [eapply same_control_trans; [apply (Hctl (encode_buffer_fill x + c0))|];
                unfold same_control, kept, same_config; fields; repeat split|].
        split; [rt_ext|].
        split; [intros Hx; apply (Hsto (encode_buffer_fill x + c0)) in Hx; revert Hx;
                unfold storage_in_order; fields; auto|].
        intros _ _. fields. unfold MP3_FRAME_SIZE. lia.
  - intros [= <- <- <- <-].
    split; [apply Hctl|]. split; [rt_ext|]. split; [apply Hsto|].
    intros Hsp Hfill. fields. destruct (Hc0 Hsp Hfill). lia.
Qed.

Lemma process_input_step (ins0 ins1 : list double) (sampleframes dc : Z)
    (fuel : nat) :
  forall (x : t_mp3codec) (samples_processed : Z) (h : history)
         (x' : t_mp3codec) (h' : history),
  process_input fuel x ins0 ins1 sampleframes samples_processed dc h =
    Returns (x', h') ->
  same_control x x' /\ realtime_extension h h' /\
  (storage_in_order x -> storage_in_order x') /\
  (0 <= encode_buffer_fill x < MP3_FRAME_SIZE ->
   0 <= encode_buffer_fill x' < MP3_FRAME_SIZE).
Proof.
  induction fuel as [|fuel IH]; intros x sp h x' h'; cbn [process_input].
  - destruct (sp <? sampleframes); [discriminate|]. intros [= <- <-].
    split; [apply same_control_refl|]. split; [apply realtime_extension_refl|]. auto.
  - destruct (Z.ltb_spec sp sampleframes) as [Hlt|Hge].
    + destruct (accumulate x ins0 ins1 sampleframes sp dc h)
        as [[[[x1 sp1] stop] h1]| |] eqn:Hacc; [|discriminate..].
      apply accumulate_step in Hacc. destruct Hacc as (Hc1 & Hrt1 & Hs1 & Hf1).
      cbn [mbind outcome_bind]. destruct stop.
      * intros [= <- <-]. split; [exact Hc1|]. split; [exact Hrt1|].
        split; [exact Hs1|]. intros Hf. apply Hf1; assumption.
      * intros Hrun. apply IH in Hrun. destruct Hrun as (Hc2 & Hrt2 & Hs2 & Hf2).
        split; [exact (same_control_trans _ _ _ Hc1 Hc2)|].
        split; [exact (realtime_extension_trans _ _ _ Hrt1 Hrt2)|].
        split; auto.
    + intros [= <- <-].
      split; [apply same_control_refl|]. split; [apply realtime_extension_refl|]. auto.
Qed.

(** ** Reading the ring *)

Lemma console_extension_post_if (c : bool) (s : string) (h h' : history) :
  (exists hp, h' = hp ++ h /\ forallb is_console_line hp = true) ->
  exists hp, post_if c s h' = hp ++ h /\ forallb is_console_line hp = true.
Proof.
  intros (a & -> & Ha). destruct c; [|eauto].
  exists (Ev_post s :: a). split; [reflexivity|]. cbn [forallb]. rewrite Ha. reflexivity.
Qed.

Lemma ring_read_step (x : t_mp3codec) (outs0 outs1 : list double)
    (sampleframes dc : Z) (h : history)
    (x' : t_mp3codec) (o0 o1 : list double) (h' : history) :
  ring_read x outs0 outs1 sampleframes dc h = Returns (x', o0, o1, h') ->
  (exists rp, x' = set_ring_read_pos rp x /\
     (0 <= ring_read_pos x < ring_size x -> 0 <= rp < ring_size x)) /\
  (exists hp, h' = hp ++ h /\ forallb is_console_line hp = true) /\
  length o0 = length outs0 /\ length o1 = length outs1.
Proof.
  unfold ring_read.
  destruct (output_ring_left x) as [rl|] eqn:Hrl; [|discriminate].
  destruct (output_ring_right x) as [rr|] eqn:Hrr; [|discriminate].
  cbn [deref mbind outcome_bind]. cbv zeta. unfold for_loop.
  match goal with |- context [for_loop_from ?n 0 ?body ?init] =>
    pose proof (for_loop_from_inv
                  (fun r : Z * list double * list double * history =>
                     (0 <= ring_read_pos x < ring_size x ->
                      0 <= fst (fst (fst r)) < ring_size x) /\
                     length (snd (fst (fst r))) = length outs0 /\
                     length (snd (fst r)) = length outs1 /\
                     exists hp, snd r = hp ++ h /\ forallb is_console_line hp = true)
                  body n 0 init) as Hinv;
    destruct (for_loop_from n 0 body init) as [[[rp q0] q1] hh]
  end.
  cbn [fst snd] in Hinv. destruct Hinv as (Hp & H0 & H1 & Hh).
  { split; [auto|]. split; [reflexivity|]. split; [reflexivity|].
    exists []. split; reflexivity. }
  { intros j [[[p a] b] k] (I1 & I2 & I3 & I4). cbv beta iota. cbn [fst snd] in *.
    match goal with |- context [if ?c then _ else _] => destruct c end; cbn [fst snd];
      rewrite !length_array_set.
    - split; [|split; [exact I2|split; [exact I3|]]].
      + intros Hrp. specialize (I1 Hrp).
        destruct (Z.geb_spec (p + 1) (ring_size x)); lia.
      + do 2 apply console_extension_post_if. exact I4.
    - split; [exact I1|split; [exact I2|split; [exact I3|]]].
      do 2 apply console_extension_post_if. exact I4. }
  intros [= <- <- <- <-].
  split; [exists rp; split; [reflexivity|exact Hp]|].
  split; [exact Hh|]. split; assumption.
Qed.

Lemma console_is_realtime (h h' : history) :
  (exists hp, h' = hp ++ h /\ forallb is_console_line hp = true) ->
  realtime_extension h h' /\
  exists hp, h' = hp ++ h /\ forallb (fun e => negb (is_engine_call e)) hp = true.
Proof.
  intros (a & -> & Ha).
  assert (H : forallb is_realtime_event a = true /\
              forallb (fun e => negb (is_engine_call e)) a = true).
  { induction a as [|e a IH]; [split; reflexivity|].
    cbn [forallb] in *. apply andb_prop in Ha as [He Ha].
    destruct (IH Ha) as [I1 I2]. rewrite I1, I2.
    destruct e; try discriminate He. split; reflexivity. }
  destruct H as [H1 H2]. split; exists a; auto.
Qed.

Lemma length_write_silence (outs0 outs1 : list double) (sampleframes : Z) :
  length (fst (write_silence outs0 outs1 sampleframes)) = length outs0 /\
  length (snd (write_silence outs0 outs1 sampleframes)) = length outs1.
Proof.
  unfold write_silence, for_loop.
  apply (for_loop_from_inv
           (fun o : list double * list double =>
              length (fst o) = length outs0 /\ length (snd o) = length outs1)).
  - split; reflexivity.
  - intros j [a b] (H1 & H2). cbn [fst snd] in *. rewrite !length_array_set. auto.
Qed.

Lemma length_write_bypass (x : t_mp3codec) (ins0 ins1 outs0 outs1 : list double)
    (sampleframes : Z) :
  length (fst (write_bypass x ins0 ins1 outs0 outs1 sampleframes)) = length outs0 /\
  length (snd (write_bypass x ins0 ins1 outs0 outs1 sampleframes)) = length outs1.
Proof.
  unfold write_bypass, for_loop.
  apply (for_loop_from_inv
           (fun o : list double * list double =>
              length (fst o) = length outs0 /\ length (snd o) = length outs1)).
  - split; reflexivity.
  - intros j [a b] (H1 & H2). cbn [fst snd] in *. rewrite !length_array_set. auto.
Qed.

(** Whatever path a call of the perform routine takes, if it returns then it
    has left alone everything but buffers, fills and cursors, it has only
    printed, encoded and decoded, the output vectors have the length they
    had, and fills and cursors that were inside their buffers still are. *)
Lemma perform64_step (fuel : nat) (x : t_mp3codec)
    (ins0 ins1 : list double) (numins : Z) (outs0 outs1 : list double)
    (numouts sampleframes dc : Z) (h : history)
    (x' : t_mp3codec) (o0 o1 : list double) (dc' : Z) (h' : history) :
  mp3codec_perform64 fuel x ins0 ins1 numins outs0 outs1 numouts sampleframes dc h =
    Returns (x', o0, o1, dc', h') ->
  same_control x x' /\ realtime_extension h h' /\
  length o0 = length outs0 /\ length o1 = length outs1 /\
  (within_buffers x -> within_buffers x').
Proof.
  unfold mp3codec_perform64. cbv zeta.
  destruct (initialized x =? 0).
  { intros [= <- <- <- <- <-].
    split; [apply same_control_refl|]. split; [apply realtime_extension_refl|].
    destruct (length_write_silence outs0 outs1 sampleframes). auto. }
  destruct (nonzero (bypass x)).
  { intros [= <- <- <- <- <-].
    split; [apply same_control_refl|]. split; [rt_ext|].
    destruct ((numins >=? 2) && (numouts >=? 2)); cbn [fst snd].
    - destruct (length_write_bypass x ins0 ins1 outs0 outs1 sampleframes). auto.
    - auto. }
  assert (Hnull : forall hh,
            Returns (x, fst (write_silence outs0 outs1 sampleframes),
                     snd (write_silence outs0 outs1 sampleframes), dc + 1,
                     post_if (Z.rem (dc + 1) 100 =? 0)
                       "mp3codec~: ERROR - NULL buffer pointers (encode_l=%p, encode_r=%p, ring_l=%p, ring_r=%p)"
                       (post_if (Z.rem (dc + 1) 200 =? 0) hh h)) =
            Returns (x', o0, o1, dc', h') ->
            same_control x x' /\ realtime_extension h h' /\
            length o0 = length outs0 /\ length o1 = length outs1 /\
            (within_buffers x -> within_buffers x')).
  { intros hh [= <- <- <- <- <-].
    split; [apply same_control_refl|]. split; [rt_ext|].
    destruct (length_write_silence outs0 outs1 sampleframes). auto. }
  destruct (encode_buffer_left x); [|apply Hnull].
  destruct (encode_buffer_right x); [|apply Hnull].
  destruct (output_ring_left x); [|apply Hnull].
  destruct (output_ring_right x); [|apply Hnull].
  clear Hnull.
  match goal with |- context [process_input fuel x ins0 ins1 sampleframes 0 ?d ?hh] =>
    destruct (process_input fuel x ins0 ins1 sampleframes 0 d hh)
      as [[x1 h1]| |] eqn:Hproc; [|discriminate..]
  end.
  apply process_input_step in Hproc. destruct Hproc as (Hc1 & Hrt1 & Hs1 & Hf1).
  cbn [mbind outcome_bind].
  destruct (ring_read x1 outs0 outs1 sampleframes (dc + 1) h1)
    as [[[[x2 q0] q1] h2]| |] eqn:Hread; [|discriminate..].
  apply ring_read_step in Hread.
  destruct Hread as ((rp & -> & Hrp) & Hcons & Hl0 & Hl1).
  destruct (console_is_realtime _ _ Hcons) as (Hrt2 & _).
  cbn [mbind outcome_bind]. intros [= <- <- <- <- <-].
  split.
  { eapply same_control_trans; [exact Hc1|].
    unfold same_control, kept, same_config. fields. repeat split. }
  split.
  { eapply realtime_extension_trans; [|exact Hrt2].
    eapply realtime_extension_trans; [|exact Hrt1]. rt_ext. }
  split; [exact Hl0|]. split; [exact Hl1|].
  intros (Hfill & Hsto). specialize (Hs1 Hsto). specialize (Hf1 Hfill).
  revert Hs1 Hf1 Hrp. unfold within_buffers, storage_in_order. fields.
  intros (A & B & C & D) Hf Hrp. specialize (Hrp C).
  split; [exact Hf|]. split; [exact A|]. split; [exact B|]. split; [exact Hrp|].
  exact D.
Qed.

(** X18.  The real-time routine stays in its lane.  A call of the perform routine
    on a working pipeline returns having changed nothing but buffers, fills
    and cursors: the configuration, the sample rate, the [initialized] flag,
    both codec handles, the ring size, the latency figures and the outlets
    are as before.  To the outside world it has only printed console lines,
    encoded and decoded: it reports no error, sends nothing out of an outlet,
    does not sleep, and neither opens nor closes a codec handle.  The output
    vectors keep their length. *)
Theorem perform_is_confined (fuel : nat) (x : t_mp3codec)
    (ins0 ins1 : list double) (numins : Z) (outs0 outs1 : list double)
    (numouts sampleframes dc : Z) (h : history) :
  pipeline_ready x ->
  0 <= encode_buffer_fill x < MP3_FRAME_SIZE ->
  0 <= sampleframes ->
  (Z.to_nat sampleframes <= length ins0)%nat ->
  (Z.to_nat sampleframes <= length ins1)%nat ->
  (Z.to_nat sampleframes <= fuel)%nat ->
  exists x' o0 o1 h',
    mp3codec_perform64 fuel x ins0 ins1 numins outs0 outs1 numouts sampleframes dc h =
      Returns (x', o0, o1, dc + 1, h') /\
    same_control x x' /\
    realtime_extension h h' /\
    errors h' = errors h /\ emitted h' = emitted h /\
    handles_conserved x h x' h' /\
    length o0 = length outs0 /\ length o1 = length outs1.
Proof.
  intros Hready Hfill Hn Hl0 Hl1 Hfuel.
  destruct (perform64_accumulates fuel x ins0 ins1 numins outs0 outs1 numouts
              sampleframes dc h Hready Hfill Hn Hl0 Hl1 Hfuel)
    as (x' & o0 & o1 & h' & Hrun & _).
  exists x', o0, o1, h'. split; [exact Hrun|].
  apply perform64_step in Hrun. destruct Hrun as (Hc & Hrt & Ho0 & Ho1 & _).
  destruct (realtime_extension_live _ _ Hrt) as (Le & Ld & Er & _ & Em).
  split; [exact Hc|]. split; [exact Hrt|]. split; [exact Er|]. split; [exact Em|].
  split; [|split; assumption].
  destruct Hc as (_ & _ & Hg & Hh & _).
  unfold handles_conserved, held_encoders, held_decoders.
  rewrite Hg, Hh, Le, Ld. split; reflexivity.
Qed.

Lemma host_run_within (blocks : list (list double * list double)) :
  forall (x : t_mp3codec) (dc : Z) (h : history),
  Forall (fun b => length (fst b) = length (snd b)) blocks ->
  pipeline_ready x -> within_buffers x ->
  exists x' dc' h',
    host_run x dc h blocks = Returns (x', dc', h') /\
    pipeline_ready x' /\ within_buffers x' /\
    same_control x x' /\ realtime_extension h h'.
Proof.
  induction blocks as [|[b0 b1] blocks IH]; intros x dc h Hlen Hready Hin.
  - exists x, dc, h. split; [reflexivity|]. split; [exact Hready|].
    split; [exact Hin|]. split; [apply same_control_refl|apply realtime_extension_refl].
  - apply Forall_cons in Hlen as [Hb Hlen]. cbn [fst snd] in Hb.
    cbn [host_run fst snd].
    destruct (perform64_accumulates (length b0) x b0 b1 2
                (replicate (length b0) dzero) (replicate (length b0) dzero) 2
                (Z.of_nat (length b0)) dc h)
      as (x1 & o0 & o1 & h1 & Hrun & (Hready1 & _)); try assumption; try lia.
    { apply Hin. }
    rewrite Hrun. cbn [mbind outcome_bind].
    apply perform64_step in Hrun. destruct Hrun as (Hc1 & Hrt1 & _ & _ & Hin1).
    destruct (IH x1 (dc + 1) h1 Hlen Hready1 (Hin1 Hin))
      as (x' & dc' & h' & Hrest & Hready' & Hin' & Hc2 & Hrt2).
    exists x', dc', h'. split; [exact Hrest|]. split; [exact Hready'|].
    split; [exact Hin'|].
    split; [exact (same_control_trans _ _ _ Hc1 Hc2)
           |exact (realtime_extension_trans _ _ _ Hrt1 Hrt2)].
Qed.

Lemma freshly_initialized_within (x : t_mp3codec) :
  freshly_initialized x -> within_buffers x.
Proof.
  intros (_ & _ & _ & Hel & Her & Hacc & _ & _ & Hrl & Hrr & Hsize & Hf & Haf & Hw & Hr & _).
  unfold within_buffers, storage_in_order, sized.
  rewrite Hel, Her, Hacc, Hrl, Hrr, Hsize, Hf, Haf, Hw, Hr.
  unfold sysmem_newptrclear, MP3_FRAME_SIZE, DECODE_BUFFER_SIZE, PCM_BUFFER_SIZE.
  repeat split; try lia; eexists; (split; [reflexivity|apply length_replicate]).
Qed.

(** X19.  Fills and cursors never leave their buffers.  Starting from a working
    pipeline whose encode fill is below one frame, whose accumulator fill and
    ring cursors are inside their buffers and whose buffers have their
    allocated sizes (as they are after a successful initialization), every
    run of host blocks returns with all of that still true, whatever the
    block lengths and whatever the engine answers; the configuration and the
    handles are untouched throughout. *)
Theorem fills_and_cursors_stay_within_buffers
    (blocks : list (list double * list double)) (x : t_mp3codec) (dc : Z)
    (h : history) :
  pipeline_ready x -> within_buffers x ->
  Forall (fun b => length (fst b) = length (snd b)) blocks ->
  exists x' dc' h',
    host_run x dc h blocks = Returns (x', dc', h') /\
    pipeline_ready x' /\ within_buffers x' /\ same_control x x'.
Proof.
  intros Hready Hin Hlen.
  destruct (host_run_within blocks x dc h Hlen Hready Hin)
    as (x' & dc' & h' & Hrun & Hready' & Hin' & Hc & _).
  exists x', dc', h'. auto.
Qed.

End Confinement.

(** * Blocks that do not complete a frame, and the read side of the ring *)

Section Latency.
Context {lame : Engine}.

Lemma accumulate_short (x : t_mp3codec) (ins0 ins1 : list double)
    (n dc : Z) (h : history) (el er : list float) :
  encode_buffer_left x = Some el -> encode_buffer_right x = Some er ->
  (Z.to_nat MP3_FRAME_SIZE <= length el)%nat ->
  (Z.to_nat MP3_FRAME_SIZE <= length er)%nat ->
  0 <= encode_buffer_fill x -> 0 < n ->
  encode_buffer_fill x + n < MP3_FRAME_SIZE ->
  (Z.to_nat n <= length ins0)%nat -> (Z.to_nat n <= length ins1)%nat ->
  accumulate x ins0 ins1 n 0 dc h =
  Returns
    (set_encode_buffer_fill (encode_buffer_fill x + n)
       (set_encode_buffer_right
          (Some (take (Z.to_nat (encode_buffer_fill x)) er
                 ++ map (fun s => float_of_double (dmul s (input_gain x)))
                      (take (Z.to_nat n) ins1)
                 ++ drop (Z.to_nat (encode_buffer_fill x) + Z.to_nat n) er))
          (set_encode_buffer_left
             (Some (take (Z.to_nat (encode_buffer_fill x)) el
                    ++ map (fun s => float_of_double (dmul s (input_gain x)))
                         (take (Z.to_nat n) ins0)
                    ++ drop (Z.to_nat (encode_buffer_fill x) + Z.to_nat n) el))
             x)),
     n, false, h).
Proof.
  intros Hel Her Hlel Hler Hfill Hn Hshort Hl0 Hl1.
  assert (HF : MP3_FRAME_SIZE = 1152) by reflexivity.
  unfold accumulate.
  assert (Hif : (if n - 0 >? MP3_FRAME_SIZE - encode_buffer_fill x
                 then MP3_FRAME_SIZE - encode_buffer_fill x
                 else n - 0) = n).
  { destruct (Z.gtb_spec (n - 0) (MP3_FRAME_SIZE - encode_buffer_fill x)); lia. }
  rewrite Hif.
  rewrite (copy_to_encode_buffer_spec x ins0 ins1 0 n el er)
    by (try assumption; lia).
  cbn [mbind outcome_bind Z.to_nat drop]. fields.
  destruct (Z.geb_spec (encode_buffer_fill x + n) MP3_FRAME_SIZE); [lia|].
  reflexivity.
Qed.

Lemma process_input_done (fuel : nat) (x : t_mp3codec) (ins0 ins1 : list double)
    (n dc : Z) (h : history) :
  process_input fuel x ins0 ins1 n n dc h = Returns (x, h).
Proof. destruct fuel; cbn [process_input]; rewrite Z.ltb_irrefl; reflexivity. Qed.

Lemma console_not_engine (hp : history) :
  forallb is_console_line hp = true ->
  forallb (fun e => negb (is_engine_call e)) hp = true.
Proof.
  induction hp as [|e hp IH]; [reflexivity|].
  cbn [forallb]. intros H. apply andb_prop in H as [He H].
  rewrite (IH H). destruct e; try discriminate He. reflexivity.
Qed.

(** The rest of a call whose accumulation loop made no engine call: the
    block is read from the ring as the loop left it. *)
Lemma perform64_staged (fuel : nat) (x x2 : t_mp3codec)
    (ins0 ins1 : list double) (numins : Z) (outs0 outs1 : list double)
    (numouts n dc : Z) (h : history) (rl rr : list float) :
  initialized x <> 0 -> bypass x = 0 ->
  encode_buffer_left x <> None -> encode_buffer_right x <> None ->
  output_ring_left x <> None -> output_ring_right x <> None ->
  process_input fuel x ins0 ins1 n 0 (dc + 1)
    (post_if (Z.rem (dc + 1) 200 =? 0)
       "mp3codec~: perform64 called - sampleframes: %ld, encode_buffer_fill: %d" h) =
    Returns (x2,
             post_if (Z.rem (dc + 1) 200 =? 0)
               "mp3codec~: perform64 called - sampleframes: %ld, encode_buffer_fill: %d" h) ->
  decode_delay_compensation x2 = 0 ->
  output_ring_left x2 = Some rl -> output_ring_right x2 = Some rr ->
  0 <= n <= ring_size x2 ->
  (Z.to_nat n <= length outs0)%nat -> (Z.to_nat n <= length outs1)%nat ->
  0 <= ring_read_pos x2 < ring_size x2 ->
  exists o0 o1 hc,
    mp3codec_perform64 fuel x ins0 ins1 numins outs0 outs1 numouts n dc h =
      Returns (set_ring_read_pos (ring_wrap (ring_size x2) (ring_read_pos x2 + n)) x2,
               o0, o1, dc + 1, hc ++ h) /\
    forallb (fun e => negb (is_engine_call e)) hc = true /\
    length o0 = length outs0 /\ length o1 = length outs1 /\
    forall j : nat, (j < Z.to_nat n)%nat ->
      o0 !! j =
        Some (dmul (double_of_float
                      (array_get rl (ring_wrap (ring_size x2)
                                       (ring_read_pos x2 + Z.of_nat j)) fzero))
                (output_gain x2)) /\
      o1 !! j =
        Some (dmul (double_of_float
                      (array_get rr (ring_wrap (ring_size x2)
                                       (ring_read_pos x2 + Z.of_nat j)) fzero))
                (output_gain x2)).
Proof.
  intros Hi Hb Hel Her Hrl Hrr Hproc Hddc Hrl2 Hrr2 Hn Ho0 Ho1 Hrp.
  unfold mp3codec_perform64.
  destruct (Z.eqb_spec (initialized x) 0) as [|_]; [contradiction|].
  rewrite Hb. cbn [nonzero Z.eqb negb].
  destruct (encode_buffer_left x); [|contradiction].
  destruct (encode_buffer_right x); [|contradiction].
  destruct (output_ring_left x); [|contradiction].
  destruct (output_ring_right x); [|contradiction].
  rewrite Hproc. cbn [mbind outcome_bind].
  match goal with |- context [ring_read x2 outs0 outs1 n ?d ?hh] =>
    destruct (ring_read_spec x2 n rl rr outs0 outs1 d hh Hddc Hrl2 Hrr2 Hn Ho0 Ho1 Hrp)
      as (o0 & o1 & h' & Hread & Hlo0 & Hlo1 & Hout)
  end.
  rewrite Hread. cbn [mbind outcome_bind].
  apply ring_read_step in Hread. destruct Hread as (_ & (hp & -> & Hcons) & _ & _).
  exists o0, o1.
  exists (hp ++ post_if (Z.rem (dc + 1) 200 =? 0)
                  "mp3codec~: perform64 called - sampleframes: %ld, encode_buffer_fill: %d" []).
  split.
  { rewrite <- app_assoc, <- post_if_app. reflexivity. }
  split.
  { rewrite forallb_app, (console_not_engine _ Hcons), post_if_console. reflexivity. }
  split; [exact Hlo0|]. split; [exact Hlo1|exact Hout].
Qed.

(** X20.  A block that does not complete a frame is only staged.  On a working
    pipeline with delay compensation off (as the initializer leaves it), a
    call whose block fits in what is left of the encode buffer without
    filling it makes no call to the engine: the gain-scaled input is appended
    to the pending samples, and the accumulator, the ring contents and the
    write cursor are as before.  The output block is the next
    [sampleframes] entries of the ring as they were before the call, each
    scaled by the output gain (audio decoded earlier, or the zeros the ring
    was allocated with), and the read cursor moves on by the block length
    regardless of what was written. *)
Theorem short_block_is_only_staged (fuel : nat) (x : t_mp3codec)
    (ins0 ins1 : list double) (numins : Z) (outs0 outs1 : list double)
    (numouts sampleframes dc : Z) (h : history) (rl rr : list float) :
  pipeline_ready x ->
  decode_delay_compensation x = 0 ->
  output_ring_left x = Some rl -> output_ring_right x = Some rr ->
  0 <= encode_buffer_fill x -> 0 < sampleframes ->
  encode_buffer_fill x + sampleframes < MP3_FRAME_SIZE ->
  sampleframes <= ring_size x ->
  0 <= ring_read_pos x < ring_size x ->
  (Z.to_nat sampleframes <= length ins0)%nat ->
  (Z.to_nat sampleframes <= length ins1)%nat ->
  (Z.to_nat sampleframes <= length outs0)%nat ->
  (Z.to_nat sampleframes <= length outs1)%nat ->
  (1 <= fuel)%nat ->
  exists x' o0 o1 hc,
    mp3codec_perform64 fuel x ins0 ins1 numins outs0 outs1 numouts sampleframes dc h =
      Returns (x', o0, o1, dc + 1, hc ++ h) /\
    forallb (fun e => negb (is_engine_call e)) hc = true /\
    encode_buffer_fill x' = encode_buffer_fill x + sampleframes /\
    pending_left x' =
      pending_left x
      ++ map (fun s => float_of_double (dmul s (input_gain x)))
           (take (Z.to_nat sampleframes) ins0) /\
    pending_right x' =
      pending_right x
      ++ map (fun s => float_of_double (dmul s (input_gain x)))
           (take (Z.to_nat sampleframes) ins1) /\
    mp3_accumulator x' = mp3_accumulator x /\
    mp3_accumulator_fill x' = mp3_accumulator_fill x /\
    output_ring_left x' = Some rl /\ output_ring_right x' = Some rr /\
    ring_write_pos x' = ring_write_pos x /\
    ring_read_pos x' = ring_wrap (ring_size x) (ring_read_pos x + sampleframes) /\
    forall j : nat, (j < Z.to_nat sampleframes)%nat ->
      o0 !! j =
        Some (dmul (double_of_float
                      (array_get rl (ring_wrap (ring_size x)
                                       (ring_read_pos x + Z.of_nat j)) fzero))
                (output_gain x)) /\
      o1 !! j =
        Some (dmul (double_of_float
                      (array_get rr (ring_wrap (ring_size x)
                                       (ring_read_pos x + Z.of_nat j)) fzero))
                (output_gain x)).
Proof.
  intros ((Hi & Hb & _ & _ & (el & Hel & Hlel) & (er & Her & Hler)) & _)
         Hddc Hrl Hrr Hfill Hn Hshort Hring Hrp Hl0 Hl1 Ho0 Ho1 Hfuel.
  assert (HF : MP3_FRAME_SIZE = 1152) by reflexivity.
  destruct fuel as [|fuel]; [lia|].
  pose proof (accumulate_short x ins0 ins1 sampleframes (dc + 1)
                (post_if (Z.rem (dc + 1) 200 =? 0)
                   "mp3codec~: perform64 called - sampleframes: %ld, encode_buffer_fill: %d" h)
                el er Hel Her Hlel Hler Hfill Hn Hshort Hl0 Hl1) as Hacc.
  match type of Hacc with _ = Returns (?y, _, _, _) =>
    destruct (perform64_staged (S fuel) x y ins0 ins1 numins outs0 outs1 numouts
                sampleframes dc h rl rr)
      as (o0 & o1 & hc & Hrun & Hcons & _ & _ & Hout);
      try (fields; assumption); try congruence; try (fields; lia)
  end.
  { cbn [process_input]. destruct (Z.ltb_spec 0 sampleframes); [|lia].
    rewrite Hacc. cbn [mbind outcome_bind]. apply process_input_done. }
  eexists _, o0, o1, hc. split; [exact Hrun|]. split; [exact Hcons|].
  fields_in Hout.
  split; [reflexivity|].
  split.
  { unfold pending_left. fields. rewrite Hel.
    apply take_filled; [lia|]. rewrite length_map, length_take_le by lia. lia. }
  split.
  { unfold pending_right. fields. rewrite Her.
    apply take_filled; [lia|]. rewrite length_map, length_take_le by lia. lia. }
  split; [reflexivity|]. split; [reflexivity|].
  split; [exact Hrl|]. split; [exact Hrr|].
  split; [reflexivity|]. split; [reflexivity|exact Hout].
Qed.

(** ** The read gate *)

Lemma closed_gate_loop (rp : Z)
    (body : Z -> Z * list double * list double * history ->
            Z * list double * list double * history)
    (outs0 outs1 : list double) (h : history) :
  (forall i o0 o1 hh, exists hp,
     body i (rp, o0, o1, hh) =
       (rp, array_set o0 i dzero, array_set o1 i dzero, hp ++ hh) /\
     forallb is_console_line hp = true) ->
  forall n : nat, exists hp,
    for_loop_from n 0 body (rp, outs0, outs1, h) =
      (rp,
       for_loop_from n 0 (fun j a => array_set a j dzero) outs0,
       for_loop_from n 0 (fun j a => array_set a j dzero) outs1,
       hp ++ h) /\
    forallb is_console_line hp = true.
Proof.
  intros Hbody n. induction n as [|n IH].
  - exists []. split; reflexivity.
  - destruct IH as (hp & IH & Hc). rewrite !for_loop_from_snoc, IH.
    match goal with |- context [body ?i (rp, ?a, ?b, ?hh)] =>
      destruct (Hbody i a b hh) as (hq & Hq1 & Hq)
    end.
    exists (hq ++ hp). split.
    + etransitivity; [exact Hq1|]. rewrite app_assoc. reflexivity.
    + rewrite forallb_app, Hq, Hc. reflexivity.
Qed.

Lemma console_post_if (c : bool) (s : string) :
  forallb is_console_line (post_if c s []) = true.
Proof. destruct c; reflexivity. Qed.

(** X21.  The read gate, closed.  With delay compensation on, a block read while
    the backlog of the ring does not exceed the latency threshold is all
    silence: the first [sampleframes] entries of both output vectors are set
    to zero, the read cursor stays where it is, and nothing but console
    lines is produced. *)
Theorem read_gate_holds_back (x : t_mp3codec) (outs0 outs1 : list double)
    (sampleframes dc : Z) (h : history) (rl rr : list float) :
  decode_delay_compensation x <> 0 ->
  output_ring_left x = Some rl -> output_ring_right x = Some rr ->
  ring_available x (ring_read_pos x) <= total_latency_samples x ->
  0 <= sampleframes ->
  (Z.to_nat sampleframes <= length outs0)%nat ->
  (Z.to_nat sampleframes <= length outs1)%nat ->
  exists hp,
    ring_read x outs0 outs1 sampleframes dc h =
      Returns (set_ring_read_pos (ring_read_pos x) x,
               replicate (Z.to_nat sampleframes) dzero
                 ++ drop (Z.to_nat sampleframes) outs0,
               replicate (Z.to_nat sampleframes) dzero
                 ++ drop (Z.to_nat sampleframes) outs1,
               hp ++ h) /\
    forallb is_console_line hp = true.
Proof.
  intros Hddc Hrl Hrr Hav Hn Ho0 Ho1.
  unfold ring_read. rewrite Hrl, Hrr. cbn [deref mbind outcome_bind]. cbv zeta.
  unfold for_loop. rewrite Z.sub_0_r.
  match goal with |- context [for_loop_from _ 0 ?body _] =>
    destruct (closed_gate_loop (ring_read_pos x) body outs0 outs1 h) with
      (n := Z.to_nat sampleframes) as (hp & Hloop & Hc)
  end.
  { intros i o0 o1 hh. cbv beta iota.
    destruct (Z.gtb_spec (ring_available x (ring_read_pos x)) (total_latency_samples x));
      [lia|].
    destruct (Z.eqb_spec (decode_delay_compensation x) 0); [contradiction|].
    cbn [orb].
    eexists. split.
    - rewrite post_if_app. rewrite (post_if_app _ _ hh). rewrite app_assoc. reflexivity.
    - rewrite forallb_app, !console_post_if. reflexivity. }
  rewrite Hloop.
  exists hp. split; [|exact Hc]. cbv beta iota.
  change (for_loop_from (Z.to_nat sampleframes) 0 (fun j a => array_set a j dzero))
    with (fun a : list double =>
            for_loop_from (Z.to_nat sampleframes) 0 (fun j a => array_set a j dzero) a).
  cbv beta.
  pose proof (fill_loop0 (fun _ => dzero) sampleframes outs0 Hn Ho0) as F0.
  pose proof (fill_loop0 (fun _ => dzero) sampleframes outs1 Hn Ho1) as F1.
  unfold for_loop in F0, F1. rewrite Z.sub_0_r in F0, F1.
  rewrite F0, F1.
  rewrite <- (Z2Nat.id sampleframes) at 1 3 by lia.
  rewrite map_const_seqZ. reflexivity.
Qed.

Lemma open_gate_loop (size : Z) (rp0 : Z)
    (body : Z -> Z * list double * list double * history ->
            Z * list double * list double * history) :
  0 < size ->
  (forall i rp o0 o1 hh, exists o0' o1' hh',
     body i (rp, o0, o1, hh) = (if rp + 1 >=? size then 0 else rp + 1, o0', o1', hh')) ->
  forall (n : nat) (outs0 outs1 : list double) (h : history),
  0 <= rp0 < size ->
  exists o0 o1 h',
    for_loop_from n 0 body (rp0, outs0, outs1, h) =
      ((rp0 + Z.of_nat n) mod size, o0, o1, h').
Proof.
  intros Hsize Hbody n outs0 outs1 h Hrp. induction n as [|n IH].
  - exists outs0, outs1, h. cbn [for_loop_from Z.of_nat].
    rewrite Z.add_0_r, Z.mod_small by lia. reflexivity.
  - destruct IH as (o0 & o1 & h' & IH). rewrite for_loop_from_snoc, IH.
    destruct (Hbody (0 + Z.of_nat n) ((rp0 + Z.of_nat n) mod size) o0 o1 h')
      as (o0' & o1' & h'' & ->).
    exists o0', o1', h''. f_equal. f_equal. f_equal.
    pose proof (Z.mod_pos_bound (rp0 + Z.of_nat n) size Hsize) as Hb.
    replace (rp0 + Z.of_nat (S n)) with ((rp0 + Z.of_nat n) + 1) by lia.
    rewrite <- (Zplus_mod_idemp_l (rp0 + Z.of_nat n) 1 size).
    destruct (Z.geb_spec ((rp0 + Z.of_nat n) mod size + 1) size) as [Hge|Hlt].
    + replace ((rp0 + Z.of_nat n) mod size + 1) with size by lia.
      rewrite Z.mod_same by lia. reflexivity.
    + rewrite (Z.mod_small ((rp0 + Z.of_nat n) mod size + 1)) by lia. reflexivity.
Qed.

(** X22.  The read gate, open.  With delay compensation off (which is how every
    initialization leaves it) a read is never held back: whatever the
    backlog, and however long the block, reading [sampleframes] samples
    returns and moves the read cursor on by exactly [sampleframes], modulo
    the ring size.  So when fewer fresh samples are in the ring than are
    read, the read cursor overtakes the write cursor. *)
Theorem read_cursor_always_advances (x : t_mp3codec) (outs0 outs1 : list double)
    (sampleframes dc : Z) (h : history) (rl rr : list float) :
  decode_delay_compensation x = 0 ->
  output_ring_left x = Some rl -> output_ring_right x = Some rr ->
  0 <= ring_read_pos x < ring_size x ->
  0 <= sampleframes ->
  exists o0 o1 h',
    ring_read x outs0 outs1 sampleframes dc h =
      Returns (set_ring_read_pos ((ring_read_pos x + sampleframes) mod ring_size x) x,
               o0, o1, h').
Proof.
  intros Hddc Hrl Hrr Hrp Hn.
  unfold ring_read. rewrite Hrl, Hrr. cbn [deref mbind outcome_bind]. cbv zeta.
  unfold for_loop. rewrite Z.sub_0_r.
  match goal with |- context [for_loop_from _ 0 ?body _] =>
    destruct (open_gate_loop (ring_size x) (ring_read_pos x) body) with
      (n := Z.to_nat sampleframes) (outs0 := outs0) (outs1 := outs1) (h := h)
      as (o0 & o1 & h' & Hloop)
  end.
  { lia. }
  { intros i rp o0 o1 hh. cbv beta iota. rewrite Hddc.
    change (0 =? 0) with true. rewrite orb_true_r.
    do 3 eexists. reflexivity. }
  { exact Hrp. }
  rewrite Hloop, Z2Nat.id by lia. exists o0, o1, h'. reflexivity.
Qed.

End Latency.

(** * Quiescing before a rebuild *)

Section Quiesce.
Context {lame : Engine}.

Lemma added_without_sleep_refl (h : history) : added_without_sleep h h.
Proof. exists []. split; reflexivity. Qed.

Lemma added_without_sleep_trans (h1 h2 h3 : history) :
  added_without_sleep h1 h2 -> added_without_sleep h2 h3 ->
  added_without_sleep h1 h3.
Proof.
  intros (a & -> & Ha) (b & -> & Hb). exists (b ++ a).
  split; [apply app_assoc|]. rewrite forallb_app, Ha, Hb. reflexivity.
Qed.

Lemma added_without_sleep_cons (e : event) (h h' : history) :
  is_sleep e = false -> added_without_sleep h h' ->
  added_without_sleep h (e :: h').
Proof.
  intros He (a & -> & Ha). exists (e :: a). split; [reflexivity|].
  cbn [forallb]. rewrite He, Ha. reflexivity.
Qed.

Lemma added_without_sleep_post_if (c : bool) (s : string) (h h' : history) :
  added_without_sleep h h' -> added_without_sleep h (post_if c s h').
Proof.
  intros H. destruct c; [|exact H].
  apply added_without_sleep_cons; [reflexivity|exact H].
Qed.

Ltac no_sleep :=
  unfold post, error;
  repeat first
    [ apply added_without_sleep_post_if
    | apply added_without_sleep_cons; [reflexivity|] ];
  try apply added_without_sleep_refl; try assumption.

Lemma cleanup_appends (x : t_mp3codec) (h : history) :
  added_without_sleep h (snd (mp3codec_cleanup_processor x h)).
Proof.
  unfold mp3codec_cleanup_processor. fields. cbn [snd].
  destruct (gfp x), (hip x); no_sleep.
Qed.

Lemma configure_encoder_appends (x : t_mp3codec) (h : history) :
  added_without_sleep h (snd (configure_encoder x h)).
Proof. unfold configure_encoder. cbn [snd]. no_sleep. Qed.

Lemma finish_init_appends (x : t_mp3codec) (g : lame_global_flags) (h : history) :
  added_without_sleep h (snd (finish_init x g h)).
Proof.
  unfold finish_init. destruct (hip_decode_init _); cbn [negb snd]; no_sleep.
Qed.

Lemma init_processor_appends (x : t_mp3codec) (h : history) :
  added_without_sleep h (snd (mp3codec_init_processor x h)).
Proof.
  unfold mp3codec_init_processor.
  pose proof (cleanup_appends x h) as Hc.
  destruct (mp3codec_cleanup_processor x h) as [x0 h0]. cbn [snd] in Hc.
  destruct (lame_init h0); cbn [negb].
  - pose proof (configure_encoder_appends x0 (Ev_lame_init true :: h0)) as Hg.
    destruct (configure_encoder x0 (Ev_lame_init true :: h0)) as [g h1].
    cbn [snd] in Hg.
    assert (H1 : added_without_sleep h h1).
    { eapply added_without_sleep_trans; [|exact Hg]. no_sleep. }
    assert (Hfin : forall y g' hy, added_without_sleep h hy ->
              added_without_sleep h (snd (finish_init y g' hy))).
    { intros y g' hy Hy. eapply added_without_sleep_trans; [exact Hy|].
      apply finish_init_appends. }
    match goal with |- context [if ?c then _ else _] => destruct c end.
    + match goal with |- context [if ?c then _ else _] => destruct c end.
      * match goal with |- context [if ?c then _ else _] => destruct c end.
        -- cbn [snd]. no_sleep.
        -- apply Hfin. no_sleep.
      * cbn [snd]. no_sleep.
    + apply Hfin. no_sleep.
  - cbn [snd]. no_sleep.
Qed.

Lemma reinitialize_quiesces (x : t_mp3codec) (h : history) :
  added_without_sleep (Ev_systhread_sleep 50 :: h) (snd (reinitialize x h)).
Proof.
  unfold reinitialize.
  pose proof (init_processor_appends (set_initialized 0 x) (Ev_systhread_sleep 50 :: h)) as Hi.
  destruct (mp3codec_init_processor _ _) as [[rc x'] h']. exact Hi.
Qed.

(** X23.  The pause comes first.  A quality message, a reset and every
    toggle message pause the calling thread for 50 ms exactly once, and
    everything else they do to the outside world (closing and opening the
    codec, errors) comes after that pause; a toggle message prints its console
    line before it.  The pause also happens when a quality message changes
    nothing.  A sample-rate change and the constructor rebuild without any
    pause. *)
Theorem quiesce_before_rebuild (x : t_mp3codec) (n : Z) (samplerate : double)
    (argv : list t_atom) (h : history) :
  added_without_sleep (Ev_systhread_sleep 50 :: h) (snd (mp3codec_quality x n h)) /\
  added_without_sleep (Ev_systhread_sleep 50 :: h) (snd (mp3codec_reset x h)) /\
  added_without_sleep
    (Ev_systhread_sleep 50 :: Ev_post "mp3codec~: Low-pass filter %s" :: h)
    (snd (mp3codec_lowpass x n h)) /\
  added_without_sleep
    (Ev_systhread_sleep 50 :: Ev_post "mp3codec~: High-pass filter %s" :: h)
    (snd (mp3codec_highpass x n h)) /\
  added_without_sleep
    (Ev_systhread_sleep 50 :: Ev_post "mp3codec~: Forced mid/side stereo %s" :: h)
    (snd (mp3codec_msstereo x n h)) /\
  added_without_sleep
    (Ev_systhread_sleep 50 :: Ev_post "mp3codec~: ATH-only psychoacoustic model %s" :: h)
    (snd (mp3codec_athonly x n h)) /\
  added_without_sleep
    (Ev_systhread_sleep 50 :: Ev_post "mp3codec~: Experimental compression modes %s" :: h)
    (snd (mp3codec_experimental x n h)) /\
  added_without_sleep
    (Ev_systhread_sleep 50 :: Ev_post "mp3codec~: Pre-emphasis %s" :: h)
    (snd (mp3codec_emphasis x n h)) /\
  added_without_sleep h (snd (mp3codec_dsp64 x samplerate h)) /\
  added_without_sleep h (snd (mp3codec_new argv h)).
Proof.
  split.
  { unfold mp3codec_quality. fields.
    match goal with |- context [if ?c then _ else _] => destruct c end.
    - pose proof (init_processor_appends
                    (set_quality (CLAMP n 0 9) (set_initialized 0 x))
                    (Ev_systhread_sleep 50 :: h)) as Hi.
      destruct (mp3codec_init_processor _ _) as [[rc x1] h1]. cbn [snd] in Hi.
      destruct (rc <? 0).
      + pose proof (init_processor_appends (set_quality (quality x) x1)
                      (error "mp3codec~: Failed to change quality to %ld" h1)) as Hi2.
        destruct (mp3codec_init_processor _ _) as [[rc2 x2] h2]. cbn [snd] in Hi2.
        assert (H2 : added_without_sleep (Ev_systhread_sleep 50 :: h) h2).
        { eapply added_without_sleep_trans; [|exact Hi2]. no_sleep. }
        destruct (rc2 <? 0); cbn [snd]; no_sleep.
      + cbn [snd]. no_sleep.
    - cbn [snd]. no_sleep. }
  split.
  { unfold mp3codec_reset.
    pose proof (init_processor_appends (set_initialized 0 x)
                  (Ev_systhread_sleep 50 :: h)) as Hi.
    destruct (mp3codec_init_processor _ _) as [[rc x1] h1]. cbn [snd] in Hi.
    destruct (rc <? 0); cbn [snd]; no_sleep. }
  split; [apply reinitialize_quiesces|]. split; [apply reinitialize_quiesces|].
  split; [apply reinitialize_quiesces|]. split; [apply reinitialize_quiesces|].
  split; [apply reinitialize_quiesces|]. split; [apply reinitialize_quiesces|].
  split.
  { unfold mp3codec_dsp64. destruct (negb _).
    - pose proof (init_processor_appends
                    (set_sample_rate (long_of_double samplerate) x) h) as Hi.
      destruct (mp3codec_init_processor _ _) as [[rc x1] h1]. exact Hi.
    - apply added_without_sleep_refl. }
  unfold mp3codec_new. cbv zeta.
  match goal with |- context [mp3codec_init_processor ?y h] =>
    pose proof (init_processor_appends y h) as Hi;
    destruct (mp3codec_init_processor y h) as [[rc x1] h1]
  end.
  cbn [snd] in Hi.
  destruct (rc <? 0).
  - pose proof (cleanup_appends x1
                  (error "mp3codec~: Failed to initialize MP3 processor" h1)) as Hc.
    destruct (mp3codec_cleanup_processor x1 _) as [x2 h2]. cbn [snd] in *.
    apply added_without_sleep_cons; [reflexivity|].
    eapply added_without_sleep_trans; [|exact Hc]. no_sleep.
  - cbn [snd]. no_sleep.
Qed.

End Quiesce.

(** * The further properties at concrete inputs *)

Lemma working_object_balanced : handles_balanced working_object working_history.
Proof. vm_compute. split; reflexivity. Defined.

Lemma working_object_in_sync : encoder_in_sync working_object.
Proof.
  intros g Hg. vm_compute in Hg. injection Hg as <-. vm_compute. reflexivity.
Defined.

Lemma working_object_within : within_buffers working_object.
Proof.
  split; [vm_compute; split; [discriminate|reflexivity]|].
  split; [vm_compute; split; [discriminate|reflexivity]|].
  split; [vm_compute; split; [discriminate|reflexivity]|].
  split; [vm_compute; split; [discriminate|reflexivity]|].
  split; [eexists; split; vm_compute; reflexivity|].
  split; [eexists; split; vm_compute; reflexivity|].
  split; [eexists; split; vm_compute; reflexivity|].
  split; eexists; split; vm_compute; reflexivity.
Defined.

Lemma handles_stay_balanced_witness :
  handles_balanced
    (snd (fst (@mp3codec_init_processor accepting_engine working_object working_history)))
    (snd (@mp3codec_init_processor accepting_engine working_object working_history)) /\
  handles_balanced (fst (@mp3codec_quality accepting_engine working_object 3 working_history))
    (snd (@mp3codec_quality accepting_engine working_object 3 working_history)) /\
  handles_balanced (fst (@mp3codec_reset accepting_engine working_object working_history))
    (snd (@mp3codec_reset accepting_engine working_object working_history)) /\
  handles_balanced (fst (@mp3codec_lowpass accepting_engine working_object 3 working_history))
    (snd (@mp3codec_lowpass accepting_engine working_object 3 working_history)) /\
  handles_balanced (fst (@mp3codec_highpass accepting_engine working_object 3 working_history))
    (snd (@mp3codec_highpass accepting_engine working_object 3 working_history)) /\
  handles_balanced (fst (@mp3codec_msstereo accepting_engine working_object 3 working_history))
    (snd (@mp3codec_msstereo accepting_engine working_object 3 working_history)) /\
  handles_balanced (fst (@mp3codec_athonly accepting_engine working_object 3 working_history))
    (snd (@mp3codec_athonly accepting_engine working_object 3 working_history)) /\
  handles_balanced
    (fst (@mp3codec_experimental accepting_engine working_object 3 working_history))
    (snd (@mp3codec_experimental accepting_engine working_object 3 working_history)) /\
  handles_balanced (fst (@mp3codec_emphasis accepting_engine working_object 3 working_history))
    (snd (@mp3codec_emphasis accepting_engine working_object 3 working_history)) /\
  handles_balanced
    (fst (@mp3codec_dsp64 accepting_engine working_object rate_48k working_history))
    (snd (@mp3codec_dsp64 accepting_engine working_object rate_48k working_history)) /\
  handles_balanced (mp3codec_bypass working_object 3) working_history /\
  handles_balanced (fst (mp3codec_free working_object working_history))
    (snd (mp3codec_free working_object working_history)) /\
  live_encoders (snd (mp3codec_free working_object working_history)) = 0 /\
  live_decoders (snd (mp3codec_free working_object working_history)) = 0.
Proof.
  apply (@handles_stay_balanced accepting_engine working_object 3 rate_48k working_history).
  vm_compute. split; reflexivity.
Defined.

Lemma encoder_stays_in_sync_witness :
  (encoder_in_sync (fst (@mp3codec_quality accepting_engine working_object 3 [])) /\
   0 <= quality (fst (@mp3codec_quality accepting_engine working_object 3 [])) <= 9) /\
  (encoder_in_sync (fst (@mp3codec_reset accepting_engine working_object [])) /\
   quality (fst (@mp3codec_reset accepting_engine working_object [])) =
     quality working_object) /\
  (encoder_in_sync (fst (@mp3codec_lowpass accepting_engine working_object 3 [])) /\
   quality (fst (@mp3codec_lowpass accepting_engine working_object 3 [])) =
     quality working_object) /\
  (encoder_in_sync (fst (@mp3codec_highpass accepting_engine working_object 3 [])) /\
   quality (fst (@mp3codec_highpass accepting_engine working_object 3 [])) =
     quality working_object) /\
  (encoder_in_sync (fst (@mp3codec_msstereo accepting_engine working_object 3 [])) /\
   quality (fst (@mp3codec_msstereo accepting_engine working_object 3 [])) =
     quality working_object) /\
  (encoder_in_sync (fst (@mp3codec_athonly accepting_engine working_object 3 [])) /\
   quality (fst (@mp3codec_athonly accepting_engine working_object 3 [])) =
     quality working_object) /\
  (encoder_in_sync (fst (@mp3codec_experimental accepting_engine working_object 3 [])) /\
   quality (fst (@mp3codec_experimental accepting_engine working_object 3 [])) =
     quality working_object) /\
  (encoder_in_sync (fst (@mp3codec_emphasis accepting_engine working_object 3 [])) /\
   quality (fst (@mp3codec_emphasis accepting_engine working_object 3 [])) =
     quality working_object) /\
  (encoder_in_sync (fst (@mp3codec_dsp64 accepting_engine working_object rate_48k [])) /\
   quality (fst (@mp3codec_dsp64 accepting_engine working_object rate_48k [])) =
     quality working_object) /\
  (encoder_in_sync (mp3codec_bypass working_object 3) /\
   quality (mp3codec_bypass working_object 3) = quality working_object).
Proof.
  apply (@encoder_stays_in_sync accepting_engine working_object 3 rate_48k []).
  - vm_compute. split; discriminate.
  - exact working_object_in_sync.
Defined.

Lemma latency_after_failed_rebuild_witness :
  mp3codec_latency (snd (fst rejected)) [] =
    post "mp3codec~: Not initialized - cannot report latency" [] /\
  emitted (mp3codec_latency (snd (fst rejected)) []) = emitted [].
Proof.
  apply (@latency_after_failed_rebuild rejecting_engine working_object
           (snd (fst rejected)) [] (snd rejected) []).
  vm_compute. reflexivity.
Defined.

Lemma dsp64_sample_rate_witness :
  (sample_rate working_object = long_of_double rate_48k ->
   @mp3codec_dsp64 accepting_engine working_object rate_48k [] = (working_object, [])) /\
  (sample_rate working_object <> long_of_double rate_48k ->
   let (x', h') := @mp3codec_dsp64 accepting_engine working_object rate_48k [] in
   sample_rate x' = long_of_double rate_48k /\
   rebuilds h' = S (rebuilds []) /\
   (initialized x' = 1 ->
    freshly_initialized x' /\
    exists g, gfp x' = Some g /\
      setting in_samplerate g = Some (long_of_double rate_48k) /\
      setting out_samplerate g = Some (long_of_double rate_48k))).
Proof.
  apply (@dsp64_sample_rate accepting_engine working_object rate_48k []).
  vm_compute. split; discriminate.
Defined.

Lemma init_asks_for_configuration_witness :
  gfp (snd (fst reinitialized)) = Some (encoder_settings (snd (fst reinitialized))) /\
  init_params_calls (snd reinitialized) =
    init_params_calls [] ++ [encoder_settings (snd (fst reinitialized))] /\
  encoder_settings (snd (fst reinitialized)) = encoder_settings working_object.
Proof.
  apply (@init_asks_for_configuration accepting_engine working_object
           (snd (fst reinitialized)) [] (snd reinitialized)).
  - vm_compute. split; discriminate.
  - vm_compute. reflexivity.
Defined.

Lemma bypass_passes_input_through_witness :
  exists hc,
    @mp3codec_perform64 accepting_engine 0 (mp3codec_bypass working_object 1)
      four_ones four_ones 2 four_ones four_ones 2 4 0 [] =
    Returns (mp3codec_bypass working_object 1,
             map (fun s => dmul (dmul s (input_gain working_object))
                             (output_gain working_object))
               (take (Z.to_nat 4) four_ones) ++ drop (Z.to_nat 4) four_ones,
             map (fun s => dmul (dmul s (input_gain working_object))
                             (output_gain working_object))
               (take (Z.to_nat 4) four_ones) ++ drop (Z.to_nat 4) four_ones,
             0 + 1, hc ++ []) /\
    forallb (fun e => negb (is_engine_call e)) hc = true.
Proof.
  apply (@bypass_passes_input_through accepting_engine 0 working_object 1
           four_ones four_ones four_ones four_ones 4 0 []).
  - vm_compute. discriminate.
  - lia.
  - lia.
  - vm_compute. lia.
  - vm_compute. lia.
  - vm_compute. lia.
  - vm_compute. lia.
Defined.

Lemma frames_per_call_witness :
  exists x' o0 o1 h' fs,
    @mp3codec_perform64 accepting_engine 1200 working_object long_block long_block 2
      long_zeros long_zeros 2 1200 0 [] =
      Returns (x', o0, o1, 0 + 1, h') /\
    encoded_frames h' = encoded_frames [] ++ fs /\
    Z.of_nat (length fs) =
      (encode_buffer_fill working_object + 1200) / MP3_FRAME_SIZE /\
    encode_buffer_fill x' =
      (encode_buffer_fill working_object + 1200) mod MP3_FRAME_SIZE.
Proof.
  apply (@frames_per_call accepting_engine 1200 working_object long_block long_block 2
           long_zeros long_zeros 2 1200 0 []).
  - exact working_object_ready.
  - vm_compute. split; [discriminate|reflexivity].
  - lia.
  - vm_compute. lia.
  - vm_compute. lia.
  - vm_compute. lia.
Defined.

Lemma encoder_receives_shorts_witness :
  exists x' dc' h' fs,
    @host_run accepting_engine working_object 0 [] two_blocks = Returns (x', dc', h') /\
    encoded_frames h' = encoded_frames [] ++ fs /\
    Forall (fun f => Forall is_short (fst f) /\ Forall is_short (snd f)) fs.
Proof.
  apply (@encoder_receives_shorts accepting_engine working_object 0 [] two_blocks).
  - exact working_object_ready.
  - vm_compute. split; [discriminate|reflexivity].
  - repeat constructor.
Defined.

Lemma decoder_sees_staged_chunks_witness :
  exists x' hp staged,
    staged = take (Z.to_nat (mp3_accumulator_fill working_object)) fresh_accumulator
             ++ take (Z.to_nat 4) chunk
             ++ drop (Z.to_nat (mp3_accumulator_fill working_object + 4))
                  fresh_accumulator /\
    @decode_chunk accepting_engine working_object chunk 4 0 [] =
      Returns (x', hp ++ Ev_hip_decode staged (mp3_accumulator_fill working_object + 4)
                            (fst (fst (@hip_decode accepting_engine [] staged
                                         (mp3_accumulator_fill working_object + 4)
                                         fresh_pcm fresh_pcm)))
                          :: []) /\
    forallb (fun e => negb (is_engine_call e)) hp = true /\
    mp3_accumulator x' = Some staged.
Proof.
  apply (@decoder_sees_staged_chunks accepting_engine working_object chunk 4 0 []
           fresh_accumulator fresh_pcm fresh_pcm fresh_ring fresh_ring).
  - vm_compute. reflexivity.
  - vm_compute. reflexivity.
  - vm_compute. reflexivity.
  - vm_compute. reflexivity.
  - vm_compute. reflexivity.
  - vm_compute. reflexivity.
  - vm_compute. discriminate.
  - lia.
  - vm_compute. reflexivity.
  - vm_compute. lia.
Defined.

Lemma ring_available_is_distance_witness :
  ring_available read_ahead_object 64 =
    (ring_write_pos read_ahead_object - 64) mod ring_size read_ahead_object /\
  0 <= ring_available read_ahead_object 64 < ring_size read_ahead_object.
Proof.
  apply (ring_available_is_distance read_ahead_object 64).
  - vm_compute. split; [discriminate|reflexivity].
  - vm_compute. split; [discriminate|reflexivity].
Defined.

Lemma perform_is_confined_witness :
  exists x' o0 o1 h',
    @mp3codec_perform64 accepting_engine 1200 working_object long_block long_block 2
      long_zeros long_zeros 2 1200 0 [] =
      Returns (x', o0, o1, 0 + 1, h') /\
    same_control working_object x' /\
    realtime_extension [] h' /\
    errors h' = errors [] /\ emitted h' = emitted [] /\
    handles_conserved working_object [] x' h' /\
    length o0 = length long_zeros /\ length o1 = length long_zeros.
Proof.
  apply (@perform_is_confined accepting_engine 1200 working_object long_block long_block 2
           long_zeros long_zeros 2 1200 0 []).
  - exact working_object_ready.
  - vm_compute. split; [discriminate|reflexivity].
  - lia.
  - vm_compute. lia.
  - vm_compute. lia.
  - vm_compute. lia.
Defined.

Lemma fills_and_cursors_stay_within_buffers_witness :
  exists x' dc' h',
    @host_run accepting_engine working_object 0 [] two_blocks = Returns (x', dc', h') /\
    pipeline_ready x' /\ within_buffers x' /\ same_control working_object x'.
Proof.
  apply (@fills_and_cursors_stay_within_buffers accepting_engine two_blocks
           working_object 0 []).
  - exact working_object_ready.
  - exact working_object_within.
  - repeat constructor.
Defined.

Lemma short_block_is_only_staged_witness :
  exists x' o0 o1 hc,
    @mp3codec_perform64 accepting_engine 1 working_object four_ones four_ones 2
      four_ones four_ones 2 4 0 [] =
      Returns (x', o0, o1, 0 + 1, hc ++ []) /\
    forallb (fun e => negb (is_engine_call e)) hc = true /\
    encode_buffer_fill x' = encode_buffer_fill working_object + 4 /\
    pending_left x' =
      pending_left working_object
      ++ map (fun s => float_of_double (dmul s (input_gain working_object)))
           (take (Z.to_nat 4) four_ones) /\
    pending_right x' =
      pending_right working_object
      ++ map (fun s => float_of_double (dmul s (input_gain working_object)))
           (take (Z.to_nat 4) four_ones) /\
    mp3_accumulator x' = mp3_accumulator working_object /\
    mp3_accumulator_fill x' = mp3_accumulator_fill working_object /\
    output_ring_left x' = Some fresh_ring /\ output_ring_right x' = Some fresh_ring /\
    ring_write_pos x' = ring_write_pos working_object /\
    ring_read_pos x' =
      ring_wrap (ring_size working_object) (ring_read_pos working_object + 4) /\
    forall j : nat, (j < Z.to_nat 4)%nat ->
      o0 !! j =
        Some (dmul (double_of_float
                      (array_get fresh_ring
                         (ring_wrap (ring_size working_object)
                            (ring_read_pos working_object + Z.of_nat j)) fzero))
                (output_gain working_object)) /\
      o1 !! j =
        Some (dmul (double_of_float
                      (array_get fresh_ring
                         (ring_wrap (ring_size working_object)
                            (ring_read_pos working_object + Z.of_nat j)) fzero))
                (output_gain working_object)).
Proof.
  apply (@short_block_is_only_staged accepting_engine 1 working_object four_ones four_ones 2
           four_ones four_ones 2 4 0 [] fresh_ring fresh_ring).
  - exact working_object_ready.
  - vm_compute. reflexivity.
  - vm_compute. reflexivity.
  - vm_compute. reflexivity.
  - vm_compute. discriminate.
  - lia.
  - vm_compute. reflexivity.
  - vm_compute. discriminate.
  - vm_compute. split; [discriminate|reflexivity].
  - vm_compute. lia.
  - vm_compute. lia.
  - vm_compute. lia.
  - vm_compute. lia.
  - lia.
Defined.

Lemma read_gate_holds_back_witness :
  exists hp,
    ring_read gated_object four_ones four_ones 4 0 [] =
      Returns (set_ring_read_pos (ring_read_pos gated_object) gated_object,
               replicate (Z.to_nat 4) dzero ++ drop (Z.to_nat 4) four_ones,
               replicate (Z.to_nat 4) dzero ++ drop (Z.to_nat 4) four_ones,
               hp ++ []) /\
    forallb is_console_line hp = true.
Proof.
  apply (read_gate_holds_back gated_object four_ones four_ones 4 0 []
           fresh_ring fresh_ring).
  - vm_compute. discriminate.
  - vm_compute. reflexivity.
  - vm_compute. reflexivity.
  - vm_compute. discriminate.
  - lia.
  - vm_compute. lia.
  - vm_compute. lia.
Defined.

Lemma read_cursor_always_advances_witness :
  exists o0 o1 h',
    ring_read working_object four_ones four_ones 4 0 [] =
      Returns (set_ring_read_pos
                 ((ring_read_pos working_object + 4) mod ring_size working_object)
                 working_object,
               o0, o1, h').
Proof.
  apply (read_cursor_always_advances working_object four_ones four_ones 4 0 []
           fresh_ring fresh_ring).
  - vm_compute. reflexivity.
  - vm_compute. reflexivity.
  - vm_compute. reflexivity.
  - vm_compute. split; [discriminate|reflexivity].
  - lia.
Defined.

Lemma message_arguments_are_normalised_witness :
  @mp3codec_quality accepting_engine working_object 100 [] =
    @mp3codec_quality accepting_engine working_object (CLAMP 100 0 9) [] /\
  @mp3codec_lowpass accepting_engine working_object 100 [] =
    @mp3codec_lowpass accepting_engine working_object 1 [] /\
  @mp3codec_highpass accepting_engine working_object 100 [] =
    @mp3codec_highpass accepting_engine working_object 1 [] /\
  @mp3codec_msstereo accepting_engine working_object 100 [] =
    @mp3codec_msstereo accepting_engine working_object 1 [] /\
  @mp3codec_athonly accepting_engine working_object 100 [] =
    @mp3codec_athonly accepting_engine working_object 1 [] /\
  @mp3codec_experimental accepting_engine working_object 100 [] =
    @mp3codec_experimental accepting_engine working_object 1 [] /\
  @mp3codec_emphasis accepting_engine working_object 100 [] =
    @mp3codec_emphasis accepting_engine working_object 1 [] /\
  mp3codec_bypass working_object 100 = mp3codec_bypass working_object 1.
Proof.
  apply (@message_arguments_are_normalised accepting_engine working_object 100 []).
  lia.
Defined.

Lemma empty_block_is_noop_witness :
  exists hc,
    @mp3codec_perform64 accepting_engine 0 working_object [] [] 2 [] [] 2 0 0 [] =
      Returns (set_ring_read_pos (ring_read_pos working_object) working_object,
               [], [], 0 + 1, hc ++ []) /\
    forallb (fun e => negb (is_engine_call e)) hc = true.
Proof.
  apply (@empty_block_is_noop accepting_engine 0 working_object [] [] 2 [] [] 2 0 []).
  exact working_object_ready.
Defined.
